(** * floppy-copy: the renaming, copy and wipe pipeline of [floppy_copy.py]

    A shallow embedding of the script.  Python values are modelled by the
    matching Rocq data (strings, lists of path parts, an insertion-ordered
    dictionary) and the operating system by an explicit [world]: the file
    system, the clock, the lines waiting on standard input, the log records
    written, the calls made so far, the calls the system refuses and what
    such a call has done by the time it fails.  A command takes a world to a
    world and either returns a value, raises a Python exception, or is still
    in a loop when the bound of that loop is reached.

    The library calls follow Python 3.12 on Linux ([Path.glob] with
    [case_sensitive], [Path.exists] and [Path.is_dir] that raise the errors
    they do not ignore, [BaseException.add_note], [PurePath.suffix],
    [datetime.fromtimestamp] with its range of years, [shutil.copy2],
    [shutil.rmtree]). *)

From Stdlib Require Import List String Ascii Bool Arith ZArith Lia.
From Stdlib Require Import DecimalString DecimalNat.
Import ListNotations.

Local Open Scope string_scope.
Local Open Scope list_scope.

(** ** Strings *)

Module Str.

(** [str(i)] of a non-negative Python [int]. *)
Definition of_nat (n : nat) : string :=
  NilEmpty.string_of_uint (Nat.to_uint n).

(** [c.lower()] on the ASCII range; other bytes are kept. *)
Definition lower_ascii (c : ascii) : ascii :=
  let n := nat_of_ascii c in
  if ((65 <=? n) && (n <=? 90))%nat then ascii_of_nat (n + 32) else c.

(** [s.lower()]. *)
Fixpoint lower (s : string) : string :=
  match s with
  | EmptyString => EmptyString
  | String c s' => String (lower_ascii c) (lower s')
  end.

(** [s.rfind(".")]: the index of the last dot, [None] for Python's [-1]. *)
Fixpoint rfind_dot (s : string) : option nat :=
  match s with
  | EmptyString => None
  | String c s' =>
      match rfind_dot s' with
      | Some i => Some (S i)
      | None => if Ascii.eqb c "." then Some 0 else None
      end
  end.

(** [s[i:]]. *)
Definition drop (i : nat) (s : string) : string :=
  substring i (String.length s - i) s.

(** [s.endswith(t)]. *)
Definition endswith (s t : string) : bool :=
  (String.length t <=? String.length s)%nat &&
  String.eqb (drop (String.length s - String.length t) s) t.

(** [x in xs] for a list of strings. *)
Definition mem (x : string) (xs : list string) : bool :=
  existsb (String.eqb x) xs.

(** [str(z)] of a Python [int]. *)
Definition of_Z (z : Z) : string :=
  NilEmpty.string_of_int (Z.to_int z).

(** [c in s] for a character. *)
Fixpoint has_char (c : ascii) (s : string) : bool :=
  match s with
  | EmptyString => false
  | String x s' => Ascii.eqb x c || has_char c s'
  end.

Definition single_quote : ascii := "'"%char.
Definition double_quote : ascii := ascii_of_nat 34.
Definition backslash : ascii := ascii_of_nat 92.

Definition hex_digit (n : nat) : ascii :=
  nth n (list_ascii_of_string "0123456789abcdef") "0"%char.

(** One character of [repr(s)] between the quotes [quote]. *)
Definition repr_char (quote c : ascii) : string :=
  let n := nat_of_ascii c in
  let esc x := String backslash (String x EmptyString) in
  if Ascii.eqb c backslash then esc backslash
  else if Ascii.eqb c quote then esc quote
  else if (n =? 10)%nat then esc "n"%char
  else if (n =? 13)%nat then esc "r"%char
  else if (n =? 9)%nat then esc "t"%char
  else if ((n <? 32) || (n =? 127))%nat then
    String backslash
      (String "x" (String (hex_digit (n / 16))
                     (String (hex_digit (n mod 16)) EmptyString)))
  else String c EmptyString.

Fixpoint repr_chars (quote : ascii) (s : string) : string :=
  match s with
  | EmptyString => EmptyString
  | String c s' => repr_char quote c ++ repr_chars quote s'
  end.

(** [repr(s)] of a [str]: in single quotes, or in double quotes when [s]
    holds a single quote and no double quote; the backslash, the quote in
    use and the control characters are escaped. The bytes of a character
    outside ASCII are kept as they are. *)
Definition repr (s : string) : string :=
  let quote :=
    if has_char single_quote s && negb (has_char double_quote s)
    then double_quote else single_quote in
  String quote (repr_chars quote s ++ String quote EmptyString).

End Str.

(** ** Paths

    A [pathlib.Path] is held as the list of its parts; [d / name] appends a
    part, [p.name] is the last part. *)

Definition Path := list string.

Definition path_eqb (p q : Path) : bool :=
  if list_eq_dec string_dec p q then true else false.

(** [d / name] *)
Definition joinpath (d : Path) (name : string) : Path := d ++ [name].

(** [p.name] *)
Definition name (p : Path) : string := last p EmptyString.

(** [p.parent] *)
Definition parent (p : Path) : Path := removelast p.

(** [str(p)] *)
Definition path_str (p : Path) : string := String.concat "/" p.

(** [p.suffix] (pathlib): the part of the name from its last dot on, when
    that dot is neither the first nor the last character of the name. *)
Definition suffix (p : Path) : string :=
  let nm := name p in
  match Str.rfind_dot nm with
  | Some i =>
      if ((0 <? i) && (i <? String.length nm - 1))%nat then Str.drop i nm
      else EmptyString
  | None => EmptyString
  end.

(** [fnmatch] for the two patterns the script uses: a pattern ["*" ++ lit]
    matches the names that end in [lit], any other pattern is taken as a
    literal; without [case_sensitive] both sides are compared in lower case. *)
Definition fnmatch (nm pat : string) (case_sensitive : bool) : bool :=
  let fold s := if case_sensitive then s else Str.lower s in
  match pat with
  | String "*" lit => Str.endswith (fold nm) (fold lit)
  | _ => String.eqb (fold nm) (fold pat)
  end.

(** ** Exceptions *)

Inductive exn_class :=
| AttributeError
| ValueError
| OverflowError
| OSError
| FileNotFoundError
| NotADirectoryError
| IsADirectoryError
| PermissionError
| SameFileError
| EOFError.

Definition exn_class_eqb (a b : exn_class) : bool :=
  match a, b with
  | AttributeError, AttributeError
  | ValueError, ValueError
  | OverflowError, OverflowError
  | OSError, OSError
  | FileNotFoundError, FileNotFoundError
  | NotADirectoryError, NotADirectoryError
  | IsADirectoryError, IsADirectoryError
  | PermissionError, PermissionError
  | SameFileError, SameFileError
  | EOFError, EOFError => true
  | _, _ => false
  end.

(** An exception object: its class, its [errno] attribute ([None] when it
    has none), [str(e)] and the notes attached with [e.add_note]. All the
    classes above derive from [Exception]. *)
Record exn := mk_exn {
  e_class : exn_class;
  e_errno : option nat;
  e_msg : string;
  e_notes : list string
}.

(** [e.add_note(note)] *)
Definition add_note (e : exn) (note : string) : exn :=
  {| e_class := e_class e; e_errno := e_errno e; e_msg := e_msg e;
     e_notes := e_notes e ++ [note] |}.

(** [isinstance(e, OSError)]: [shutil.SameFileError] and the classes that
    Python picks from the [errno] derive from [OSError]. *)
Definition is_OSError (e : exn) : bool :=
  match e_class e with
  | OSError | FileNotFoundError | NotADirectoryError | IsADirectoryError
  | PermissionError | SameFileError => true
  | _ => false
  end.

Definition ENOENT : nat := 2.
Definition EBADF : nat := 9.
Definition ENOTDIR : nat := 20.
Definition ELOOP : nat := 40.

(** The errors of [stat] that [Path.exists] and [Path.is_dir] answer with
    [False]: an [OSError] whose [errno] is [ENOENT], [ENOTDIR], [EBADF] or
    [ELOOP], and a [ValueError]; any other error is raised again. *)
Definition ignored_error (e : exn) : bool :=
  match e_class e with
  | ValueError => true
  | _ =>
      is_OSError e &&
      match e_errno e with
      | Some n =>
          (n =? ENOENT)%nat || (n =? ENOTDIR)%nat || (n =? EBADF)%nat ||
          (n =? ELOOP)%nat
      | None => false
      end
  end.

(** ** Local time and [strftime] *)

Record datetime := mk_datetime {
  year : Z; month : Z; day : Z; hour : Z; minute : Z; second : Z
}.

(** A two-digit, zero-padded field ([%y], [%m], [%d], [%H], [%M], [%S]). *)
Definition pad2 (z : Z) : string :=
  let n := Z.to_nat (z mod 100) in
  if (n <? 10)%nat then "0" ++ Str.of_nat n else Str.of_nat n.

(** [d.strftime("%y%m%d_%H%M%S")] *)
Definition strftime (d : datetime) : string :=
  pad2 (year d) ++ pad2 (month d) ++ pad2 (day d) ++ "_" ++
  pad2 (hour d) ++ pad2 (minute d) ++ pad2 (second d).

(** The proleptic Gregorian date of a day count since 1970-01-01. *)
Definition civil_from_days (days : Z) : Z * Z * Z :=
  let z := (days + 719468)%Z in
  let era := (z / 146097)%Z in
  let doe := (z - era * 146097)%Z in
  let yoe := ((doe - doe / 1460 + doe / 36524 - doe / 146096) / 365)%Z in
  let doy := (doe - (365 * yoe + yoe / 4 - yoe / 100))%Z in
  let mp := ((5 * doy + 2) / 153)%Z in
  let d := (doy - (153 * mp + 2) / 5 + 1)%Z in
  let m := (if mp <? 10 then mp + 3 else mp - 9)%Z in
  let y := (yoe + era * 400 + (if m <=? 2 then 1 else 0))%Z in
  (y, m, d).

(** The broken-down local time of the C library at time [t], in a zone
    whose offset from UTC at time [t] is [utcoffset t] seconds. *)
Definition local_time (utcoffset : Z -> Z) (t : Z) : datetime :=
  let l := (t + utcoffset t)%Z in
  let '(y, m, d) := civil_from_days (l / 86400) in
  let s := (l mod 86400)%Z in
  {| year := y; month := m; day := d;
     hour := (s / 3600)%Z; minute := ((s mod 3600) / 60)%Z;
     second := (s mod 60)%Z |}.

Definition MINYEAR : Z := 1.
Definition MAXYEAR : Z := 9999.

(** The checks that [datetime.fromtimestamp] makes on a local time: the
    C library must be able to hold the year in [tm_year], an [int] counted
    from 1900, and [datetime] takes the years [MINYEAR] to [MAXYEAR]. *)
Definition check_local_time (d : datetime) : option exn :=
  let y := year d in
  if ((y - 1900 <? - 2 ^ 31) || (2 ^ 31 <=? y - 1900))%Z then
    Some (mk_exn OSError (Some 75)
            "[Errno 75] Value too large for defined data type" [])
  else if ((y <? MINYEAR) || (MAXYEAR <? y))%Z then
    Some (mk_exn ValueError None
            ("year " ++ Str.of_Z y ++ " is out of range") [])
  else None.

(** [datetime.datetime.fromtimestamp(t)] for the whole second [t] that the
    timestamp rounds to, the microseconds left out: the local time at [t],
    or the error raised. The timestamp must fit the
    [time_t] of the platform; the local time is looked up at [t], then a day
    earlier and, when the offset from UTC has gone down within that day, at
    the time before this change (the search for a repeated hour), and each
    of these local times is checked. *)
Definition fromtimestamp (utcoffset : Z -> Z) (t : Z) : exn + datetime :=
  if ((t <? - 2 ^ 63) || (2 ^ 63 <=? t))%Z then
    inl (mk_exn OverflowError None
           "timestamp out of range for platform time_t" [])
  else
    let d := local_time utcoffset t in
    match check_local_time d with
    | Some e => inl e
    | None =>
        let max_fold_seconds := 86400%Z in
        let probe := (t - max_fold_seconds)%Z in
        match check_local_time (local_time utcoffset probe) with
        | Some e => inl e
        | None =>
            let transition := (utcoffset t - utcoffset probe)%Z in
            if (transition <? 0)%Z then
              match check_local_time
                      (local_time utcoffset (t + transition)) with
              | Some e => inl e
              | None => inr d
              end
            else inr d
        end
    end.

(** ** The world *)

(** An entry of the file system. Of its modification time the script uses
    the second that [datetime.fromtimestamp] reads from [st_mtime], which
    is a [float]: [n_mtime] is [st_mtime] rounded to the microsecond, as
    [fromtimestamp] rounds it, and then cut to the whole second. *)
Record node := mk_node {
  n_is_dir : bool;
  n_mtime : Z;            (* st_mtime, in whole seconds *)
  n_owner : nat * nat;    (* st_uid, st_gid *)
  n_data : string
}.

Definition filesystem := list (Path * node).

(** The calls the script makes to the operating system. *)
Inductive call :=
| Exists (p : Path)
| IsDir (p : Path)
| Glob (d : Path) (pattern : string)
| Iterdir (d : Path)
| Listdir (d : Path)
| Stat (p : Path)
| Copy2 (src dst : Path)
| Chown (p : Path) (uid gid : nat)
| Rmtree (p : Path)
| Remove (p : Path)
| Input (prompt : string)
| Getuid
| Scandir (d : Path).

Inductive level := INFO | WARNING | ERROR.

(** [Scandir d] is the reading of the directory [d] inside [Path.glob]: it
    is no call of the script and is not recorded among the calls made, but
    the system may refuse it. *)

Record world := make_world {
  w_fs : filesystem;
  w_uid : nat;                       (* os.getuid() *)
  w_utcoffset : Z -> Z;              (* the local time zone *)
  w_clock : nat -> Z;                (* the time at the n-th call of the run *)
  w_stdin : list string;             (* the lines still to be read *)
  w_fault : call -> option exn;      (* calls the system refuses *)
  w_torn : call -> option (Z * string);
    (* what a refused copy leaves at its destination: st_mtime and data *)
  w_gone : call -> list Path;
    (* what a refused rmtree had removed when it failed *)
  w_log : list (level * string);     (* log records, oldest first *)
  w_calls : list call                (* calls made, oldest first *)
}.

(** A world whose refused calls leave nothing behind; its clock counts the
    calls. *)
Definition mk_world (fs : filesystem) (uid : nat) (utcoffset : Z -> Z)
    (stdin : list string) (fault : call -> option exn)
    (log : list (level * string)) (calls : list call) : world :=
  make_world fs uid utcoffset Z.of_nat stdin fault (fun _ => None)
    (fun _ => []) log calls.

Definition set_fs (fs : filesystem) (w : world) : world :=
  {| w_fs := fs; w_uid := w_uid w; w_utcoffset := w_utcoffset w;
     w_clock := w_clock w; w_stdin := w_stdin w; w_fault := w_fault w;
     w_torn := w_torn w; w_gone := w_gone w; w_log := w_log w;
     w_calls := w_calls w |}.

Definition set_stdin (l : list string) (w : world) : world :=
  {| w_fs := w_fs w; w_uid := w_uid w; w_utcoffset := w_utcoffset w;
     w_clock := w_clock w; w_stdin := l; w_fault := w_fault w;
     w_torn := w_torn w; w_gone := w_gone w; w_log := w_log w;
     w_calls := w_calls w |}.

Definition add_log (r : level * string) (w : world) : world :=
  {| w_fs := w_fs w; w_uid := w_uid w; w_utcoffset := w_utcoffset w;
     w_clock := w_clock w; w_stdin := w_stdin w; w_fault := w_fault w;
     w_torn := w_torn w; w_gone := w_gone w; w_log := w_log w ++ [r];
     w_calls := w_calls w |}.

Definition add_call (c : call) (w : world) : world :=
  {| w_fs := w_fs w; w_uid := w_uid w; w_utcoffset := w_utcoffset w;
     w_clock := w_clock w; w_stdin := w_stdin w; w_fault := w_fault w;
     w_torn := w_torn w; w_gone := w_gone w; w_log := w_log w;
     w_calls := w_calls w ++ [c] |}.

(** The time at which the call made last is served. *)
Definition now (w : world) : Z := w_clock w (List.length (w_calls w)).

(** ** Commands: state, exceptions and loops that may not end *)

Inductive outcome (A : Type) :=
| Return (a : A)
| Raise (e : exn)
| Diverge.
Arguments Return {A} a.
Arguments Raise {A} e.
Arguments Diverge {A}.

Definition M (A : Type) := world -> outcome A * world.

Definition ret {A} (a : A) : M A := fun w => (Return a, w).

Definition raise {A} (e : exn) : M A := fun w => (Raise e, w).

Definition diverge {A} : M A := fun w => (Diverge, w).

Definition bind {A B} (m : M A) (k : A -> M B) : M B :=
  fun w =>
    match m w with
    | (Return a, w') => k a w'
    | (Raise e, w') => (Raise e, w')
    | (Diverge, w') => (Diverge, w')
    end.

(** [isinstance(e, Exception)]: every class of [exn_class] derives from it. *)
Definition is_Exception (e : exn) : bool := true.

(** [isinstance(e, AttributeError)] *)
Definition is_AttributeError (e : exn) : bool :=
  exn_class_eqb (e_class e) AttributeError.

(** [try: m  except C as e: h e], with [catches] deciding [isinstance(e, C)]. *)
Definition try_except {A} (m : M A) (catches : exn -> bool) (h : exn -> M A)
  : M A :=
  fun w =>
    match m w with
    | (Raise e, w') => if catches e then h e w' else (Raise e, w')
    | r => r
    end.

Declare Scope cmd_scope.
Delimit Scope cmd_scope with cmd.
Notation "x <- c1 ;; c2" := (bind c1 (fun x => c2))
  (at level 61, c1 at next level, right associativity) : cmd_scope.
Notation "c1 ;; c2" := (bind c1 (fun _ => c2))
  (at level 61, right associativity) : cmd_scope.
Local Open Scope cmd_scope.

(** [for x in xs: s = body s x], the loop state [s] threaded through. *)
Fixpoint for_fold {A S} (xs : list A) (s : S) (body : S -> A -> M S) : M S :=
  match xs with
  | [] => ret s
  | x :: xs' => s' <- body s x ;; for_fold xs' s' body
  end.

(** [for x in xs: body x] *)
Definition for_each {A} (xs : list A) (body : A -> M unit) : M unit :=
  for_fold xs tt (fun _ x => body x).

(** [logging.info], [logging.warning], [logging.error] *)
Definition logging (l : level) (msg : string) : M unit :=
  fun w => (Return tt, add_log (l, msg) w).

(** ** The operating system *)

Module OS.

Definition lookup (fs : filesystem) (p : Path) : option node :=
  match find (fun e => path_eqb (fst e) p) fs with
  | Some e => Some (snd e)
  | None => None
  end.

Definition is_dir (fs : filesystem) (p : Path) : bool :=
  match lookup fs p with
  | Some n => n_is_dir n
  | None => false
  end.

(** The entries directly inside [d], in the order the system lists them. *)
Definition children (fs : filesystem) (d : Path) : list Path :=
  map fst
    (filter (fun e => match fst e with
                      | [] => false
                      | _ :: _ => path_eqb (parent (fst e)) d
                      end) fs).

(** [d] is [p] or an ancestor of [p]. *)
Fixpoint is_prefix (d p : Path) : bool :=
  match d, p with
  | [], _ => true
  | x :: d', y :: p' => String.eqb x y && is_prefix d' p'
  | _ :: _, [] => false
  end.

Definition delete (fs : filesystem) (p : Path) : filesystem :=
  filter (fun e => negb (path_eqb (fst e) p)) fs.

Definition delete_tree (fs : filesystem) (p : Path) : filesystem :=
  filter (fun e => negb (is_prefix p (fst e))) fs.

(** Replace the entry at [p] where it is, or add it at the end. *)
Fixpoint write (fs : filesystem) (p : Path) (n : node) : filesystem :=
  match fs with
  | [] => [(p, n)]
  | e :: fs' =>
      if path_eqb (fst e) p then (p, n) :: fs' else e :: write fs' p n
  end.

Definition set_mtime (t : Z) (n : node) : node :=
  mk_node (n_is_dir n) t (n_owner n) (n_data n).

(** The directory [d], if it is there, gets the modification time [t]: an
    entry was added to it or taken from it. *)
Definition touch (fs : filesystem) (d : Path) (t : Z) : filesystem :=
  map (fun e => if path_eqb (fst e) d then (fst e, set_mtime t (snd e))
                else e) fs.

(** The file [p] is written at time [t]: when it is new, its directory is
    modified. *)
Definition create (fs : filesystem) (p : Path) (n : node) (t : Z)
  : filesystem :=
  match lookup fs p with
  | Some _ => write fs p n
  | None => touch (write fs p n) (parent p) t
  end.

(** The entry [p] is taken from its directory at time [t]. *)
Definition unlink (fs : filesystem) (p : Path) (t : Z) : filesystem :=
  touch (delete fs p) (parent p) t.

(** The entry [p] and all below it are taken away at time [t]. *)
Definition unlink_tree (fs : filesystem) (p : Path) (t : Z) : filesystem :=
  touch (delete_tree fs p) (parent p) t.

(** [q] lies below [p]. *)
Definition is_below (p q : Path) : bool :=
  is_prefix p q && negb (path_eqb p q).

(** What is left when a removal of the tree [p] fails after the entries
    [gone] below [p] were removed with all below them. *)
Definition prune (fs : filesystem) (p : Path) (gone : list Path) (t : Z)
  : filesystem :=
  fold_left (fun fs q => if is_below p q then unlink_tree fs q t else fs)
    gone fs.

Definition no_entry (p : Path) : exn :=
  mk_exn FileNotFoundError (Some ENOENT)
    ("[Errno 2] No such file or directory: " ++ Str.repr (path_str p)) [].

Definition not_a_directory (p : Path) : exn :=
  mk_exn NotADirectoryError (Some ENOTDIR)
    ("[Errno 20] Not a directory: " ++ Str.repr (path_str p)) [].

Definition is_a_directory (p : Path) : exn :=
  mk_exn IsADirectoryError (Some 21)
    ("[Errno 21] Is a directory: " ++ Str.repr (path_str p)) [].

(** [repr(p)] of a [pathlib.Path] *)
Definition path_repr (p : Path) : string :=
  "PosixPath(" ++ Str.repr (path_str p) ++ ")".

(** [shutil.SameFileError]; [joined] says that the destination was a
    directory, and so is the string that [os.path.join] returned. *)
Definition same_file (src dst : Path) (joined : bool) : exn :=
  mk_exn SameFileError None
    (path_repr src ++ " and " ++
     (if joined then Str.repr (path_str dst) else path_repr dst) ++
     " are the same file") [].

(** A call to the system: it is recorded, then refused when the world says
    so, and otherwise has the effect [sem]; [wreck] is what a refused call
    has done by the time it fails. *)
Definition syscall_with {A} (c : call) (sem : M A) (wreck : world -> world)
  : M A :=
  fun w =>
    let w' := add_call c w in
    match w_fault w' c with
    | Some e => (Raise e, wreck w')
    | None => sem w'
    end.

(** A call that does nothing when it is refused. *)
Definition syscall {A} (c : call) (sem : M A) : M A :=
  syscall_with c sem (fun w => w).

(** A call that reports no error to Python ([os.getuid]). *)
Definition query {A} (c : call) (f : world -> A) : M A :=
  fun w => let w' := add_call c w in (Return (f w'), w').

(** [Path.exists] and [Path.is_dir]: the answer of the file system, [False]
    when [stat] fails with an error that is ignored, and any other error of
    [stat] raised again. *)
Definition path_test (c : call) (f : filesystem -> bool) : M bool :=
  fun w =>
    let w' := add_call c w in
    match w_fault w' c with
    | Some e => if ignored_error e then (Return false, w') else (Raise e, w')
    | None => (Return (f (w_fs w')), w')
    end.

Definition path_exists (p : Path) : M bool :=
  path_test (Exists p)
    (fun fs => match lookup fs p with Some _ => true | None => false end).

Definition path_is_dir (p : Path) : M bool :=
  path_test (IsDir p) (fun fs => is_dir fs p).

Definition getuid : M nat := query Getuid w_uid.

(** [list(d.glob(pattern, case_sensitive=cs))] for a pattern without a
    slash. [glob] starts with [d.is_dir()], whose refusal is that of the
    [Glob] call: nothing is found when that test says [False], also for an
    error it ignores, and any other error is raised. The directory is then
    read; an [OSError] of this reading is swallowed and nothing is found. *)
Definition glob (d : Path) (pattern : string) (cs : bool) : M (list Path) :=
  fun w =>
    let w' := add_call (Glob d pattern) w in
    match w_fault w' (Glob d pattern) with
    | Some e => if ignored_error e then (Return [], w') else (Raise e, w')
    | None =>
        if is_dir (w_fs w') d then
          match w_fault w' (Scandir d) with
          | Some e => if is_OSError e then (Return [], w') else (Raise e, w')
          | None =>
              (Return (filter (fun p => fnmatch (name p) pattern cs)
                         (children (w_fs w') d)), w')
          end
        else (Return [], w')
    end.

Definition list_directory (c : call) (d : Path) : M (list Path) :=
  syscall c
    (fun w =>
       match lookup (w_fs w) d with
       | None => (Raise (no_entry d), w)
       | Some n =>
           if n_is_dir n then (Return (children (w_fs w) d), w)
           else (Raise (not_a_directory d), w)
       end).

(** [list(d.iterdir())] *)
Definition iterdir (d : Path) : M (list Path) := list_directory (Iterdir d) d.

(** [os.listdir(d)] *)
Definition listdir (d : Path) : M (list string) :=
  ps <- list_directory (Listdir d) d ;; ret (map name ps).

(** [p.stat()] *)
Definition stat (p : Path) : M node :=
  syscall (Stat p)
    (fun w =>
       match lookup (w_fs w) p with
       | None => (Raise (no_entry p), w)
       | Some n => (Return n, w)
       end).

(** Where [shutil.copy2(src, dst)] writes: a [dst] that is a directory
    receives the file under the name of [src]. *)
Definition copy2_target (fs : filesystem) (src dst : Path) : Path :=
  if is_dir fs dst then joinpath dst (name src) else dst.

(** The checks of [shutil.copy2(src, dst)] up to the opening of both files:
    the entry of [src], or the error. *)
Definition copy2_open (fs : filesystem) (src dst : Path) : exn + node :=
  let dst' := copy2_target fs src dst in
  match lookup fs src with
  | None => inl (no_entry src)
  | Some n =>
      if path_eqb src dst' then inl (same_file src dst' (is_dir fs dst))
      else if n_is_dir n then inl (is_a_directory src)
      else if is_dir fs dst' then inl (is_a_directory dst')
      else
        match lookup fs (parent dst') with
        | None => inl (no_entry dst')
        | Some d =>
            if n_is_dir d then inr n else inl (not_a_directory dst')
        end
  end.

(** The owner of the file [p] once it is written by the user [uid]. *)
Definition owner_at (fs : filesystem) (p : Path) (uid : nat) : nat * nat :=
  match lookup fs p with
  | Some old => n_owner old
  | None => (uid, uid)
  end.

(** [shutil.copy2(src, dst)]: data and times are copied, the path of the
    new file is returned. A copy that is refused once both files are open
    may leave a file at the destination. *)
Definition copy2 (src dst : Path) : M Path :=
  let c := Copy2 src dst in
  syscall_with c
    (fun w =>
       let fs := w_fs w in
       let dst' := copy2_target fs src dst in
       match copy2_open fs src dst with
       | inl e => (Raise e, w)
       | inr n =>
           (Return dst',
            set_fs (create fs dst'
                      (mk_node false (n_mtime n) (owner_at fs dst' (w_uid w))
                         (n_data n)) (now w)) w)
       end)
    (fun w =>
       let fs := w_fs w in
       let dst' := copy2_target fs src dst in
       match copy2_open fs src dst, w_torn w c with
       | inr _, Some (mtime, data) =>
           set_fs (create fs dst'
                     (mk_node false mtime (owner_at fs dst' (w_uid w)) data)
                     (now w)) w
       | _, _ => w
       end).

(** [os.chown(p, uid, gid)] *)
Definition chown (p : Path) (uid gid : nat) : M unit :=
  syscall (Chown p uid gid)
    (fun w =>
       match lookup (w_fs w) p with
       | None => (Raise (no_entry p), w)
       | Some n =>
           (Return tt,
            set_fs (write (w_fs w) p
                      (mk_node (n_is_dir n) (n_mtime n) (uid, gid)
                         (n_data n))) w)
       end).

(** [shutil.rmtree(p)]: a removal that is refused may have removed part of
    what is below [p]; [p] itself is removed last and only by a call that
    succeeds. *)
Definition rmtree (p : Path) : M unit :=
  let c := Rmtree p in
  syscall_with c
    (fun w =>
       match lookup (w_fs w) p with
       | None => (Raise (no_entry p), w)
       | Some n =>
           if n_is_dir n then
             (Return tt, set_fs (unlink_tree (w_fs w) p (now w)) w)
           else (Raise (not_a_directory p), w)
       end)
    (fun w =>
       if is_dir (w_fs w) p then
         set_fs (prune (w_fs w) p (w_gone w c) (now w)) w
       else w).

(** [os.remove(p)] *)
Definition remove (p : Path) : M unit :=
  syscall (Remove p)
    (fun w =>
       match lookup (w_fs w) p with
       | None => (Raise (no_entry p), w)
       | Some n =>
           if n_is_dir n then (Raise (is_a_directory p), w)
           else (Return tt, set_fs (unlink (w_fs w) p (now w)) w)
       end).

(** [input(prompt)] *)
Definition input (prompt : string) : M string :=
  syscall (Input prompt)
    (fun w =>
       match w_stdin w with
       | [] => (Raise (mk_exn EOFError None "EOF when reading a line" []), w)
       | l :: rest => (Return l, set_stdin rest w)
       end).

(** [datetime.datetime.fromtimestamp(t)] in the zone of the process. *)
Definition localtime (t : Z) : M datetime :=
  fun w =>
    match fromtimestamp (w_utcoffset w) t with
    | inl e => (Raise e, w)
    | inr d => (Return d, w)
    end.

End OS.

(** ** Python dictionaries keyed by paths

    Insertion-ordered: assigning to a key that is present replaces its value
    where it stands, a new key goes to the end. *)

Definition dict := list (Path * string).

Fixpoint dict_set (d : dict) (k : Path) (v : string) : dict :=
  match d with
  | [] => [(k, v)]
  | (k', v') :: d' =>
      if path_eqb k' k then (k', v) :: d' else (k', v') :: dict_set d' k v
  end.

Definition dict_keys (d : dict) : list Path := map fst d.
Definition dict_values (d : dict) : list string := map snd d.
Definition dict_items (d : dict) : list (Path * string) := d.

(** ** The script *)

Definition newline : string := String (ascii_of_nat 10) EmptyString.

(** [find_pictures] *)
Definition find_pictures (source_dir_path : Path) : M (list Path) :=
  pictures_paths <- OS.glob source_dir_path "*.jpg" false ;;
  logging INFO (Str.of_nat (List.length pictures_paths) ++ " pictures found") ;;
  ret pictures_paths.

(** [extract_timestamp], local to [create_target_filenames] *)
Definition extract_timestamp (path : Path) : M string :=
  file_mtime <-
    try_except (st <- OS.stat path ;; ret (n_mtime st))
      is_AttributeError
      (fun e =>
         raise (add_note e ("Metadata of " ++ path_str path ++
                            " does not include required timestamp"))) ;;
  d <- OS.localtime file_mtime ;;
  ret (strftime d).

(** The test of the [while] loop of [create_target_filenames]. *)
Definition name_taken (new_names : dict) (target_dir_files : list string)
    (new_filename : string) : bool :=
  Str.mem new_filename (dict_values new_names) ||
  Str.mem new_filename target_dir_files.

(** [f"{timestamp}_{i}{extension}"] *)
Definition numbered (timestamp extension : string) (i : nat) : string :=
  (timestamp ++ "_" ++ Str.of_nat i ++ extension)%string.

(** The [while] loop of [create_target_filenames], entered with the current
    [i] and [new_filename]; [fuel] bounds the number of rounds, and [None]
    says that the loop is still running when the bound is reached. *)
Fixpoint while_taken (fuel : nat) (new_names : dict)
    (target_dir_files : list string) (timestamp extension : string)
    (i : nat) (new_filename : string) : option string :=
  if name_taken new_names target_dir_files new_filename then
    match fuel with
    | 0 => None
    | S fuel' =>
        let i := i + 1 in
        while_taken fuel' new_names target_dir_files timestamp extension i
          (numbered timestamp extension i)
    end
  else Some new_filename.

(** The rounds granted to the loop: one more than there are taken names. *)
Definition rounds (new_names : dict) (target_dir_files : list string) : nat :=
  S (List.length (dict_values new_names) + List.length target_dir_files).

(** The body of the [for] loop of [create_target_filenames]. *)
Definition assign_name (target_dir_files : list string) (new_names : dict)
    (filepath : Path) : M dict :=
  timestamp <- extract_timestamp filepath ;;
  let extension := suffix filepath in
  let new_filename := (timestamp ++ extension)%string in
  match while_taken (rounds new_names target_dir_files) new_names
          target_dir_files timestamp extension 0 new_filename with
  | Some new_filename => ret (dict_set new_names filepath new_filename)
  | None => diverge
  end.

(** [create_target_filenames] *)
Definition create_target_filenames (target_dir_path : Path)
    (pictures_paths : list Path) : M dict :=
  entries <- OS.iterdir target_dir_path ;;
  let target_dir_files := map name entries in
  for_fold pictures_paths [] (assign_name target_dir_files).

(** The body of the first [for] loop of [copy_files]. *)
Definition copy_one (target_dir_path : Path)
    (acc : list Path * list Path) (item : Path * string)
  : M (list Path * list Path) :=
  let '(success_paths, fail_paths) := acc in
  let '(filepath, new_name) := item in
  try_except
    (dst <- OS.copy2 filepath (joinpath target_dir_path new_name) ;;
     ret (success_paths ++ [dst], fail_paths))
    is_Exception
    (fun e =>
       logging ERROR (e_msg e) ;;
       ret (success_paths, fail_paths ++ [filepath])).

(** The ownership step of [copy_files]: one [try] around the whole loop. *)
Definition chown_all (success_paths : list Path) : M unit :=
  try_except
    (for_each success_paths (fun path => OS.chown path 1000 1000))
    is_Exception
    (fun e =>
       let e := add_note e
         "Could not set ownership to the target files, continuing anyway." in
       logging WARNING (e_msg e)).

(** The summary that [copy_files] logs after the copy pass. *)
Definition log_summary (target_filenames : dict)
    (success_paths fail_paths : list Path) : M unit :=
  logging INFO
    ("Successfully copied " ++ Str.of_nat (List.length success_paths) ++ "/" ++
     Str.of_nat (List.length target_filenames) ++ " files:") ;;
  for_each success_paths (fun path => logging INFO (path_str path)) ;;
  match fail_paths with
  | _ :: _ =>
      logging ERROR
        ("Failed to copy " ++ Str.of_nat (List.length fail_paths) ++ "/" ++
         Str.of_nat (List.length target_filenames) ++ " files:") ;;
      for_each fail_paths (fun path => logging ERROR (path_str path))
  | [] => ret tt
  end.

(** [copy_files] *)
Definition copy_files (target_filenames : dict) (target_dir_path : Path)
  : M (list Path * list Path) :=
  acc <- for_fold (dict_items target_filenames) ([], [])
           (copy_one target_dir_path) ;;
  let '(success_paths, fail_paths) := acc in
  log_summary target_filenames success_paths fail_paths ;;
  chown_all success_paths ;;
  ret (success_paths, fail_paths).

(** [wipe_disk] *)
Definition wipe_disk (disk_path : Path) : M unit :=
  logging WARNING
    ("Everything in " ++ path_str disk_path ++ " will be removed.") ;;
  logging WARNING "Directory contents:" ;;
  names <- OS.listdir disk_path ;;
  logging WARNING (String.concat newline names) ;;
  answer <- OS.input "Type 'yes' to continue: " ;;
  if String.eqb (Str.lower answer) "yes" then
    paths <- OS.glob disk_path "*" true ;;
    for_each paths
      (fun path =>
         d <- OS.path_is_dir path ;;
         (if d then OS.rmtree path else OS.remove path) ;;
         logging INFO (path_str path ++ " removed"))
  else
    logging INFO "Nothing has been removed".

(** The command line after [argparse] has split it. *)
Record args := mk_args {
  source : Path;
  target : Path;
  wipe : bool
}.

(** [correct_path], local to [parse_args] *)
Definition correct_path (path : Path) : M Path :=
  e <- OS.path_exists path ;;
  if negb e then
    raise (mk_exn FileNotFoundError None
             (path_str path ++ " does not exist") [])
  else
    d <- OS.path_is_dir path ;;
    if negb d then
      raise (mk_exn FileNotFoundError None
               (path_str path ++ " is not a directory") [])
    else ret path.

(** [parse_args]: the two positional arguments go through [correct_path]. *)
Definition parse_args (argv : args) : M args :=
  s <- correct_path (source argv) ;;
  t <- correct_path (target argv) ;;
  ret (mk_args s t (wipe argv)).

(** The body of [if __name__ == __main__]. *)
Definition main (argv : args) : M unit :=
  a <- parse_args argv ;;
  let source_dir_path := source a in
  let target_dir_path := target a in
  let wipe_flag := wipe a in
  (if wipe_flag then
     uid <- OS.getuid ;;
     if negb (uid =? 0)%nat then
       raise (mk_exn PermissionError None
                ("To wipe the floppy disk the script has to be run with root privileges. " ++
                 "Try running again with `sudo`.") [])
     else ret tt
   else ret tt) ;;
  pictures_paths <- find_pictures source_dir_path ;;
  target_filenames <- create_target_filenames target_dir_path pictures_paths ;;
  r <- copy_files target_filenames target_dir_path ;;
  let '(_, fail_paths) := r in
  if wipe_flag then
    match fail_paths with
    | _ :: _ =>
        logging WARNING "Aborting wiping the disk - some files were not copied"
    | [] => wipe_disk source_dir_path
    end
  else ret tt.

(** The script up to and including its call of [copy_files], with what that
    call returns. *)
Definition copy_phase (argv : args) : M (args * (list Path * list Path)) :=
  a <- parse_args argv ;;
  (if wipe a then
     uid <- OS.getuid ;;
     if negb (uid =? 0)%nat then
       raise (mk_exn PermissionError None
                ("To wipe the floppy disk the script has to be run with root privileges. " ++
                 "Try running again with `sudo`.") [])
     else ret tt
   else ret tt) ;;
  pictures_paths <- find_pictures (source a) ;;
  target_filenames <- create_target_filenames (target a) pictures_paths ;;
  r <- copy_files target_filenames (target a) ;;
  ret (a, r).

(** ** Notions used by the statements *)

(** The name the script gives to the [k]-th of several candidates that share
    a timestamp and an extension: the plain name first, then [_1], [_2], ... *)
Definition kth_name (timestamp extension : string) (k : nat) : string :=
  match k with
  | 0 => (timestamp ++ extension)%string
  | S _ => numbered timestamp extension k
  end.

(** The names an iteration of the Namer must avoid. *)
Definition taken_names (new_names : dict) (target_dir_files : list string)
  : list string :=
  dict_values new_names ++ target_dir_files.

(** The note [extract_timestamp] attaches. *)
Definition timestamp_note (path : Path) : string :=
  ("Metadata of " ++ path_str path ++ " does not include required timestamp")%string.

(** [path] can be stat'ed in [w] and its modification time reads [ts]. *)
Definition has_timestamp (w : world) (path : Path) (ts : string) : Prop :=
  w_fault w (Stat path) = None /\
  exists n d, OS.lookup (w_fs w) path = Some n /\
              fromtimestamp (w_utcoffset w) (n_mtime n) = inr d /\
              strftime d = ts.

(** Calls that delete an entry. *)
Definition is_deletion (c : call) : bool :=
  match c with
  | Rmtree _ | Remove _ => true
  | _ => false
  end.

(** Calls that only [wipe_disk] makes. *)
Definition is_wipe_call (c : call) : bool :=
  match c with
  | Rmtree _ | Remove _ | Input _ | Listdir _ => true
  | _ => false
  end.

(** The calls that [wipe_disk] makes, and the reading of the directory
    inside its [glob]. *)
Definition is_wipe_step (c : call) : bool :=
  match c with
  | Listdir _ | Input _ | Glob _ _ | Scandir _ | IsDir _ | Rmtree _
  | Remove _ => true
  | _ => false
  end.

(** The file system once the entry [c], whose node is [n], is removed by
    [wipe_disk] at time [t]. *)
Definition removed (fs : filesystem) (c : Path) (n : node) (t : Z)
  : filesystem :=
  if n_is_dir n then OS.unlink_tree fs c t else OS.unlink fs c t.

(** The paths that have an entry in the file system. *)
Definition fs_paths (fs : filesystem) : list Path := map fst fs.

(** Every run of [m] takes a world to one that is [R]-related to it. *)
Definition steps (R : world -> world -> Prop) {A} (m : M A) : Prop :=
  forall w, R w (snd (m w)).

(** [m] ends in every world: it returns or raises. *)
Definition terminates {A} (m : M A) : Prop :=
  forall w, fst (m w) <> Diverge.

(** From [w] to [w']: the calls made in between are none of those that only
    [wipe_disk] makes, the log has only grown, no path has lost its entry
    and no input was read. *)
Definition quiet (w w' : world) : Prop :=
  (exists cs, w_calls w' = w_calls w ++ cs /\
              forallb (fun c => negb (is_wipe_call c)) cs = true) /\
  (exists ls, w_log w' = w_log w ++ ls) /\
  incl (fs_paths (w_fs w)) (fs_paths (w_fs w')) /\
  w_stdin w' = w_stdin w.

(** [w] with the records [ls] added to its log. *)
Definition add_logs (ls : list (level * string)) (w : world) : world :=
  {| w_fs := w_fs w; w_uid := w_uid w; w_utcoffset := w_utcoffset w;
     w_clock := w_clock w; w_stdin := w_stdin w; w_fault := w_fault w;
     w_torn := w_torn w; w_gone := w_gone w; w_log := w_log w ++ ls;
     w_calls := w_calls w |}.

(** The records [log_summary] writes. *)
Definition summary_log (target_filenames : dict)
    (success_paths fail_paths : list Path) : list (level * string) :=
  [(INFO,
    ("Successfully copied " ++ Str.of_nat (List.length success_paths) ++ "/" ++
     Str.of_nat (List.length target_filenames) ++ " files:")%string)] ++
  map (fun path => (INFO, path_str path)) success_paths ++
  match fail_paths with
  | _ :: _ =>
      (ERROR,
       ("Failed to copy " ++ Str.of_nat (List.length fail_paths) ++ "/" ++
        Str.of_nat (List.length target_filenames) ++ " files:")%string) ::
      map (fun path => (ERROR, path_str path)) fail_paths
  | [] => []
  end.

(** The call by which [copy_files] sets the ownership of [path]. *)
Definition chown_call (path : Path) : call := Chown path 1000 1000.

(** How the copy pass fills its two lists from the items of the mapping:
    each item gives one element to one list, the path returned by the copy
    to the first or its candidate to the second. *)
Inductive split_outcomes (target_dir_path : Path)
  : list (Path * string) -> list Path -> list Path -> Prop :=
| split_done : split_outcomes target_dir_path [] [] []
| split_copied filepath new_name dst items success_paths fail_paths :
    dst = joinpath target_dir_path new_name \/
    dst = joinpath (joinpath target_dir_path new_name) (name filepath) ->
    split_outcomes target_dir_path items success_paths fail_paths ->
    split_outcomes target_dir_path ((filepath, new_name) :: items)
      (dst :: success_paths) fail_paths
| split_failed filepath new_name items success_paths fail_paths :
    split_outcomes target_dir_path items success_paths fail_paths ->
    split_outcomes target_dir_path ((filepath, new_name) :: items)
      success_paths (filepath :: fail_paths).

(** The mapping expected for candidates [ps] that share a timestamp and an
    extension, the first of them being the [k]-th of its kind. *)
Fixpoint numbered_from (timestamp extension : string) (k : nat)
    (ps : list Path) : dict :=
  match ps with
  | [] => []
  | p :: ps' =>
      (p, kth_name timestamp extension k) ::
      numbered_from timestamp extension (S k) ps'
  end.

(** [w'] has the file system, the refusals and the time zone of [w]. *)
Definition same_env (w w' : world) : Prop :=
  w_fs w' = w_fs w /\ w_fault w' = w_fault w /\
  w_utcoffset w' = w_utcoffset w.

(** ** A floppy and a picture directory to run the script on *)

Module Sample.

Definition floppy : Path := ["floppy"].
Definition pictures : Path := ["pictures"].

Definition foo : Path := joinpath floppy "FOO.JPG".
Definition bar : Path := joinpath floppy "bar.jpg".
Definition baz : Path := joinpath floppy "baz.jpg".

(** 2020-01-01 12:00:00 UTC *)
Definition noon : Z := 1577880000.

Definition directory : node := mk_node true 0 (0, 0) EmptyString.
Definition picture : node := mk_node false noon (0, 0) "JFIF".

(** Three pictures taken in the same second, and a text file. *)
Definition disk : filesystem :=
  [ (floppy, directory); (foo, picture); (bar, picture); (baz, picture);
    (joinpath floppy "notes.txt", mk_node false 0 (0, 0) "todo") ].

(** The picture directory is empty. *)
Definition fs_fresh : filesystem := (pictures, directory) :: disk.

(** The picture directory holds a picture of that second already. *)
Definition fs_used : filesystem :=
  (pictures, directory) ::
  (joinpath pictures "200101_120000.jpg", picture) :: disk.

(** The picture directory holds two pictures of that second already. *)
Definition fs_used_twice : filesystem :=
  (pictures, directory) ::
  (joinpath pictures "200101_120000.jpg", picture) ::
  (joinpath pictures "200101_120000_1.jpg", picture) :: disk.

(** The names the Namer gives the three pictures for an empty target. *)
Definition names : dict :=
  [ (foo, "200101_120000.JPG"); (bar, "200101_120000.jpg");
    (baz, "200101_120000_1.jpg") ].

Definition utc : Z -> Z := fun _ => 0%Z.
Definition no_fault : call -> option exn := fun _ => None.

(** The script is run as root, in UTC, with [stdin] to read from. *)
Definition world_of (fs : filesystem) (stdin : list string)
    (fault : call -> option exn) : world :=
  mk_world fs 0 utc stdin fault [] [].

Definition io_error : exn :=
  mk_exn OSError (Some 5) "[Errno 5] Input/output error" [].

(** A bad sector: the metadata of [bar.jpg] cannot be read. *)
Definition unreadable_stat (c : call) : option exn :=
  match c with
  | Stat p => if path_eqb p bar then Some io_error else None
  | _ => None
  end.

(** A bad sector: the data of [bar.jpg] cannot be read. *)
Definition unreadable_data (c : call) : option exn :=
  match c with
  | Copy2 src _ => if path_eqb src bar then Some io_error else None
  | _ => None
  end.

(** Ownership of the first copy cannot be changed. *)
Definition chown_refused (c : call) : option exn :=
  match c with
  | Chown p _ _ =>
      if path_eqb p (joinpath pictures "200101_120000.JPG") then
        Some (mk_exn PermissionError (Some 1)
                "[Errno 1] Operation not permitted" [])
      else None
  | _ => None
  end.

Definition album : Path := joinpath floppy "album".

(** A floppy that holds a directory with two pictures, and a text file. *)
Definition fs_album : filesystem :=
  [ (pictures, directory); (floppy, directory); (album, directory);
    (joinpath album "a.jpg", picture); (joinpath album "b.jpg", picture);
    (joinpath floppy "notes.txt", mk_node false 0 (0, 0) "todo") ].

Definition album_refused (c : call) : option exn :=
  match c with
  | Rmtree p => if path_eqb p album then Some io_error else None
  | _ => None
  end.

(** The removal of the album fails at its second picture: the first one is
    gone by then. The answer [yes] waits at the prompt. *)
Definition album_stuck : world :=
  make_world fs_album 0 utc Z.of_nat ["yes"] album_refused (fun _ => None)
    (fun c => match c with
              | Rmtree p =>
                  if path_eqb p album then [joinpath album "a.jpg"] else []
              | _ => []
              end) [] [].

End Sample.

(** The prompt of [wipe_disk]. *)
Definition wipe_prompt : string := "Type 'yes' to continue: ".

(** The records [wipe_disk] writes before it asks. *)
Definition wipe_warnings (disk_path : Path) (names : list string)
  : list (level * string) :=
  [ (WARNING,
     ("Everything in " ++ path_str disk_path ++ " will be removed.")%string);
    (WARNING, "Directory contents:");
    (WARNING, String.concat newline names) ].

(** [w] with the calls [cs] added to those made. *)
Definition add_calls (cs : list call) (w : world) : world :=
  {| w_fs := w_fs w; w_uid := w_uid w; w_utcoffset := w_utcoffset w;
     w_clock := w_clock w; w_stdin := w_stdin w; w_fault := w_fault w;
     w_torn := w_torn w; w_gone := w_gone w; w_log := w_log w;
     w_calls := w_calls w ++ cs |}.

(** The file systems [fs] and [fs'] hold the same entry, or none, at each of
    the paths [ps]. *)
Definition agree_on (ps : list Path) (fs fs' : filesystem) : Prop :=
  forall q, In q ps -> OS.lookup fs' q = OS.lookup fs q.

(** A decimal digit. *)
Definition is_digit (c : ascii) : bool :=
  let n := nat_of_ascii c in ((48 <=? n) && (n <=? 57))%nat.

(** The entries [a] and [b] are both missing, or differ at most in their
    modification time. *)
Definition same_but_mtime (a b : option node) : Prop :=
  match a, b with
  | Some x, Some y =>
      n_is_dir y = n_is_dir x /\ n_owner y = n_owner x /\
      n_data y = n_data x
  | None, None => True
  | _, _ => False
  end.

(** The file systems [fs] and [fs'] hold the same entry, or none, at each of
    the paths [ps], but that the directory [d] may have been modified in
    between. *)
Definition agree_but (d : Path) (ps : list Path) (fs fs' : filesystem)
  : Prop :=
  forall q, In q ps ->
    (q <> d -> OS.lookup fs' q = OS.lookup fs q) /\
    same_but_mtime (OS.lookup fs q) (OS.lookup fs' q).

(** The entry [b] is what is left of the entry [a]: it is gone, or differs
    from [a] at most in its modification time. *)
Definition left_of (a b : option node) : Prop :=
  b = None \/ same_but_mtime a b.

(** In [fs] no path outside [ps] is a directory. *)
Definition no_new_dir (ps : list Path) (fs : filesystem) : Prop :=
  forall q, ~ In q ps -> OS.is_dir fs q = false.

(** The tests that [correct_path] makes on [p] are not refused in [w]. *)
Definition accessible (w : world) (p : Path) : Prop :=
  w_fault w (Exists p) = None /\ w_fault w (IsDir p) = None.

(** The error [correct_path] raises for a path that does not exist, or is
    no directory when [exists] is [true]. *)
Definition bad_directory (p : Path) (exists_ : bool) : exn :=
  mk_exn FileNotFoundError None
    (path_str p ++ (if exists_ then " is not a directory"
                    else " does not exist")) [].

(** The calls by which [correct_path] tests a path. *)
Definition is_path_test (c : call) : bool :=
  match c with
  | Exists _ | IsDir _ => true
  | _ => false
  end.

(** The entry of [fs] at [dst] is a regular file with the data and the
    modification time that [fs0] has at [src]. *)
Definition copied_as (fs0 fs : filesystem) (src dst : Path) : Prop :=
  exists original copy,
    OS.lookup fs0 src = Some original /\
    OS.lookup fs dst = Some copy /\
    n_is_dir copy = false /\
    n_data copy = n_data original /\
    n_mtime copy = n_mtime original.

(** * Properties *)

(** ** Strings *)

Lemma append_inv_head (s a b : string) :
  (s ++ a)%string = (s ++ b)%string -> a = b.
Proof.
  induction s as [|c s IH]; simpl; intros H.
  - exact H.
  - injection H as H. auto.
Qed.

Lemma list_ascii_of_append (a b : string) :
  list_ascii_of_string (a ++ b)%string =
  list_ascii_of_string a ++ list_ascii_of_string b.
Proof.
  induction a as [|c a IH]; simpl; [reflexivity | now rewrite IH].
Qed.

Lemma list_ascii_inj (a b : string) :
  list_ascii_of_string a = list_ascii_of_string b -> a = b.
Proof.
  intros H.
  rewrite <- (string_of_list_ascii_of_string a),
          <- (string_of_list_ascii_of_string b).
  now rewrite H.
Qed.

Lemma append_inv_tail (a b s : string) :
  (a ++ s)%string = (b ++ s)%string -> a = b.
Proof.
  intros H. apply list_ascii_inj.
  apply (f_equal list_ascii_of_string) in H.
  rewrite !list_ascii_of_append in H.
  now apply app_inv_tail in H.
Qed.

Lemma append_length (a b : string) :
  String.length (a ++ b)%string = String.length a + String.length b.
Proof.
  induction a as [|c a IH]; simpl; [reflexivity | now rewrite IH].
Qed.

Lemma of_nat_inj (i j : nat) : Str.of_nat i = Str.of_nat j -> i = j.
Proof.
  unfold Str.of_nat. intros H.
  apply Unsigned.to_uint_inj.
  assert (E : Some (Nat.to_uint i) = Some (Nat.to_uint j)).
  { rewrite <- !NilEmpty.usu. now rewrite H. }
  now injection E.
Qed.

Lemma numbered_inj (ts ext : string) (i j : nat) :
  numbered ts ext i = numbered ts ext j -> i = j.
Proof.
  unfold numbered. intros H.
  apply append_inv_head in H. simpl in H. injection H as H.
  apply append_inv_tail in H. now apply of_nat_inj.
Qed.

Lemma numbered_not_plain (ts ext : string) (i : nat) :
  numbered ts ext i <> (ts ++ ext)%string.
Proof.
  unfold numbered. intros H. apply append_inv_head in H.
  apply (f_equal String.length) in H. simpl in H.
  rewrite append_length in H. lia.
Qed.

Lemma kth_name_inj (ts ext : string) (i j : nat) :
  kth_name ts ext i = kth_name ts ext j -> i = j.
Proof.
  destruct i, j; simpl; intros H; try reflexivity.
  - symmetry in H. now apply numbered_not_plain in H.
  - now apply numbered_not_plain in H.
  - now apply numbered_inj in H.
Qed.

Lemma mem_In (x : string) (xs : list string) :
  Str.mem x xs = true <-> In x xs.
Proof.
  unfold Str.mem. rewrite existsb_exists. split.
  - intros (y & Hy & E). apply String.eqb_eq in E. now subst.
  - intros H. exists x. split; [assumption | apply String.eqb_refl].
Qed.

Lemma name_taken_In (d : dict) (tdf : list string) (x : string) :
  name_taken d tdf x = true <-> In x (taken_names d tdf).
Proof.
  unfold name_taken, taken_names.
  rewrite orb_true_iff, !mem_In, in_app_iff. tauto.
Qed.

Lemma name_taken_not_In (d : dict) (tdf : list string) (x : string) :
  name_taken d tdf x = false <-> ~ In x (taken_names d tdf).
Proof.
  rewrite <- name_taken_In. destruct (name_taken d tdf x); split; intros H;
    try reflexivity; try discriminate; try (intros C; discriminate).
  now elim H.
Qed.

(** ** The [while] loop of the Namer *)

Section WhileTaken.

Variables (d : dict) (tdf : list string) (ts ext : string).

Let taken := name_taken d tdf.
Let loop fuel := while_taken fuel d tdf ts ext.

Lemma while_taken_eq (fuel i : nat) (nf : string) :
  loop fuel i nf =
  if taken nf then
    match fuel with
    | 0 => None
    | S fuel' => loop fuel' (i + 1) (numbered ts ext (i + 1))
    end
  else Some nf.
Proof. destruct fuel; reflexivity. Qed.

(** What the loop returns: the name it was entered with when that one is
    free, and otherwise the first free numbered name after round [i]. *)
Lemma while_taken_Some (fuel i : nat) (nf n : string) :
  loop fuel i nf = Some n ->
  (taken nf = false /\ n = nf) \/
  (taken nf = true /\
   exists k, i < k <= i + fuel /\ n = numbered ts ext k /\
             taken n = false /\
             forall j, i < j < k -> taken (numbered ts ext j) = true).
Proof.
  revert i nf. induction fuel as [|fuel IH]; intros i nf;
    rewrite while_taken_eq; destruct (taken nf) eqn:T; intros H;
    try discriminate; try (left; split; [reflexivity | congruence]).
  right. split; [reflexivity|].
  apply IH in H. destruct H as [[T1 ->] | [T1 (k & Hk & -> & Tk & Hj)]].
  - exists (i + 1). repeat split; try lia; try assumption.
  - exists k. repeat split; try lia; try assumption.
    intros j Hj'. destruct (Nat.eq_dec j (i + 1)) as [->|N];
      [assumption | apply Hj; lia].
Qed.

(** A loop that is still running has found every name so far taken. *)
Lemma while_taken_None (fuel i : nat) (nf : string) :
  loop fuel i nf = None ->
  taken nf = true /\
  forall j, i < j <= i + fuel -> taken (numbered ts ext j) = true.
Proof.
  revert i nf. induction fuel as [|fuel IH]; intros i nf;
    rewrite while_taken_eq; destruct (taken nf) eqn:T; intros H;
    try discriminate.
  - split; [reflexivity | intros j Hj; lia].
  - split; [reflexivity|]. apply IH in H. destruct H as [T1 Hj].
    intros j Hj'. destruct (Nat.eq_dec j (i + 1)) as [->|N];
      [assumption | apply Hj; lia].
Qed.

(** More rounds than needed change nothing. *)
Lemma while_taken_more (fuel k i : nat) (nf n : string) :
  loop fuel i nf = Some n -> loop (fuel + k) i nf = Some n.
Proof.
  revert i nf. induction fuel as [|fuel IH]; intros i nf;
    rewrite (while_taken_eq (_ + k)), while_taken_eq;
    destruct (taken nf) eqn:T; intros H; try discriminate;
    try assumption.
  simpl. now apply IH.
Qed.

(** Pigeonhole: the numbered names [_1 .. _(n+1)] cannot all be among [n]
    taken names. *)
Lemma numbered_not_all_taken :
  ~ (forall j, 0 < j <= rounds d tdf -> taken (numbered ts ext j) = true).
Proof.
  intros H.
  pose (l := map (numbered ts ext) (seq 1 (rounds d tdf))).
  assert (ND : NoDup l).
  { apply NoDup_map_NoDup_ForallPairs; [|apply seq_NoDup].
    intros x y _ _. apply numbered_inj. }
  assert (I : incl l (taken_names d tdf)).
  { intros x Hx. apply in_map_iff in Hx. destruct Hx as (j & <- & Hj).
    apply in_seq in Hj. apply name_taken_In. apply H. lia. }
  pose proof (NoDup_incl_length ND I) as L.
  unfold l in L. rewrite length_map, length_seq in L.
  unfold rounds, taken_names in L. rewrite length_app in L.
  unfold rounds in L. lia.
Qed.

Lemma kth_names_not_all_taken :
  ~ (forall j, j <= List.length (taken_names d tdf) ->
               In (kth_name ts ext j) (taken_names d tdf)).
Proof.
  intros H.
  pose (l := map (kth_name ts ext)
               (seq 0 (S (List.length (taken_names d tdf))))).
  assert (ND : NoDup l).
  { apply NoDup_map_NoDup_ForallPairs; [|apply seq_NoDup].
    intros x y _ _. apply kth_name_inj. }
  assert (I : incl l (taken_names d tdf)).
  { intros x Hx. apply in_map_iff in Hx. destruct Hx as (j & <- & Hj).
    apply in_seq in Hj. apply H. lia. }
  pose proof (NoDup_incl_length ND I) as L.
  unfold l in L. rewrite length_map, length_seq in L. lia.
Qed.

Lemma while_taken_rounds_enough :
  exists n, loop (rounds d tdf) 0 (ts ++ ext)%string = Some n.
Proof.
  destruct (loop (rounds d tdf) 0 (ts ++ ext)%string) as [n|] eqn:E.
  - now exists n.
  - apply while_taken_None in E. destruct E as [_ E].
    exfalso. apply numbered_not_all_taken. intros j Hj. apply E. lia.
Qed.

(** The name chosen for a candidate, in terms of [kth_name]. *)
Lemma while_taken_least (fuel : nat) (n : string) :
  loop fuel 0 (ts ++ ext)%string = Some n ->
  exists i, n = kth_name ts ext i /\ ~ In n (taken_names d tdf) /\
            forall j, j < i -> In (kth_name ts ext j) (taken_names d tdf).
Proof.
  intros H. apply while_taken_Some in H.
  destruct H as [[T ->] | [T (k & Hk & -> & Tk & Hj)]].
  - exists 0. split; [reflexivity|]. split.
    + now apply name_taken_not_In.
    + intros j Hj. lia.
  - exists k. destruct k as [|k]; [lia|]. split; [reflexivity|]. split.
    + now apply name_taken_not_In.
    + intros j Hlt. apply name_taken_In. destruct j as [|j]; simpl.
      * exact T.
      * apply Hj. lia.
Qed.

End WhileTaken.

(** ** Commands *)

Lemma bind_Return {A B} (m : M A) (k : A -> M B) w a w' :
  m w = (Return a, w') -> bind m k w = k a w'.
Proof. unfold bind. now intros ->. Qed.

Lemma bind_Raise {A B} (m : M A) (k : A -> M B) w e w' :
  m w = (Raise e, w') -> bind m k w = (Raise e, w').
Proof. unfold bind. now intros ->. Qed.

Lemma bind_Diverge {A B} (m : M A) (k : A -> M B) w w' :
  m w = (Diverge, w') -> bind m k w = (Diverge, w').
Proof. unfold bind. now intros ->. Qed.

Lemma bind_assoc {A B C} (m : M A) (f : A -> M B) (g : B -> M C) w :
  bind (bind m f) g w = bind m (fun a => bind (f a) g) w.
Proof. unfold bind. destruct (m w) as [[a|e|] w']; reflexivity. Qed.

Lemma bind_ext {A B} (m : M A) (k1 k2 : A -> M B) w :
  (forall a w', k1 a w' = k2 a w') -> bind m k1 w = bind m k2 w.
Proof.
  intros H. unfold bind. destruct (m w) as [[a|e|] w']; try reflexivity.
  apply H.
Qed.

Lemma for_fold_cons {A S} (x : A) (xs : list A) (s : S) (body : S -> A -> M S) :
  for_fold (x :: xs) s body = bind (body s x) (fun s' => for_fold xs s' body).
Proof. reflexivity. Qed.

Lemma for_each_cons {A} (x : A) (xs : list A) (body : A -> M unit) w :
  for_each (x :: xs) body w = bind (body x) (fun _ => for_each xs body) w.
Proof.
  unfold for_each. rewrite for_fold_cons. apply bind_ext.
  now intros [] w'.
Qed.

Lemma for_fold_app {A S} (xs ys : list A) (s : S) (body : S -> A -> M S) w :
  for_fold (xs ++ ys) s body w =
  bind (for_fold xs s body) (fun s' => for_fold ys s' body) w.
Proof.
  revert s w. induction xs as [|x xs IH]; intros s w; simpl.
  - reflexivity.
  - rewrite bind_assoc. apply bind_ext. intros s' w'. apply IH.
Qed.

Section Steps.

Variable R : world -> world -> Prop.
Hypothesis R_refl : forall w, R w w.
Hypothesis R_trans : forall a b c, R a b -> R b c -> R a c.

Lemma steps_ret {A} (a : A) : steps R (ret a).
Proof. intros w. apply R_refl. Qed.

Lemma steps_raise {A} (e : exn) : steps R (@raise A e).
Proof. intros w. apply R_refl. Qed.

Lemma steps_diverge {A} : steps R (@diverge A).
Proof. intros w. apply R_refl. Qed.

Lemma steps_bind {A B} (m : M A) (k : A -> M B) :
  steps R m -> (forall a, steps R (k a)) -> steps R (bind m k).
Proof.
  intros Hm Hk w. unfold bind. specialize (Hm w).
  destruct (m w) as [[a|e|] w']; simpl in *; try assumption.
  eapply R_trans; [exact Hm | apply Hk].
Qed.

Lemma steps_try_except {A} (m : M A) (c : exn -> bool) (h : exn -> M A) :
  steps R m -> (forall e, steps R (h e)) -> steps R (try_except m c h).
Proof.
  intros Hm Hh w. unfold try_except. specialize (Hm w).
  destruct (m w) as [[a|e|] w']; simpl in *; try assumption.
  destruct (c e); simpl; try assumption.
  eapply R_trans; [exact Hm | apply Hh].
Qed.

Lemma steps_for_fold {A S} (xs : list A) (s : S) (body : S -> A -> M S) :
  (forall s x, steps R (body s x)) -> steps R (for_fold xs s body).
Proof.
  intros Hb. revert s. induction xs as [|x xs IH]; intros s; simpl.
  - apply steps_ret.
  - apply steps_bind; [apply Hb | intros s'; apply IH].
Qed.

Lemma steps_for_each {A} (xs : list A) (body : A -> M unit) :
  (forall x, steps R (body x)) -> steps R (for_each xs body).
Proof. intros Hb. apply steps_for_fold. intros _ x. apply Hb. Qed.

End Steps.

Section Terminates.

Lemma terminates_ret {A} (a : A) : terminates (ret a).
Proof. intros w. discriminate. Qed.

Lemma terminates_raise {A} (e : exn) : terminates (@raise A e).
Proof. intros w. discriminate. Qed.

Lemma terminates_bind {A B} (m : M A) (k : A -> M B) :
  terminates m -> (forall a, terminates (k a)) -> terminates (bind m k).
Proof.
  intros Hm Hk w. unfold bind. specialize (Hm w).
  destruct (m w) as [[a|e|] w']; simpl in *;
    [apply Hk | discriminate | congruence].
Qed.

Lemma terminates_try_except {A} (m : M A) c (h : exn -> M A) :
  terminates m -> (forall e, terminates (h e)) ->
  terminates (try_except m c h).
Proof.
  intros Hm Hh w. unfold try_except. specialize (Hm w).
  destruct (m w) as [[a|e|] w']; simpl in *; try assumption.
  destruct (c e); [apply Hh | discriminate].
Qed.

Lemma terminates_for_fold {A S} (xs : list A) (s : S) (body : S -> A -> M S) :
  (forall s x, terminates (body s x)) -> terminates (for_fold xs s body).
Proof.
  intros Hb. revert s. induction xs as [|x xs IH]; intros s; simpl.
  - apply terminates_ret.
  - apply terminates_bind; [apply Hb | intros s'; apply IH].
Qed.

Lemma terminates_logging l msg : terminates (logging l msg).
Proof. intros w. discriminate. Qed.

Lemma terminates_syscall {A} (c : call) (sem : M A) :
  terminates sem -> terminates (OS.syscall c sem).
Proof.
  intros H w. unfold OS.syscall, OS.syscall_with.
  destruct (w_fault (add_call c w) c); [discriminate | apply H].
Qed.

Lemma terminates_stat p : terminates (OS.stat p).
Proof.
  apply terminates_syscall. intros w.
  destruct (OS.lookup (w_fs w) p); discriminate.
Qed.

Lemma terminates_list_directory c d : terminates (OS.list_directory c d).
Proof.
  apply terminates_syscall. intros w.
  destruct (OS.lookup (w_fs w) d) as [n|]; [destruct (n_is_dir n)|];
    discriminate.
Qed.

Lemma terminates_extract_timestamp p : terminates (extract_timestamp p).
Proof.
  unfold extract_timestamp.
  apply terminates_bind.
  - apply terminates_try_except.
    + apply terminates_bind; [apply terminates_stat|].
      intros a. apply terminates_ret.
    + intros e. apply terminates_raise.
  - intros t. apply terminates_bind.
    + intros w. unfold OS.localtime.
      destruct (fromtimestamp (w_utcoffset w) t); discriminate.
    + intros dt. apply terminates_ret.
Qed.

Lemma terminates_assign_name tdf d p : terminates (assign_name tdf d p).
Proof.
  unfold assign_name.
  apply terminates_bind; [apply terminates_extract_timestamp|].
  intros ts.
  destruct (while_taken_rounds_enough d tdf ts (suffix p)) as [n ->].
  apply terminates_ret.
Qed.

Lemma terminates_create_target_filenames tgt ps :
  terminates (create_target_filenames tgt ps).
Proof.
  unfold create_target_filenames.
  apply terminates_bind; [apply terminates_list_directory|].
  intros entries. apply terminates_for_fold.
  intros d p. apply terminates_assign_name.
Qed.

End Terminates.

(** C9. The suffix search of the Namer ends for every candidate: among the
    plain name and the numbered names up to the number of taken names, one
    is free, the loop returns the first such name whatever bound of at least
    [rounds] it is run with, and [create_target_filenames] returns or raises
    in every world. *)
Theorem namer_suffix_search_terminates :
  (forall (new_names : dict) (target_dir_files : list string)
          (timestamp extension : string),
     exists i n,
       i <= List.length (taken_names new_names target_dir_files) /\
       n = kth_name timestamp extension i /\
       ~ In n (taken_names new_names target_dir_files) /\
       forall extra,
         while_taken (rounds new_names target_dir_files + extra) new_names
           target_dir_files timestamp extension 0
           (timestamp ++ extension)%string = Some n) /\
  (forall target_dir_path pictures_paths w,
     fst (create_target_filenames target_dir_path pictures_paths w)
     <> Diverge).
Proof.
  split.
  - intros d tdf ts ext.
    destruct (while_taken_rounds_enough d tdf ts ext) as [n E].
    pose proof (while_taken_least _ _ _ _ _ _ E) as (i & Hn & Hfree & Hless).
    exists i, n. repeat split; try assumption.
    + destruct (le_lt_dec i (List.length (taken_names d tdf))) as [L|L];
        [assumption | exfalso].
      apply (kth_names_not_all_taken d tdf ts ext).
      intros j Hj. apply Hless. lia.
    + intros extra. now apply while_taken_more.
  - intros tgt ps w. apply terminates_create_target_filenames.
Qed.

(** ** Dictionaries *)

Lemma path_eqb_eq (p q : Path) : path_eqb p q = true <-> p = q.
Proof.
  unfold path_eqb. destruct (list_eq_dec string_dec p q); split; intros H;
    try assumption; try reflexivity; try discriminate. contradiction.
Qed.

Lemma path_eqb_refl (p : Path) : path_eqb p p = true.
Proof. now apply path_eqb_eq. Qed.

Lemma path_eqb_neq (p q : Path) : path_eqb p q = false <-> p <> q.
Proof.
  rewrite <- path_eqb_eq. destruct (path_eqb p q); split; intros H;
    try reflexivity; try discriminate; try (intros C; discriminate).
  now elim H.
Qed.

Lemma dict_set_fresh (d : dict) (k : Path) (v : string) :
  ~ In k (dict_keys d) -> dict_set d k v = d ++ [(k, v)].
Proof.
  induction d as [|[k' v'] d IH]; simpl; intros H.
  - reflexivity.
  - destruct (path_eqb k' k) eqn:E.
    + apply path_eqb_eq in E. subst. tauto.
    + rewrite IH; [reflexivity | tauto].
Qed.

Lemma dict_set_In (d : dict) (k : Path) (v : string) (q : Path) (m : string) :
  In (q, m) (dict_set d k v) -> (q = k /\ m = v) \/ In (q, m) d.
Proof.
  induction d as [|[k' v'] d IH]; simpl.
  - intros [E|[]]. injection E as <- <-. now left.
  - destruct (path_eqb k' k) eqn:E.
    + apply path_eqb_eq in E. subst k'. intros [H|H].
      * injection H as <- <-. now left.
      * right. now right.
    + intros [H|H].
      * right. now left.
      * apply IH in H. tauto.
Qed.

Lemma dict_set_values_incl (d : dict) (k : Path) (v x : string) :
  In x (dict_values (dict_set d k v)) -> x = v \/ In x (dict_values d).
Proof.
  unfold dict_values. intros H. apply in_map_iff in H.
  destruct H as ([q m] & <- & H). apply dict_set_In in H.
  destruct H as [[_ ->]|H]; [now left | right].
  apply in_map_iff. now exists (q, m).
Qed.

Lemma dict_set_values_NoDup (d : dict) (k : Path) (v : string) :
  NoDup (dict_values d) -> ~ In v (dict_values d) ->
  NoDup (dict_values (dict_set d k v)).
Proof.
  induction d as [|[k' v'] d IH]; simpl; intros ND NI.
  - constructor; [tauto | constructor].
  - inversion ND as [|? ? Hv' ND']; subst.
    destruct (path_eqb k' k); simpl.
    + constructor; [tauto | assumption].
    + constructor.
      * intros C. apply dict_set_values_incl in C. destruct C as [->|C]; tauto.
      * apply IH; [assumption | tauto].
Qed.

Lemma dict_set_keys_NoDup (d : dict) (k : Path) (v : string) :
  NoDup (dict_keys d) -> NoDup (dict_keys (dict_set d k v)).
Proof.
  induction d as [|[k' v'] d IH]; simpl; intros ND.
  - constructor; [tauto | constructor].
  - inversion ND as [|? ? Hk' ND']; subst.
    destruct (path_eqb k' k) eqn:E; simpl.
    + constructor; assumption.
    + constructor; [|now apply IH].
      intros C. unfold dict_keys in C. apply in_map_iff in C.
      destruct C as ([q m] & Hq & C). simpl in Hq. subst q.
      apply dict_set_In in C. destruct C as [[-> _]|C].
      * now rewrite path_eqb_refl in E.
      * apply Hk'. apply in_map_iff. now exists (k', m).
Qed.

Lemma numbered_from_keys ts ext k ps :
  dict_keys (numbered_from ts ext k ps) = ps.
Proof.
  revert k. induction ps as [|p ps IH]; intros k; simpl;
    [reflexivity | now rewrite IH].
Qed.

Lemma numbered_from_values ts ext k ps :
  dict_values (numbered_from ts ext k ps) =
  map (kth_name ts ext) (seq k (List.length ps)).
Proof.
  revert k. induction ps as [|p ps IH]; intros k; simpl;
    [reflexivity | now rewrite IH].
Qed.

Lemma numbered_from_snoc ts ext k ps p :
  numbered_from ts ext k (ps ++ [p]) =
  numbered_from ts ext k ps ++ [(p, kth_name ts ext (k + List.length ps))].
Proof.
  revert k. induction ps as [|q ps IH]; intros k; simpl.
  - now rewrite Nat.add_0_r.
  - rewrite IH. simpl. now rewrite Nat.add_succ_r.
Qed.

Lemma numbered_from_nth ts ext k0 ps k p :
  nth_error ps k = Some p ->
  nth_error (numbered_from ts ext k0 ps) k
  = Some (p, kth_name ts ext (k0 + k)).
Proof.
  revert k0 k. induction ps as [|q ps IH]; intros k0 k.
  - destruct k; discriminate.
  - destruct k as [|k]; simpl.
    + intros [= ->]. now rewrite Nat.add_0_r.
    + intros H. rewrite (IH (S k0) k H). do 3 f_equal. lia.
Qed.

(** ** The Namer *)

Lemma for_fold_invariant {A S} (I : S -> Prop) (body : S -> A -> M S) :
  (forall s x w s' w', I s -> body s x w = (Return s', w') -> I s') ->
  forall xs s w s' w',
    I s -> for_fold xs s body w = (Return s', w') -> I s'.
Proof.
  intros Hb xs. induction xs as [|x xs IH]; intros s w s' w' Hs; simpl.
  - unfold ret. intros E. injection E as <- _. exact Hs.
  - unfold bind. destruct (body s x w) as [[s1|e|] w1] eqn:E1;
      try discriminate.
    intros E. eapply IH; [|exact E]. eapply Hb; eassumption.
Qed.

Lemma stat_world p w r w' : OS.stat p w = (r, w') -> w' = add_call (Stat p) w.
Proof.
  unfold OS.stat, OS.syscall, OS.syscall_with.
  destruct (w_fault (add_call (Stat p) w) (Stat p)).
  - now intros [= _ <-].
  - destruct (OS.lookup (w_fs (add_call (Stat p) w)) p); now intros [= _ <-].
Qed.

Lemma list_directory_world c d w r w' :
  OS.list_directory c d w = (r, w') -> w' = add_call c w.
Proof.
  unfold OS.list_directory, OS.syscall, OS.syscall_with.
  destruct (w_fault (add_call c w) c).
  - now intros [= _ <-].
  - destruct (OS.lookup (w_fs (add_call c w)) d) as [n|];
      [destruct (n_is_dir n)|]; now intros [= _ <-].
Qed.

Lemma same_env_refl w : same_env w w.
Proof. repeat split. Qed.

Lemma same_env_trans a b c : same_env a b -> same_env b c -> same_env a c.
Proof. unfold same_env. intros (?&?&?) (?&?&?). repeat split; congruence. Qed.

Lemma same_env_add_call c w : same_env w (add_call c w).
Proof. repeat split. Qed.

Lemma same_env_sym a b : same_env a b -> same_env b a.
Proof. unfold same_env. intros (?&?&?). repeat split; congruence. Qed.

Lemma has_timestamp_same_env w w' p ts :
  same_env w w' -> has_timestamp w p ts -> has_timestamp w' p ts.
Proof.
  unfold same_env, has_timestamp. intros (F & X & U) (H & n & d & L & T & S).
  rewrite F, X, U. split; [assumption | now exists n, d].
Qed.

Lemma add_calls_add_calls c1 c2 w :
  add_calls c2 (add_calls c1 w) = add_calls (c1 ++ c2) w.
Proof. unfold add_calls. simpl. now rewrite app_assoc. Qed.

Lemma add_calls_nil w : add_calls [] w = w.
Proof. destruct w. unfold add_calls. simpl. now rewrite app_nil_r. Qed.

Lemma localtime_eq t w :
  OS.localtime t w =
  (match fromtimestamp (w_utcoffset w) t with
   | inl e => Raise e
   | inr d => Return d
   end, w).
Proof.
  unfold OS.localtime. now destruct (fromtimestamp (w_utcoffset w) t).
Qed.

Lemma extract_timestamp_Return p w n w' d :
  OS.stat p w = (Return n, w') ->
  fromtimestamp (w_utcoffset w') (n_mtime n) = inr d ->
  extract_timestamp p w = (Return (strftime d), w').
Proof.
  intros H T. unfold extract_timestamp, bind, try_except, ret.
  now rewrite H, localtime_eq, T.
Qed.

(** A modification time that [datetime] cannot hold stops the Namer with
    the error of [fromtimestamp], which is no [AttributeError]: no note. *)
Lemma extract_timestamp_range p w n w' e :
  OS.stat p w = (Return n, w') ->
  fromtimestamp (w_utcoffset w') (n_mtime n) = inl e ->
  extract_timestamp p w = (Raise e, w').
Proof.
  intros H T. unfold extract_timestamp, bind, try_except, ret.
  now rewrite H, localtime_eq, T.
Qed.

Lemma extract_timestamp_Raise p w e w' :
  OS.stat p w = (Raise e, w') ->
  extract_timestamp p w =
  (Raise (if is_AttributeError e then add_note e (timestamp_note p) else e),
   w').
Proof.
  intros H. unfold extract_timestamp, bind, try_except, raise.
  rewrite H. unfold timestamp_note. now destruct (is_AttributeError e).
Qed.

Lemma extract_timestamp_has p w ts :
  has_timestamp w p ts ->
  extract_timestamp p w = (Return ts, add_call (Stat p) w).
Proof.
  intros (F & n & d & L & T & S).
  assert (E : OS.stat p w = (Return n, add_call (Stat p) w)).
  { unfold OS.stat, OS.syscall, OS.syscall_with. simpl. now rewrite F, L. }
  rewrite (extract_timestamp_Return _ _ _ _ d E); [now rewrite S | exact T].
Qed.

Lemma extract_timestamp_world p w r w' :
  extract_timestamp p w = (r, w') -> w' = add_call (Stat p) w.
Proof.
  unfold extract_timestamp, bind, try_except, ret, raise.
  destruct (OS.stat p w) as [[n|e|] w1] eqn:E;
    apply stat_world in E; subst w1.
  - rewrite localtime_eq.
    destruct (fromtimestamp _ _); now intros [= _ <-].
  - destruct (is_AttributeError e); now intros [= _ <-].
  - now intros [= _ <-].
Qed.

Lemma extract_timestamp_inv p w ts w' :
  extract_timestamp p w = (Return ts, w') -> has_timestamp w p ts.
Proof.
  unfold extract_timestamp, bind, try_except, ret, raise,
    OS.stat, OS.syscall, OS.syscall_with, has_timestamp. simpl.
  destruct (w_fault w (Stat p)) as [e|].
  - destruct (is_AttributeError e); discriminate.
  - destruct (OS.lookup (w_fs w) p) as [n|]; simpl.
    + rewrite localtime_eq. simpl.
      destruct (fromtimestamp (w_utcoffset w) (n_mtime n)) as [e|d] eqn:T;
        [discriminate|].
      intros [= <- _]. split; [reflexivity|]. now exists n, d.
    + destruct (is_AttributeError (OS.no_entry p)); discriminate.
Qed.

Lemma assign_name_world tdf d p w r w' :
  assign_name tdf d p w = (r, w') -> w' = add_call (Stat p) w.
Proof.
  unfold assign_name, bind.
  destruct (extract_timestamp p w) as [[ts|e|] w1] eqn:E;
    apply extract_timestamp_world in E; subst w1.
  - destruct (while_taken _ _ _ _ _ _ _); now intros [= _ <-].
  - now intros [= _ <-].
  - now intros [= _ <-].
Qed.

(** The loop of the Namer leaves the file system, the refusals and the time
    zone as they are. *)
Lemma namer_loop_same_env tdf ps :
  forall d w r w',
    for_fold ps d (assign_name tdf) w = (r, w') -> same_env w w'.
Proof.
  induction ps as [|p ps IH]; intros d w r w'.
  - simpl. unfold ret. intros [= _ <-]. apply same_env_refl.
  - rewrite for_fold_cons. unfold bind.
    destruct (assign_name tdf d p w) as [[d1|e|] w1] eqn:E;
      apply assign_name_world in E; subst w1.
    + intros H. apply IH in H.
      eapply same_env_trans; [apply same_env_add_call | exact H].
    + intros [= _ <-]. apply same_env_add_call.
    + intros [= _ <-]. apply same_env_add_call.
Qed.

Lemma assign_name_Return tdf d p w ts w1 :
  extract_timestamp p w = (Return ts, w1) ->
  exists n,
    while_taken (rounds d tdf) d tdf ts (suffix p) 0 (ts ++ suffix p)%string
      = Some n /\
    assign_name tdf d p w = (Return (dict_set d p n), w1).
Proof.
  intros E. destruct (while_taken_rounds_enough d tdf ts (suffix p)) as [n W].
  exists n. split; [exact W|].
  unfold assign_name. rewrite (bind_Return _ _ _ _ _ E). now rewrite W.
Qed.

Lemma assign_name_inv tdf d p w d' w' :
  assign_name tdf d p w = (Return d', w') ->
  exists ts n,
    extract_timestamp p w = (Return ts, w') /\
    while_taken (rounds d tdf) d tdf ts (suffix p) 0 (ts ++ suffix p)%string
      = Some n /\
    d' = dict_set d p n.
Proof.
  unfold assign_name, bind.
  destruct (extract_timestamp p w) as [[ts|e|] w1]; try discriminate.
  destruct (while_taken _ _ _ _ _ _ _) as [n|] eqn:W; try discriminate.
  unfold ret. intros [= <- <-]. now exists ts, n.
Qed.

Lemma create_target_filenames_eq tgt ps w entries w0 :
  OS.iterdir tgt w = (Return entries, w0) ->
  create_target_filenames tgt ps w =
  for_fold ps [] (assign_name (map name entries)) w0.
Proof.
  intros H. unfold create_target_filenames. now rewrite (bind_Return _ _ _ _ _ H).
Qed.

Lemma create_target_filenames_inv tgt ps w d w' :
  create_target_filenames tgt ps w = (Return d, w') ->
  exists entries w0,
    OS.iterdir tgt w = (Return entries, w0) /\
    for_fold ps [] (assign_name (map name entries)) w0 = (Return d, w').
Proof.
  unfold create_target_filenames, bind.
  destruct (OS.iterdir tgt w) as [[entries|e|] w0]; try discriminate.
  intros H. now exists entries, w0.
Qed.

(** C2, as stated, fails in its example: with [200101_120000.jpg] in the
    target directory a candidate of that second and extension does not get
    [200101_120000_1.jpg] when that name is in the directory too. *)
Lemma namer_example_needs_a_free_number :
  In (joinpath Sample.pictures "200101_120000.jpg")
    (fs_paths Sample.fs_used_twice) /\
  has_timestamp (Sample.world_of Sample.fs_used_twice [] Sample.no_fault)
    Sample.bar "200101_120000" /\
  suffix Sample.bar = ".jpg" /\
  exists w',
    create_target_filenames Sample.pictures [Sample.bar]
      (Sample.world_of Sample.fs_used_twice [] Sample.no_fault)
    = (Return [(Sample.bar, "200101_120000_2.jpg")], w') /\
    "200101_120000_2.jpg" <> "200101_120000_1.jpg".
Proof.
  split; [simpl; tauto|]. split.
  { split; [reflexivity|]. do 2 eexists. split; [reflexivity|].
    split; [vm_compute; reflexivity | reflexivity]. }
  split; [reflexivity|]. eexists.
  split; [vm_compute; reflexivity | discriminate].
Qed.

(** C2, amended. When the run reaches a candidate whose modification time
    [stat] reports and [datetime] can hold, with the mapping [new_names]
    built from the candidates before it, the candidate is given the name
    made of that time, formatted [%y%m%d_%H%M%S] in local time, and its
    extension, if this name is neither in the target directory nor among
    the values of [new_names], and otherwise the numbered name with the
    least positive number that is in neither; with [200101_120000.jpg] in
    the target directory and [200101_120000_1.jpg] free, a candidate of that
    second and extension gets [200101_120000_1.jpg]. *)
Theorem namer_assigns_first_free_name :
  forall target_dir_path before filepath after w entries w0 new_names w1
         st d,
    OS.iterdir target_dir_path w = (Return entries, w0) ->
    for_fold before [] (assign_name (map name entries)) w0
      = (Return new_names, w1) ->
    w_fault w (Stat filepath) = None ->
    OS.lookup (w_fs w) filepath = Some st ->
    fromtimestamp (w_utcoffset w) (n_mtime st) = inr d ->
    let target_dir_files := map name entries in
    let timestamp := strftime d in
    let extension := suffix filepath in
    let plain := (timestamp ++ extension)%string in
    let taken := taken_names new_names target_dir_files in
    exists new_filename,
      create_target_filenames target_dir_path (before ++ filepath :: after) w
        = for_fold after (dict_set new_names filepath new_filename)
            (assign_name target_dir_files) (add_call (Stat filepath) w1) /\
      ~ In new_filename taken /\
      (~ In plain taken -> new_filename = plain) /\
      (In plain taken ->
       exists i, 1 <= i /\ new_filename = numbered timestamp extension i /\
                 forall j, 1 <= j < i ->
                           In (numbered timestamp extension j) taken) /\
      (timestamp = "200101_120000" -> extension = ".jpg" ->
       In "200101_120000.jpg" target_dir_files ->
       ~ In "200101_120000_1.jpg" taken ->
       new_filename = "200101_120000_1.jpg").
Proof.
  intros tgt before p after w entries w0 d w1 st dt H0 H1 Hf Hl Ht
         tdf ts ext plain taken.
  assert (H2 : extract_timestamp p w1 = (Return ts, add_call (Stat p) w1)).
  { apply extract_timestamp_has.
    apply (has_timestamp_same_env w).
    - pose proof (list_directory_world _ _ _ _ _ H0) as E0.
      eapply same_env_trans;
        [|exact (namer_loop_same_env _ _ _ _ _ _ H1)].
      rewrite E0. apply same_env_add_call.
    - split; [exact Hf|]. now exists st, dt. }
  destruct (assign_name_Return tdf d p w1 ts _ H2) as (n & W & A).
  exists n.
  assert (Run : create_target_filenames tgt (before ++ p :: after) w
                = for_fold after (dict_set d p n) (assign_name tdf)
                    (add_call (Stat p) w1)).
  { rewrite (create_target_filenames_eq _ _ _ _ _ H0).
    rewrite for_fold_app. rewrite (bind_Return _ _ _ _ _ H1).
    simpl. now rewrite (bind_Return _ _ _ _ _ A). }
  apply while_taken_Some in W.
  assert (Free : ~ In n taken).
  { apply name_taken_not_In.
    destruct W as [[T ->]|[_ (k & _ & _ & T & _)]]; assumption. }
  assert (Numbered : In plain taken ->
            exists i, 1 <= i /\ n = numbered ts ext i /\
              forall j, 1 <= j < i -> In (numbered ts ext j) taken).
  { intros P. apply name_taken_In in P.
    destruct W as [[T _]|[_ (k & Hk & -> & _ & Hj)]].
    - fold ext plain in T. congruence.
    - exists k. repeat split; try lia.
      intros j Hj'. apply name_taken_In. apply Hj. lia. }
  repeat split; try assumption.
  - intros P. destruct W as [[_ ->]|[T _]]; [reflexivity|].
    apply name_taken_In in T. contradiction.
  - intros Ets Eext Hin Hfree.
    assert (P : In plain taken).
    { unfold plain, taken, taken_names. rewrite Ets, Eext.
      apply in_app_iff. now right. }
    destruct (Numbered P) as (i & Hi & -> & Hj).
    destruct (Nat.eq_dec i 1) as [->|N].
    + now rewrite Ets, Eext.
    + exfalso. apply Hfree. specialize (Hj 1).
      rewrite Ets, Eext in Hj. apply Hj. lia.
Qed.

Lemma namer_assigns_first_free_name_witness :
  exists w',
    create_target_filenames Sample.pictures [Sample.bar]
      (Sample.world_of Sample.fs_used [] Sample.no_fault)
    = (Return [(Sample.bar, "200101_120000_1.jpg")], w').
Proof.
  edestruct (namer_assigns_first_free_name Sample.pictures [] Sample.bar []
               (Sample.world_of Sample.fs_used [] Sample.no_fault))
    as (n & Run & _ & _ & _ & Ex).
  - reflexivity.
  - reflexivity.
  - reflexivity.
  - reflexivity.
  - vm_compute. reflexivity.
  - simpl in Run. rewrite Run.
    rewrite (Ex eq_refl eq_refl).
    + eexists. reflexivity.
    + simpl. now left.
    + simpl. intros [H|[]]. discriminate.
Defined.

(** The names in a mapping the Namer returns are pairwise distinct and avoid
    the target directory, whatever the candidates. *)
Lemma namer_loop_invariant tdf ps d w d' w' :
  NoDup (dict_keys d) -> NoDup (dict_values d) ->
  for_fold ps d (assign_name tdf) w = (Return d', w') ->
  NoDup (dict_keys d') /\ NoDup (dict_values d').
Proof.
  intros K V H.
  apply (for_fold_invariant
           (fun d => NoDup (dict_keys d) /\ NoDup (dict_values d))
           (assign_name tdf)) with (xs := ps) (s := d) (w := w) (w' := w');
    [|split; assumption|exact H].
  clear. intros d p w d' w' [K V] A.
  apply assign_name_inv in A. destruct A as (ts & n & _ & W & ->).
  apply while_taken_least in W. destruct W as (i & _ & Free & _).
  split.
  - now apply dict_set_keys_NoDup.
  - apply dict_set_values_NoDup; [assumption|].
    intros C. apply Free. unfold taken_names. apply in_app_iff. now left.
Qed.

(** Candidates of one second and one extension, met with [k] of the names of
    that second assigned and none in the target directory, are numbered on
    from [k] in the order they come. *)
Lemma namer_loop_same_second tdf ts ext rest :
  forall done w,
    NoDup (done ++ rest) ->
    (forall p, In p rest -> has_timestamp w p ts /\ suffix p = ext) ->
    (forall k, k < List.length (done ++ rest) ->
               ~ In (kth_name ts ext k) tdf) ->
    exists w',
      for_fold rest (numbered_from ts ext 0 done) (assign_name tdf) w
        = (Return (numbered_from ts ext 0 (done ++ rest)), w') /\
      same_env w w'.
Proof.
  induction rest as [|p rest IH]; intros done w ND Hts Hfree.
  - exists w. rewrite app_nil_r. split; [reflexivity | apply same_env_refl].
  - destruct (Hts p (or_introl eq_refl)) as [Tp Sp].
    pose (d := numbered_from ts ext 0 done).
    destruct (assign_name_Return tdf d p w ts _ (extract_timestamp_has _ _ _ Tp))
      as (n & W & A).
    rewrite Sp in W.
    apply while_taken_least in W. destruct W as (i & Hn & Hfree_n & Hless).
    assert (Vals : dict_values d =
                   map (kth_name ts ext) (seq 0 (List.length done))).
    { apply numbered_from_values. }
    assert (Here : ~ In (kth_name ts ext (List.length done))
                        (taken_names d tdf)).
    { unfold taken_names. rewrite in_app_iff, Vals. intros [C|C].
      - apply in_map_iff in C. destruct C as (j & E & Hj).
        apply kth_name_inj in E. apply in_seq in Hj. lia.
      - revert C. apply Hfree. rewrite length_app. simpl. lia. }
    assert (Ei : i = List.length done).
    { destruct (lt_eq_lt_dec i (List.length done)) as [[L|E]|G];
        [exfalso | exact E | exfalso].
      - apply Hfree_n. unfold taken_names. rewrite in_app_iff, Vals. left.
        rewrite Hn. apply in_map. apply in_seq. lia.
      - apply Here. now apply Hless. }
    subst i.
    assert (Set_ : dict_set d p n = numbered_from ts ext 0 (done ++ [p])).
    { rewrite dict_set_fresh.
      - rewrite numbered_from_snoc, Hn. reflexivity.
      - unfold d. rewrite numbered_from_keys.
        apply NoDup_remove_2 in ND. intros C. apply ND.
        apply in_app_iff. now left. }
    destruct (IH (done ++ [p]) (add_call (Stat p) w)) as (w' & Run & Env).
    + now rewrite <- app_assoc.
    + intros q Hq. destruct (Hts q (or_intror Hq)) as [Tq Sq]. split.
      * eapply has_timestamp_same_env; [apply same_env_add_call | exact Tq].
      * exact Sq.
    + now rewrite <- app_assoc.
    + exists w'. split.
      * simpl. rewrite (bind_Return _ _ _ _ _ A). rewrite Set_.
        rewrite Run. now rewrite <- app_assoc.
      * eapply same_env_trans; [apply same_env_add_call | exact Env].
Qed.

(** C3. Distinct candidates that share a modification second and an
    extension, none of whose names of that second is in the target directory,
    get the plain name, then [_1], [_2], ... in the order of the list: the
    [k]-th candidate gets the [k]-th name; the names of the mapping are
    pairwise distinct and no name is given to two candidates. *)
Theorem namer_numbers_same_second_in_order :
  forall target_dir_path pictures_paths w entries w0 timestamp extension,
    OS.iterdir target_dir_path w = (Return entries, w0) ->
    NoDup pictures_paths ->
    (forall p, In p pictures_paths ->
               has_timestamp w p timestamp /\ suffix p = extension) ->
    (forall k, k < List.length pictures_paths ->
               ~ In (kth_name timestamp extension k) (map name entries)) ->
    exists new_names w',
      create_target_filenames target_dir_path pictures_paths w
        = (Return new_names, w') /\
      new_names = numbered_from timestamp extension 0 pictures_paths /\
      (forall k p, nth_error pictures_paths k = Some p ->
                   nth_error new_names k
                   = Some (p, kth_name timestamp extension k)) /\
      NoDup (dict_values new_names) /\
      (forall p q n, In (p, n) new_names -> In (q, n) new_names -> p = q).
Proof.
  intros tgt ps w entries w0 ts ext H0 ND Hts Hfree.
  pose proof (list_directory_world _ _ _ _ _ H0) as Ew0.
  destruct (namer_loop_same_second (map name entries) ts ext ps [] w0)
    as (w' & Run & _).
  - exact ND.
  - intros p Hp. destruct (Hts p Hp) as [T S]. split; [|exact S].
    subst w0. eapply has_timestamp_same_env; [apply same_env_add_call|exact T].
  - exact Hfree.
  - simpl in Run.
    exists (numbered_from ts ext 0 ps), w'.
    assert (V : NoDup (dict_values (numbered_from ts ext 0 ps))).
    { rewrite numbered_from_values.
      apply NoDup_map_NoDup_ForallPairs; [|apply seq_NoDup].
      intros x y _ _. apply kth_name_inj. }
    split; [|split; [reflexivity|split; [|split; [exact V|]]]].
    + now rewrite (create_target_filenames_eq _ _ _ _ _ H0).
    + intros k p Hk. exact (numbered_from_nth ts ext 0 ps k p Hk).
    + intros p q n Hp Hq.
      destruct (In_nth_error _ _ Hp) as (i & Hi).
      destruct (In_nth_error _ _ Hq) as (j & Hj).
      assert (i = j).
      { apply (proj1 (NoDup_nth_error _) V).
        - apply nth_error_Some. unfold dict_values.
          rewrite nth_error_map, Hi. discriminate.
        - unfold dict_values. now rewrite !nth_error_map, Hi, Hj. }
      subst j. congruence.
Qed.

Lemma namer_numbers_same_second_in_order_witness :
  exists w',
    create_target_filenames Sample.pictures [Sample.bar; Sample.baz]
      (Sample.world_of Sample.fs_fresh [] Sample.no_fault)
    = (Return [(Sample.bar, "200101_120000.jpg");
               (Sample.baz, "200101_120000_1.jpg")], w').
Proof.
  edestruct (namer_numbers_same_second_in_order Sample.pictures
               [Sample.bar; Sample.baz]
               (Sample.world_of Sample.fs_fresh [] Sample.no_fault))
    with (timestamp := "200101_120000") (extension := ".jpg")
    as (d & w' & Run & E & _).
  - reflexivity.
  - constructor; [simpl; intros [H|[]]; discriminate|].
    constructor; [simpl; tauto | constructor].
  - intros p [<-|[<-|[]]]; (split; [split; [reflexivity|]|reflexivity]);
      do 2 eexists; (split; [reflexivity|]);
      (split; [vm_compute; reflexivity | reflexivity]).
  - intros k _. cbv. tauto.
  - exists w'. rewrite Run, E. reflexivity.
Defined.

(** ** The extension *)

Lemma append_assoc (a b c : string) :
  ((a ++ b) ++ c)%string = (a ++ b ++ c)%string.
Proof.
  induction a as [|x a IH]; simpl; [reflexivity | now rewrite IH].
Qed.

Lemma substring_all (s : string) : substring 0 (String.length s) s = s.
Proof.
  induction s as [|c s IH]; simpl; [reflexivity | now rewrite IH].
Qed.

Lemma substring_skip (a b : string) (m : nat) :
  substring (String.length a) m (a ++ b)%string = substring 0 m b.
Proof.
  induction a as [|c a IH]; simpl; [reflexivity | exact IH].
Qed.

Lemma endswith_append (a b : string) : Str.endswith (a ++ b)%string b = true.
Proof.
  unfold Str.endswith, Str.drop. rewrite append_length.
  replace (String.length a + String.length b - String.length b)
    with (String.length a) by lia.
  replace (String.length a + String.length b - String.length a)
    with (String.length b) by lia.
  rewrite substring_skip, substring_all, String.eqb_refl.
  rewrite andb_true_r. apply Nat.leb_le. lia.
Qed.

Lemma endswith_same_length (s a b : string) :
  Str.endswith s a = true -> Str.endswith s b = true ->
  String.length a = String.length b -> a = b.
Proof.
  unfold Str.endswith. intros Ha Hb L.
  apply andb_true_iff in Ha, Hb. destruct Ha as [_ Ha], Hb as [_ Hb].
  apply String.eqb_eq in Ha, Hb. rewrite <- L in Hb. congruence.
Qed.

Lemma kth_name_stem (ts ext : string) (i : nat) :
  exists stem, kth_name ts ext i = (stem ++ ext)%string.
Proof.
  destruct i as [|i]; simpl.
  - now exists ts.
  - exists (ts ++ "_" ++ Str.of_nat (S i))%string.
    unfold numbered. now rewrite !append_assoc.
Qed.

(** C10. Every name the Namer returns ends in the [suffix] of its candidate
    as it is written; a candidate named [FOO.JPG], which the pattern of the
    Scanner matches, gets a name that ends in [.JPG] and not in [.jpg]. *)
Theorem namer_keeps_extension_verbatim :
  forall target_dir_path pictures_paths w new_names w' filepath new_filename,
    create_target_filenames target_dir_path pictures_paths w
      = (Return new_names, w') ->
    In (filepath, new_filename) (dict_items new_names) ->
    (exists stem, new_filename = (stem ++ suffix filepath)%string) /\
    (name filepath = "FOO.JPG" ->
     fnmatch (name filepath) "*.jpg" false = true /\
     Str.endswith new_filename ".JPG" = true /\
     Str.endswith new_filename ".jpg" = false).
Proof.
  intros tgt ps w d w' p n Run Hin.
  apply create_target_filenames_inv in Run.
  destruct Run as (entries & w0 & _ & Run).
  assert (Stem : exists stem, n = (stem ++ suffix p)%string).
  { revert p n Hin.
    apply (for_fold_invariant
             (fun d => forall p n, In (p, n) d ->
                                   exists stem, n = (stem ++ suffix p)%string)
             (assign_name (map name entries)))
      with (xs := ps) (s := []) (w := w0) (w' := w'); [|intros ? ? []|exact Run].
    clear. intros d p w d' w' I A q m Hq.
    apply assign_name_inv in A. destruct A as (ts & n & _ & W & ->).
    apply dict_set_In in Hq. destruct Hq as [[-> ->]|Hq]; [|now apply I].
    apply while_taken_least in W. destruct W as (i & -> & _).
    apply kth_name_stem. }
  split; [exact Stem|].
  intros N. destruct Stem as (stem & ->).
  assert (S : suffix p = ".JPG") by (unfold suffix; now rewrite N).
  rewrite N, S. split; [reflexivity|]. split; [apply endswith_append|].
  destruct (Str.endswith (stem ++ ".JPG") ".jpg") eqn:E; [|reflexivity].
  pose proof (endswith_same_length _ _ _ (endswith_append stem ".JPG") E
                eq_refl). discriminate.
Qed.

Lemma namer_keeps_extension_verbatim_witness :
  fnmatch (name Sample.foo) "*.jpg" false = true /\
  Str.endswith "200101_120000.JPG" ".JPG" = true /\
  Str.endswith "200101_120000.JPG" ".jpg" = false.
Proof.
  refine (let H := namer_keeps_extension_verbatim Sample.pictures
                     [Sample.foo]
                     (Sample.world_of Sample.fs_fresh [] Sample.no_fault)
                     [(Sample.foo, "200101_120000.JPG")] _
                     Sample.foo "200101_120000.JPG" eq_refl
                     (or_introl eq_refl) in _).
  destruct H as [_ H]. exact (H eq_refl).
Defined.

(** ** A modification time that cannot be read *)

(** C6, as stated, fails: an I/O error of [stat] leaves the Namer with the
    bare exception, no note attached. *)
Lemma namer_io_error_carries_no_note :
  exists e w1 w',
    OS.stat Sample.bar
      (Sample.world_of Sample.fs_fresh [] Sample.unreadable_stat)
    = (Raise e, w1) /\
    create_target_filenames Sample.pictures [Sample.bar]
      (Sample.world_of Sample.fs_fresh [] Sample.unreadable_stat)
    = (Raise e, w') /\
    e_notes e = [] /\
    ~ In (timestamp_note Sample.bar) (e_notes e).
Proof.
  exists Sample.io_error. do 2 eexists.
  split; [cbv; reflexivity|]. split; [cbv; reflexivity|].
  split; [reflexivity | intros []].
Qed.

(** C6, amended. When [stat] raises for a candidate, the Namer raises that
    exception at once and returns no mapping: the later candidates are not
    looked at and no timestamp is made up. The exception carries the note
    of [extract_timestamp] when it is an [AttributeError], and is otherwise
    the exception of [stat] unchanged. *)
Theorem namer_raises_when_mtime_unreadable :
  forall target_dir_path before filepath after w entries w0 new_names w1 e w2,
    OS.iterdir target_dir_path w = (Return entries, w0) ->
    for_fold before [] (assign_name (map name entries)) w0
      = (Return new_names, w1) ->
    OS.stat filepath w1 = (Raise e, w2) ->
    create_target_filenames target_dir_path (before ++ filepath :: after) w
      = (Raise (if is_AttributeError e
                then add_note e (timestamp_note filepath) else e), w2) /\
    (e_class e = AttributeError ->
     exists e', create_target_filenames target_dir_path
                  (before ++ filepath :: after) w = (Raise e', w2) /\
                In (timestamp_note filepath) (e_notes e')).
Proof.
  intros tgt before p after w entries w0 d w1 e w2 H0 H1 H2.
  assert (Run : create_target_filenames tgt (before ++ p :: after) w
                = (Raise (if is_AttributeError e
                          then add_note e (timestamp_note p) else e), w2)).
  { rewrite (create_target_filenames_eq _ _ _ _ _ H0).
    rewrite for_fold_app, (bind_Return _ _ _ _ _ H1). simpl.
    apply bind_Raise. unfold assign_name. apply bind_Raise.
    now apply extract_timestamp_Raise. }
  split; [exact Run|].
  intros C. eexists. split; [exact Run|].
  unfold is_AttributeError. rewrite C. simpl.
  apply in_app_iff. right. now left.
Qed.

Lemma namer_raises_when_mtime_unreadable_witness :
  exists w',
    create_target_filenames Sample.pictures
      [Sample.foo; Sample.bar; Sample.baz]
      (Sample.world_of Sample.fs_fresh [] Sample.unreadable_stat)
    = (Raise Sample.io_error, w').
Proof.
  edestruct (namer_raises_when_mtime_unreadable Sample.pictures
               [Sample.foo] Sample.bar [Sample.baz]
               (Sample.world_of Sample.fs_fresh [] Sample.unreadable_stat))
    as [Run _].
  - reflexivity.
  - reflexivity.
  - reflexivity.
  - eexists. exact Run.
Defined.

(** ** The file system *)

Lemma lookup_None fs p : OS.lookup fs p = None <-> ~ In p (fs_paths fs).
Proof.
  unfold OS.lookup, fs_paths. induction fs as [|[q n] fs IH]; simpl.
  - tauto.
  - destruct (path_eqb q p) eqn:E.
    + apply path_eqb_eq in E. split; [discriminate | tauto].
    + apply path_eqb_neq in E. rewrite IH. tauto.
Qed.

Lemma lookup_write fs p n q :
  OS.lookup (OS.write fs p n) q
  = if path_eqb p q then Some n else OS.lookup fs q.
Proof.
  unfold OS.lookup. induction fs as [|[k m] fs IH]; simpl.
  - now destruct (path_eqb p q).
  - destruct (path_eqb k p) eqn:E; simpl.
    + apply path_eqb_eq in E. subst k. now destruct (path_eqb p q).
    + destruct (path_eqb k q) eqn:K.
      * destruct (path_eqb p q) eqn:P; [|reflexivity].
        apply path_eqb_eq in K, P. subst. now rewrite path_eqb_refl in E.
      * exact IH.
Qed.

Lemma lookup_filter (g : Path -> bool) fs q :
  OS.lookup (filter (fun e => g (fst e)) fs) q
  = if g q then OS.lookup fs q else None.
Proof.
  unfold OS.lookup. induction fs as [|[k n] fs IH]; simpl.
  - now destruct (g q).
  - destruct (g k) eqn:G; simpl; destruct (path_eqb k q) eqn:K.
    + apply path_eqb_eq in K. subst k. now rewrite G.
    + exact IH.
    + apply path_eqb_eq in K. subst k. rewrite G in IH. now rewrite G.
    + exact IH.
Qed.

Lemma lookup_delete fs p q :
  OS.lookup (OS.delete fs p) q
  = if path_eqb p q then None else OS.lookup fs q.
Proof.
  unfold OS.delete.
  rewrite (lookup_filter (fun k => negb (path_eqb k p))).
  destruct (path_eqb q p) eqn:E.
  - apply path_eqb_eq in E. subst. now rewrite path_eqb_refl.
  - simpl. destruct (path_eqb p q) eqn:E'; [|reflexivity].
    apply path_eqb_eq in E'. subst. now rewrite path_eqb_refl in E.
Qed.

Lemma lookup_delete_tree fs p q :
  OS.lookup (OS.delete_tree fs p) q
  = if OS.is_prefix p q then None else OS.lookup fs q.
Proof.
  unfold OS.delete_tree.
  rewrite (lookup_filter (fun k => negb (OS.is_prefix p k))).
  now destruct (OS.is_prefix p q).
Qed.

Lemma filter_paths_incl (f : Path * node -> bool) fs :
  incl (fs_paths (filter f fs)) (fs_paths fs).
Proof.
  unfold fs_paths. intros p H. apply in_map_iff in H.
  destruct H as (e & <- & H). apply filter_In in H. apply in_map. tauto.
Qed.

Lemma is_prefix_refl p : OS.is_prefix p p = true.
Proof.
  induction p as [|x p IH]; simpl; [reflexivity|].
  now rewrite String.eqb_refl.
Qed.

Lemma is_prefix_app d l q :
  OS.is_prefix (d ++ l) q = true -> OS.is_prefix d q = true.
Proof.
  revert q. induction d as [|x d IH]; intros q; simpl; [reflexivity|].
  destruct q as [|y q]; [discriminate|].
  intros H. apply andb_true_iff in H. destruct H as [E H].
  rewrite E. simpl. now apply IH.
Qed.

Lemma is_prefix_length p q :
  OS.is_prefix p q = true -> List.length p <= List.length q.
Proof.
  revert q. induction p as [|x p IH]; intros q; simpl; [lia|].
  destruct q as [|y q]; [discriminate|].
  intros H. apply andb_true_iff in H. destruct H as [_ H].
  apply IH in H. simpl. lia.
Qed.

Lemma is_prefix_same_length p q :
  OS.is_prefix p q = true -> List.length p = List.length q -> p = q.
Proof.
  revert q. induction p as [|x p IH]; intros q; simpl.
  - destruct q; [reflexivity | discriminate].
  - destruct q as [|y q]; [discriminate|].
    intros H L. apply andb_true_iff in H. destruct H as [E H].
    apply String.eqb_eq in E. subst y. f_equal. apply IH; [exact H|].
    simpl in L. lia.
Qed.

Lemma fs_paths_touch fs d t : fs_paths (OS.touch fs d t) = fs_paths fs.
Proof.
  unfold fs_paths, OS.touch. rewrite map_map. apply map_ext.
  intros [q n]. simpl. now destruct (path_eqb q d).
Qed.

Lemma lookup_touch fs d t q :
  OS.lookup (OS.touch fs d t) q
  = if path_eqb q d then option_map (OS.set_mtime t) (OS.lookup fs q)
    else OS.lookup fs q.
Proof.
  unfold OS.lookup, OS.touch. induction fs as [|[k n] fs IH]; simpl.
  - now destruct (path_eqb q d).
  - destruct (path_eqb k d) eqn:D; simpl; destruct (path_eqb k q) eqn:K.
    + apply path_eqb_eq in D, K. subst. now rewrite path_eqb_refl.
    + exact IH.
    + destruct (path_eqb q d) eqn:Q; [|reflexivity].
      apply path_eqb_eq in K, Q. subst. now rewrite path_eqb_refl in D.
    + exact IH.
Qed.

(** A touched directory keeps all but its modification time. *)
Lemma lookup_touch_other fs d t q :
  q <> d -> OS.lookup (OS.touch fs d t) q = OS.lookup fs q.
Proof.
  intros N. rewrite lookup_touch.
  apply path_eqb_neq in N. now rewrite N.
Qed.

Lemma is_dir_touch fs d t q : OS.is_dir (OS.touch fs d t) q = OS.is_dir fs q.
Proof.
  unfold OS.is_dir. rewrite lookup_touch.
  destruct (path_eqb q d); [|reflexivity].
  now destruct (OS.lookup fs q).
Qed.

Lemma write_paths_incl fs p n :
  incl (fs_paths fs) (fs_paths (OS.write fs p n)).
Proof.
  induction fs as [|[q m] fs IH]; simpl.
  - intros x [].
  - destruct (path_eqb q p) eqn:E; simpl.
    + apply path_eqb_eq in E. subst q. apply incl_refl.
    + intros x [<-|H]; [now left | right; now apply IH].
Qed.

Lemma create_paths_incl fs p n t :
  incl (fs_paths fs) (fs_paths (OS.create fs p n t)).
Proof.
  unfold OS.create. destruct (OS.lookup fs p).
  - apply write_paths_incl.
  - rewrite fs_paths_touch. apply write_paths_incl.
Qed.

Lemma lookup_create fs p n t q :
  q <> parent p ->
  OS.lookup (OS.create fs p n t) q
  = if path_eqb p q then Some n else OS.lookup fs q.
Proof.
  intros N. unfold OS.create. destruct (OS.lookup fs p).
  - apply lookup_write.
  - rewrite lookup_touch_other by exact N. apply lookup_write.
Qed.

(** ** The Copier *)

Lemma add_logs_add_logs l1 l2 w :
  add_logs l2 (add_logs l1 w) = add_logs (l1 ++ l2) w.
Proof. unfold add_logs. simpl. now rewrite app_assoc. Qed.

Lemma add_logs_nil w : add_logs [] w = w.
Proof. destruct w. unfold add_logs. simpl. now rewrite app_nil_r. Qed.

Lemma for_each_logging {A} (l : level) (msg : A -> string) xs w :
  for_each xs (fun x => logging l (msg x)) w
  = (Return tt, add_logs (map (fun x => (l, msg x)) xs) w).
Proof.
  revert w. induction xs as [|x xs IH]; intros w.
  - unfold for_each. simpl. unfold ret. now rewrite add_logs_nil.
  - unfold for_each in *. simpl. unfold bind, logging at 1.
    rewrite IH. change (add_log (l, msg x) w) with (add_logs [(l, msg x)] w).
    now rewrite add_logs_add_logs.
Qed.

Lemma log_summary_eq m s f w :
  log_summary m s f w = (Return tt, add_logs (summary_log m s f) w).
Proof.
  unfold log_summary, summary_log.
  unfold bind at 1. unfold logging at 1.
  unfold bind at 1. rewrite for_each_logging.
  change (add_log ?r w) with (add_logs [r] w).
  rewrite add_logs_add_logs.
  destruct f as [|p f].
  - unfold ret. now rewrite app_nil_r.
  - unfold bind at 1. unfold logging at 1.
    change (add_log ?r ?w) with (add_logs [r] w).
    rewrite for_each_logging, !add_logs_add_logs.
    now rewrite <- !app_assoc.
Qed.

Lemma copy2_inv src dst w r w' :
  OS.copy2 src dst w = (r, w') ->
  w_calls w' = w_calls w ++ [Copy2 src dst] /\ w_log w' = w_log w /\
  w_stdin w' = w_stdin w /\
  incl (fs_paths (w_fs w)) (fs_paths (w_fs w')) /\
  match r with
  | Return d => d = dst \/ d = joinpath dst (name src)
  | Raise _ => True
  | Diverge => False
  end.
Proof.
  unfold OS.copy2, OS.syscall_with.
  set (w1 := add_call (Copy2 src dst) w).
  destruct (w_fault w1 (Copy2 src dst)).
  { destruct (OS.copy2_open (w_fs w1) src dst);
      [|destruct (w_torn w1 (Copy2 src dst)) as [[mt data]|]];
      intros [= <- <-]; simpl; repeat split;
      first [apply incl_refl | apply create_paths_incl]. }
  destruct (OS.copy2_open (w_fs w1) src dst).
  { intros [= <- <-]. repeat split. apply incl_refl. }
  intros [= <- <-]. simpl. repeat split.
  - apply create_paths_incl.
  - unfold OS.copy2_target.
    destruct (OS.is_dir (w_fs w) dst); [now right | now left].
Qed.

Lemma chown_inv p uid gid w r w' :
  OS.chown p uid gid w = (r, w') ->
  w_calls w' = w_calls w ++ [Chown p uid gid] /\ w_log w' = w_log w /\
  w_stdin w' = w_stdin w /\
  incl (fs_paths (w_fs w)) (fs_paths (w_fs w')) /\
  r <> Diverge.
Proof.
  unfold OS.chown, OS.syscall, OS.syscall_with.
  set (w1 := add_call (Chown p uid gid) w).
  destruct (w_fault w1 (Chown p uid gid)).
  { intros [= <- <-]. repeat split; [apply incl_refl | discriminate]. }
  destruct (OS.lookup (w_fs w1) p) as [n|].
  - intros [= <- <-]. repeat split; [apply write_paths_incl | discriminate].
  - intros [= <- <-]. repeat split; [apply incl_refl | discriminate].
Qed.

Lemma copy_one_copied tgt s f c n w dst w' :
  OS.copy2 c (joinpath tgt n) w = (Return dst, w') ->
  copy_one tgt (s, f) (c, n) w = (Return (s ++ [dst], f), w').
Proof.
  intros H. unfold copy_one, try_except, bind. now rewrite H.
Qed.

Lemma copy_one_failed tgt s f c n w e w' :
  OS.copy2 c (joinpath tgt n) w = (Raise e, w') ->
  copy_one tgt (s, f) (c, n) w
  = (Return (s, f ++ [c]), add_logs [(ERROR, e_msg e)] w').
Proof.
  intros H. unfold copy_one, try_except, bind. now rewrite H.
Qed.

(** The copy pass over [items], entered with the lists [s0] and [f0]: it
    returns, each item has added one element to one of the lists, a copy
    was attempted for every item and for nothing else, and the log has
    only grown. *)
Lemma copy_pass_spec tgt items :
  forall s0 f0 w,
  exists s f w' ls,
    for_fold items (s0, f0) (copy_one tgt) w
      = (Return (s0 ++ s, f0 ++ f), w') /\
    split_outcomes tgt items s f /\
    w_calls w' =
      w_calls w ++ map (fun it => Copy2 (fst it) (joinpath tgt (snd it))) items /\
    w_log w' = w_log w ++ ls /\
    w_stdin w' = w_stdin w /\
    incl (fs_paths (w_fs w)) (fs_paths (w_fs w')).
Proof.
  induction items as [|[c n] items IH]; intros s0 f0 w.
  - exists [], [], w, []. rewrite !app_nil_r. repeat split.
    + constructor.
    + apply incl_refl.
  - destruct (OS.copy2 c (joinpath tgt n) w) as [[dst|e|] w1] eqn:E;
      pose proof (copy2_inv _ _ _ _ _ E) as (Cw & Lw & Sw & Fw & Rw).
    + destruct (IH (s0 ++ [dst]) f0 w1) as (s & f & w' & ls & Run & Sp & C & L & I & F).
      exists (dst :: s), f, w', ls. repeat split.
      * rewrite for_fold_cons.
        rewrite (bind_Return _ _ _ _ _ (copy_one_copied _ _ _ _ _ _ _ _ E)).
        rewrite Run. now rewrite <- app_assoc.
      * now constructor.
      * rewrite C, Cw. simpl. now rewrite <- app_assoc.
      * congruence.
      * congruence.
      * eapply incl_tran; eassumption.
    + destruct (IH s0 (f0 ++ [c]) (add_logs [(ERROR, e_msg e)] w1))
        as (s & f & w' & ls & Run & Sp & C & L & I & F).
      exists s, (c :: f), w', ((ERROR, e_msg e) :: ls). repeat split.
      * rewrite for_fold_cons.
        rewrite (bind_Return _ _ _ _ _ (copy_one_failed _ _ _ _ _ _ _ _ E)).
        rewrite Run. now rewrite <- app_assoc.
      * now constructor.
      * rewrite C. simpl. rewrite Cw. now rewrite <- app_assoc.
      * rewrite L. simpl. rewrite Lw. now rewrite <- app_assoc.
      * rewrite I. simpl. exact Sw.
      * eapply incl_tran; [exact Fw | exact F].
    + contradiction.
Qed.

Lemma split_outcomes_length tgt items s f :
  split_outcomes tgt items s f ->
  List.length s + List.length f = List.length items.
Proof. induction 1; simpl; lia. Qed.

Lemma split_outcomes_fail_incl tgt items s f :
  split_outcomes tgt items s f -> incl f (map fst items).
Proof.
  induction 1; simpl.
  - apply incl_refl.
  - now apply incl_tl.
  - intros x [<-|H']; [now left | right; now apply IHsplit_outcomes].
Qed.

(** The ownership loop: either every call went through, or the loop stopped
    at the first call that raised. *)
Lemma chown_loop_spec s :
  forall w,
    (exists w', for_each s (fun path => OS.chown path 1000 1000) w
                = (Return tt, w') /\
                w_calls w' = w_calls w ++ map chown_call s /\
                w_log w' = w_log w /\ w_stdin w' = w_stdin w /\
                incl (fs_paths (w_fs w)) (fs_paths (w_fs w'))) \/
    (exists k e w', k < List.length s /\
                for_each s (fun path => OS.chown path 1000 1000) w
                = (Raise e, w') /\
                w_calls w' = w_calls w ++ map chown_call (firstn (S k) s) /\
                w_log w' = w_log w /\ w_stdin w' = w_stdin w /\
                incl (fs_paths (w_fs w)) (fs_paths (w_fs w'))).
Proof.
  induction s as [|p s IH]; intros w.
  - left. exists w. simpl. rewrite app_nil_r. repeat split. apply incl_refl.
  - destruct (OS.chown p 1000 1000 w) as [[[]|e|] w1] eqn:E;
      pose proof (chown_inv _ _ _ _ _ _ E) as (Cw & Lw & Sw & Fw & Rw).
    + destruct (IH w1) as [(w' & Run & C & L & I & F)
                          |(k & e & w' & Hk & Run & C & L & I & F)].
      * left. exists w'. repeat split.
        -- rewrite for_each_cons. now rewrite (bind_Return _ _ _ _ _ E).
        -- rewrite C, Cw. simpl. now rewrite <- app_assoc.
        -- congruence.
        -- congruence.
        -- eapply incl_tran; eassumption.
      * right. exists (S k), e, w'. repeat split.
        -- simpl. lia.
        -- rewrite for_each_cons. now rewrite (bind_Return _ _ _ _ _ E).
        -- rewrite C, Cw. simpl. now rewrite <- app_assoc.
        -- congruence.
        -- congruence.
        -- eapply incl_tran; eassumption.
    + right. exists 0, e, w1. repeat split; try assumption.
      * simpl. lia.
      * rewrite for_each_cons. now rewrite (bind_Raise _ _ _ _ _ E).
    + now elim Rw.
Qed.

Lemma chown_all_spec s w :
  exists w',
    chown_all s w = (Return tt, w') /\
    w_stdin w' = w_stdin w /\
    incl (fs_paths (w_fs w)) (fs_paths (w_fs w')) /\
    ((for_each s (fun path => OS.chown path 1000 1000) w = (Return tt, w') /\
      w_calls w' = w_calls w ++ map chown_call s /\
      w_log w' = w_log w) \/
     (exists k e w3,
        k < List.length s /\
        for_each s (fun path => OS.chown path 1000 1000) w = (Raise e, w3) /\
        w_calls w' = w_calls w ++ map chown_call (firstn (S k) s) /\
        w_log w' = w_log w ++ [(WARNING, e_msg e)])).
Proof.
  destruct (chown_loop_spec s w) as [(w' & Run & C & L & I & F)
                                    |(k & e & w' & Hk & Run & C & L & I & F)].
  - exists w'. repeat split; try assumption.
    + unfold chown_all, try_except. now rewrite Run.
    + left. now repeat split.
  - exists (add_logs [(WARNING, e_msg e)] w'). repeat split; try assumption.
    + unfold chown_all, try_except. now rewrite Run.
    + right. exists k, e, w'. repeat split; try assumption.
      simpl. now rewrite L.
Qed.

Lemma copy_files_eq m tgt w s f w1 w' :
  for_fold (dict_items m) ([], []) (copy_one tgt) w = (Return (s, f), w1) ->
  chown_all s (add_logs (summary_log m s f) w1) = (Return tt, w') ->
  copy_files m tgt w = (Return (s, f), w').
Proof.
  intros P C. unfold copy_files.
  rewrite (bind_Return _ _ _ _ _ P).
  rewrite (bind_Return _ _ _ _ _ (log_summary_eq m s f w1)).
  now rewrite (bind_Return _ _ _ _ _ C).
Qed.

(** C4, as stated, fails: a candidate that was copied is in neither list,
    the success list holds the path of its copy. *)
Lemma copier_success_list_holds_the_copy :
  exists s f w',
    copy_files [(Sample.foo, "200101_120000.JPG")] Sample.pictures
      (Sample.world_of Sample.fs_fresh [] Sample.no_fault)
    = (Return (s, f), w') /\
    s = [joinpath Sample.pictures "200101_120000.JPG"] /\ f = [] /\
    In Sample.foo (dict_keys [(Sample.foo, "200101_120000.JPG")]) /\
    ~ In Sample.foo s /\ ~ In Sample.foo f.
Proof.
  do 3 eexists. split; [cbv; reflexivity|].
  split; [reflexivity|]. split; [reflexivity|].
  split; [now left|]. split.
  - intros [H|[]]. discriminate.
  - intros [].
Qed.

(** C4, amended. The copy phase returns two lists that split the items of
    the mapping: each item gives exactly one element to exactly one list,
    in the order of the mapping - the path returned by the copy, inside the
    target directory, to the success list, or its candidate to the failure
    list. So the failure list holds candidates only, and the lengths of the
    two lists add up to the number of candidates. *)
Theorem copier_lists_split_the_mapping :
  forall target_filenames target_dir_path w,
  exists success_paths fail_paths w',
    copy_files target_filenames target_dir_path w
      = (Return (success_paths, fail_paths), w') /\
    split_outcomes target_dir_path (dict_items target_filenames)
      success_paths fail_paths /\
    List.length success_paths + List.length fail_paths
      = List.length (dict_keys target_filenames) /\
    incl fail_paths (dict_keys target_filenames).
Proof.
  intros m tgt w.
  destruct (copy_pass_spec tgt (dict_items m) [] [] w)
    as (s & f & w1 & ls & Run & Sp & _).
  simpl in Run.
  destruct (chown_all_spec s (add_logs (summary_log m s f) w1))
    as (w' & Ch & _).
  exists s, f, w'. repeat split.
  - eapply copy_files_eq; eassumption.
  - exact Sp.
  - unfold dict_keys. rewrite length_map.
    eapply split_outcomes_length. exact Sp.
  - eapply split_outcomes_fail_incl. exact Sp.
Qed.

(** C5. When the copy of an item of the mapping raises, [copy_files] still
    returns: the candidate is in the failure list, the error is in the log
    at level ERROR, and a copy is attempted for every later item. *)
Theorem copier_records_failure_and_goes_on :
  forall target_filenames target_dir_path w before filepath new_name after
         s1 f1 w1 e w2,
    dict_items target_filenames = before ++ (filepath, new_name) :: after ->
    for_fold before ([], []) (copy_one target_dir_path) w
      = (Return (s1, f1), w1) ->
    OS.copy2 filepath (joinpath target_dir_path new_name) w1 = (Raise e, w2) ->
    exists success_paths fail_paths w' calls,
      copy_files target_filenames target_dir_path w
        = (Return (success_paths, fail_paths), w') /\
      In filepath fail_paths /\
      In (ERROR, e_msg e) (w_log w') /\
      w_calls w' = w_calls w2 ++ calls /\
      forall c n, In (c, n) after ->
                  In (Copy2 c (joinpath target_dir_path n)) calls.
Proof.
  intros m tgt w before c n after s1 f1 w1 e w2 Items Pre Fail.
  destruct (copy_pass_spec tgt after s1 (f1 ++ [c])
              (add_logs [(ERROR, e_msg e)] w2))
    as (s & f & w3 & ls & Run & _ & C3 & L3 & _).
  assert (Pass : for_fold (dict_items m) ([], []) (copy_one tgt) w
                 = (Return (s1 ++ s, (f1 ++ [c]) ++ f), w3)).
  { rewrite Items, for_fold_app, (bind_Return _ _ _ _ _ Pre).
    rewrite for_fold_cons.
    now rewrite (bind_Return _ _ _ _ _ (copy_one_failed _ _ _ _ _ _ _ _ Fail)). }
  destruct (chown_all_spec (s1 ++ s)
              (add_logs (summary_log m (s1 ++ s) ((f1 ++ [c]) ++ f)) w3))
    as (w' & Ch & _ & _ & Spec).
  exists (s1 ++ s), ((f1 ++ [c]) ++ f), w'.
  assert (Lg : exists l1 l2, w_log w' = (w_log w2 ++ [(ERROR, e_msg e)]) ++ l1 ++ l2).
  { destruct Spec as [(_ & _ & L)|(k & e' & w4 & _ & _ & _ & L)].
    - exists (ls ++ summary_log m (s1 ++ s) ((f1 ++ [c]) ++ f)), [].
      rewrite L. simpl. rewrite L3. simpl.
      now rewrite app_nil_r, <- !app_assoc.
    - exists (ls ++ summary_log m (s1 ++ s) ((f1 ++ [c]) ++ f)),
             [(WARNING, e_msg e')].
      rewrite L. simpl. rewrite L3. simpl. now rewrite <- !app_assoc. }
  assert (Cl : exists cs, w_calls w' =
                 (w_calls w2 ++
                  map (fun it => Copy2 (fst it) (joinpath tgt (snd it))) after)
                 ++ cs).
  { destruct Spec as [(_ & C & _)|(k & e' & w4 & _ & _ & C & _)];
      eexists; rewrite C; simpl; rewrite C3; reflexivity. }
  destruct Lg as (l1 & l2 & Lg). destruct Cl as (cs & Cl).
  eexists. repeat split.
  - eapply copy_files_eq; eassumption.
  - apply in_app_iff. left. apply in_app_iff. right. now left.
  - rewrite Lg. apply in_app_iff. left. apply in_app_iff. right. now left.
  - rewrite Cl. rewrite <- app_assoc. reflexivity.
  - intros c' n' H. apply in_app_iff. left.
    apply in_map_iff. now exists (c', n').
Qed.

Lemma copier_records_failure_and_goes_on_witness :
  exists success_paths fail_paths w',
    copy_files Sample.names Sample.pictures
      (Sample.world_of Sample.fs_fresh [] Sample.unreadable_data)
    = (Return (success_paths, fail_paths), w') /\
    In Sample.bar fail_paths /\
    In (ERROR, e_msg Sample.io_error) (w_log w') /\
    In (Copy2 Sample.baz (joinpath Sample.pictures "200101_120000_1.jpg"))
       (w_calls w').
Proof.
  edestruct (copier_records_failure_and_goes_on Sample.names Sample.pictures
               (Sample.world_of Sample.fs_fresh [] Sample.unreadable_data)
               [(Sample.foo, "200101_120000.JPG")]
               Sample.bar "200101_120000.jpg"
               [(Sample.baz, "200101_120000_1.jpg")])
    as (s & f & w' & calls & Run & Hf & Hl & Hc & Ha).
  - reflexivity.
  - cbv. reflexivity.
  - cbv. reflexivity.
  - exists s, f, w'. repeat split; try assumption.
    rewrite Hc. apply in_app_iff. right. apply Ha. now left.
Defined.

(** C8, as stated, fails: once [chown] has raised for one copy, no [chown]
    is attempted for the copies after it. *)
Lemma copier_chown_not_attempted_after_failure :
  exists success_paths fail_paths w',
    copy_files Sample.names Sample.pictures
      (Sample.world_of Sample.fs_fresh [] Sample.chown_refused)
    = (Return (success_paths, fail_paths), w') /\
    In (joinpath Sample.pictures "200101_120000.jpg") success_paths /\
    ~ In (chown_call (joinpath Sample.pictures "200101_120000.jpg"))
         (w_calls w').
Proof.
  do 3 eexists. split; [cbv; reflexivity|]. split.
  - right. now left.
  - simpl. intros H.
    repeat (destruct H as [H|H]; [discriminate|]). exact H.
Qed.

(** C8, amended. After the copy pass and its summary, [copy_files] calls
    [chown] with user and group 1000 on the copies in the order of the
    success list and stops at the first call that raises; that error is
    logged once, at level WARNING, and nothing else is logged. In both cases
    [copy_files] returns the two lists of the copy pass unchanged. *)
Theorem copier_chown_stops_at_first_failure :
  forall target_filenames target_dir_path w success_paths fail_paths w1,
    for_fold (dict_items target_filenames) ([], [])
      (copy_one target_dir_path) w
      = (Return (success_paths, fail_paths), w1) ->
    let w2 := add_logs
                (summary_log target_filenames success_paths fail_paths) w1 in
    exists w',
      copy_files target_filenames target_dir_path w
        = (Return (success_paths, fail_paths), w') /\
      ((for_each success_paths (fun path => OS.chown path 1000 1000) w2
          = (Return tt, w') /\
        w_calls w' = w_calls w2 ++ map chown_call success_paths /\
        w_log w' = w_log w2) \/
       (exists k e w3,
          k < List.length success_paths /\
          for_each success_paths (fun path => OS.chown path 1000 1000) w2
            = (Raise e, w3) /\
          w_calls w' =
            w_calls w2 ++ map chown_call (firstn (S k) success_paths) /\
          w_log w' = w_log w2 ++ [(WARNING, e_msg e)])).
Proof.
  intros m tgt w s f w1 Pass w2.
  destruct (chown_all_spec s w2) as (w' & Ch & _ & _ & Spec).
  exists w'. split; [|exact Spec].
  eapply copy_files_eq; eassumption.
Qed.

Lemma copier_chown_stops_at_first_failure_witness :
  exists w',
    copy_files Sample.names Sample.pictures
      (Sample.world_of Sample.fs_fresh [] Sample.chown_refused)
    = (Return ([joinpath Sample.pictures "200101_120000.JPG";
                joinpath Sample.pictures "200101_120000.jpg";
                joinpath Sample.pictures "200101_120000_1.jpg"], []), w').
Proof.
  edestruct (copier_chown_stops_at_first_failure Sample.names
               Sample.pictures
               (Sample.world_of Sample.fs_fresh [] Sample.chown_refused))
    as (w' & Run & _).
  - cbv. reflexivity.
  - exists w'. exact Run.
Defined.

(** ** Runs that leave the disk alone *)

Lemma quiet_refl w : quiet w w.
Proof.
  repeat split.
  - exists []. now rewrite app_nil_r.
  - exists []. now rewrite app_nil_r.
  - apply incl_refl.
Qed.

Lemma quiet_trans a b c : quiet a b -> quiet b c -> quiet a c.
Proof.
  intros ((c1 & C1 & N1) & (l1 & L1) & F1 & S1)
         ((c2 & C2 & N2) & (l2 & L2) & F2 & S2).
  repeat split.
  - exists (c1 ++ c2). rewrite C2, C1, app_assoc. split; [reflexivity|].
    rewrite forallb_app. now rewrite N1, N2.
  - exists (l1 ++ l2). now rewrite L2, L1, app_assoc.
  - eapply incl_tran; eassumption.
  - congruence.
Qed.

(** One call that is not a call of [wipe_disk], whatever it returns. *)
Lemma quiet_call c w w' :
  is_wipe_call c = false ->
  w_calls w' = w_calls w ++ [c] -> w_log w' = w_log w ->
  w_stdin w' = w_stdin w ->
  incl (fs_paths (w_fs w)) (fs_paths (w_fs w')) ->
  quiet w w'.
Proof.
  intros N C L S F. repeat split; try assumption.
  - exists [c]. split; [assumption|]. simpl. now rewrite N.
  - exists []. now rewrite app_nil_r.
Qed.

Lemma quiet_logging l msg : steps quiet (logging l msg).
Proof.
  intros w. simpl. repeat split.
  - exists []. now rewrite app_nil_r.
  - now exists [(l, msg)].
  - apply incl_refl.
Qed.

Lemma quiet_query {A} c (f : world -> A) :
  is_wipe_call c = false -> steps quiet (OS.query c f).
Proof.
  intros N w. apply (quiet_call c); try assumption; try reflexivity.
  apply incl_refl.
Qed.

Lemma quiet_stat p : steps quiet (OS.stat p).
Proof.
  intros w. destruct (OS.stat p w) as [r w'] eqn:E.
  apply stat_world in E. subst w'.
  apply (quiet_call (Stat p)); try reflexivity. apply incl_refl.
Qed.

Lemma quiet_iterdir d : steps quiet (OS.iterdir d).
Proof.
  intros w. destruct (OS.iterdir d w) as [r w'] eqn:E.
  apply list_directory_world in E. subst w'.
  apply (quiet_call (Iterdir d)); try reflexivity. apply incl_refl.
Qed.

Lemma quiet_copy2 src dst : steps quiet (OS.copy2 src dst).
Proof.
  intros w. destruct (OS.copy2 src dst w) as [r w'] eqn:E.
  apply copy2_inv in E. destruct E as (C & L & S & F & _).
  now apply (quiet_call (Copy2 src dst)).
Qed.

Lemma quiet_chown p uid gid : steps quiet (OS.chown p uid gid).
Proof.
  intros w. destruct (OS.chown p uid gid w) as [r w'] eqn:E.
  apply chown_inv in E. destruct E as (C & L & S & F & _).
  now apply (quiet_call (Chown p uid gid)).
Qed.

Lemma quiet_localtime t : steps quiet (OS.localtime t).
Proof. intros w. rewrite localtime_eq. apply quiet_refl. Qed.

Lemma quiet_path_test c f :
  is_wipe_call c = false -> steps quiet (OS.path_test c f).
Proof.
  intros N w. unfold OS.path_test.
  destruct (w_fault (add_call c w) c) as [e|];
    [destruct (ignored_error e)|];
    (apply (quiet_call c); try assumption; try reflexivity; apply incl_refl).
Qed.

Lemma glob_world d pattern cs w r w' :
  OS.glob d pattern cs w = (r, w') -> w' = add_call (Glob d pattern) w.
Proof.
  unfold OS.glob.
  destruct (w_fault (add_call (Glob d pattern) w) (Glob d pattern)) as [e|];
    [destruct (ignored_error e); now intros [= _ <-]|].
  destruct (OS.is_dir _ d); [|now intros [= _ <-]].
  destruct (w_fault (add_call (Glob d pattern) w) (Scandir d)) as [e|];
    [destruct (is_OSError e)|]; now intros [= _ <-].
Qed.

Lemma quiet_glob d pattern cs : steps quiet (OS.glob d pattern cs).
Proof.
  intros w. destruct (OS.glob d pattern cs w) as [r w'] eqn:E.
  apply glob_world in E. subst w'.
  apply (quiet_call (Glob d pattern)); try reflexivity. apply incl_refl.
Qed.

Ltac quiet_by known :=
  repeat first
    [ known
    | apply (steps_bind quiet quiet_trans); [|intro]
    | apply (steps_try_except quiet quiet_trans); [|intro]
    | apply (steps_for_fold quiet quiet_refl quiet_trans); intros
    | apply (steps_for_each quiet quiet_refl quiet_trans); intros
    | apply (steps_ret quiet quiet_refl)
    | apply (steps_raise quiet quiet_refl)
    | apply (steps_diverge quiet quiet_refl)
    | apply quiet_logging
    | apply quiet_stat
    | apply quiet_iterdir
    | apply quiet_copy2
    | apply quiet_chown
    | apply quiet_localtime
    | apply quiet_glob
    | apply quiet_path_test; reflexivity
    | apply quiet_query; reflexivity ].

Ltac quiet := quiet_by fail.

Lemma quiet_find_pictures d : steps quiet (find_pictures d).
Proof. unfold find_pictures. quiet. Qed.

Lemma quiet_assign_name tdf d p : steps quiet (assign_name tdf d p).
Proof.
  unfold assign_name, extract_timestamp. quiet.
  destruct (while_taken _ _ _ _ _ _ _); quiet.
Qed.

Lemma quiet_create_target_filenames tgt ps :
  steps quiet (create_target_filenames tgt ps).
Proof.
  unfold create_target_filenames. quiet_by ltac:(apply quiet_assign_name).
Qed.

Lemma quiet_copy_files m tgt : steps quiet (copy_files m tgt).
Proof.
  unfold copy_files. quiet.
  - unfold copy_one. destruct s as [s f], x as [c n]. quiet.
  - destruct a as [s f]. unfold log_summary, chown_all. quiet.
    destruct f; quiet.
Qed.

Lemma quiet_correct_path p : steps quiet (correct_path p).
Proof.
  unfold correct_path, OS.path_exists, OS.path_is_dir. quiet.
  destruct (negb a); quiet. destruct (negb a0); quiet.
Qed.

Lemma quiet_copy_phase argv : steps quiet (copy_phase argv).
Proof.
  unfold copy_phase, parse_args, OS.getuid.
  quiet_by ltac:(first [ apply quiet_correct_path
                       | apply quiet_find_pictures
                       | apply quiet_create_target_filenames
                       | apply quiet_copy_files ]).
  destruct (wipe a); quiet. destruct (negb _); quiet.
Qed.

Lemma main_eq argv w :
  main argv w =
  bind (copy_phase argv)
    (fun ar =>
       if wipe (fst ar) then
         match snd (snd ar) with
         | _ :: _ =>
             logging WARNING
               "Aborting wiping the disk - some files were not copied"
         | [] => wipe_disk (source (fst ar))
         end
       else ret tt) w.
Proof.
  unfold main, copy_phase.
  rewrite bind_assoc. apply bind_ext. intros a w1.
  rewrite bind_assoc. apply bind_ext. intros _ w2.
  rewrite bind_assoc. apply bind_ext. intros pics w3.
  rewrite bind_assoc. apply bind_ext. intros names w4.
  rewrite bind_assoc. apply bind_ext. intros [s f] w5.
  reflexivity.
Qed.

(** C1. When the copy phase of a run returns a failure list that is not
    empty, the script ends without calling [wipe_disk], with the wipe flag
    set or not: after [copy_files] no call is made, nothing is read from
    standard input and the file system stays as it is; and over the whole
    run no entry is removed, no [rmtree], [remove], [listdir] or [input]
    call is made and every path that had an entry still has one. *)
Theorem wipe_skipped_after_copy_failure :
  forall argv w a success_paths fail_paths w2,
    copy_phase argv w = (Return (a, (success_paths, fail_paths)), w2) ->
    fail_paths <> [] ->
    exists w3,
      main argv w = (Return tt, w3) /\
      w_fs w3 = w_fs w2 /\ w_calls w3 = w_calls w2 /\
      w_stdin w3 = w_stdin w2 /\
      w_log w3 =
        w_log w2 ++
        (if wipe a then
           [(WARNING, "Aborting wiping the disk - some files were not copied")]
         else []) /\
      (exists calls,
         w_calls w3 = w_calls w ++ calls /\
         forall c, In c calls -> is_wipe_call c = false) /\
      incl (fs_paths (w_fs w)) (fs_paths (w_fs w3)) /\
      w_stdin w3 = w_stdin w.
Proof.
  intros argv w a s f w2 Phase Nonempty.
  pose proof (quiet_copy_phase argv w) as Q. rewrite Phase in Q. simpl in Q.
  destruct Q as ((cs & C & N) & _ & F & S).
  destruct f as [|p f]; [congruence|].
  rewrite main_eq, (bind_Return _ _ _ _ _ Phase). simpl.
  destruct (wipe a).
  - eexists. split; [reflexivity|]. simpl. repeat split; try assumption.
    exists cs. split; [assumption|]. intros c Hc.
    rewrite forallb_forall in N. specialize (N c Hc).
    now destruct (is_wipe_call c).
  - exists w2. rewrite app_nil_r. repeat split; try assumption.
    exists cs. split; [assumption|]. intros c Hc.
    rewrite forallb_forall in N. specialize (N c Hc).
    now destruct (is_wipe_call c).
Qed.

Lemma wipe_skipped_after_copy_failure_witness :
  exists w3,
    main (mk_args Sample.floppy Sample.pictures true)
      (Sample.world_of Sample.fs_fresh ["yes"] Sample.unreadable_data)
    = (Return tt, w3) /\
    incl (fs_paths Sample.fs_fresh) (fs_paths (w_fs w3)) /\
    w_stdin w3 = ["yes"].
Proof.
  edestruct (wipe_skipped_after_copy_failure
               (mk_args Sample.floppy Sample.pictures true)
               (Sample.world_of Sample.fs_fresh ["yes"]
                  Sample.unreadable_data))
    as (w3 & Run & _ & _ & _ & _ & _ & F & S).
  - cbv. reflexivity.
  - discriminate.
  - exists w3. repeat split; assumption.
Defined.

(** ** The Wiper *)

(** C7. Unless the line read at the prompt is [yes] in some mix of cases,
    [wipe_disk] deletes nothing: it leaves the file system as it is and
    makes no call but the listing of the directory and the prompt. When a
    line other than [yes] is read (the directory can be listed and the
    prompt is answered), [wipe_disk] returns, and what it has logged ends
    with the record that nothing has been removed. *)
Theorem wipe_needs_yes :
  forall disk_path w,
    (forall answer rest,
       w_stdin w = answer :: rest -> Str.lower answer <> "yes") ->
    let w' := snd (wipe_disk disk_path w) in
    w_fs w' = w_fs w /\
    (w_calls w' = w_calls w ++ [Listdir disk_path] \/
     w_calls w' = w_calls w ++ [Listdir disk_path; Input wipe_prompt]) /\
    (forall c, In c (w_calls w') -> is_deletion c = true ->
               In c (w_calls w)) /\
    (forall answer rest,
       w_stdin w = answer :: rest ->
       w_fault w (Listdir disk_path) = None ->
       OS.is_dir (w_fs w) disk_path = true ->
       w_fault w (Input wipe_prompt) = None ->
       fst (wipe_disk disk_path w) = Return tt /\
       w_stdin w' = rest /\
       w_log w' =
         w_log w ++
         wipe_warnings disk_path
           (map name (OS.children (w_fs w) disk_path)) ++
         [(INFO, "Nothing has been removed")]).
Proof.
  intros disk w No w'.
  assert (Core :
    w_fs w' = w_fs w /\
    (w_calls w' = w_calls w ++ [Listdir disk] \/
     w_calls w' = w_calls w ++ [Listdir disk; Input wipe_prompt]) /\
    (forall answer rest,
       w_stdin w = answer :: rest ->
       w_fault w (Listdir disk) = None ->
       OS.is_dir (w_fs w) disk = true ->
       w_fault w (Input wipe_prompt) = None ->
       fst (wipe_disk disk w) = Return tt /\
       w_stdin w' = rest /\
       w_log w' =
         w_log w ++
         wipe_warnings disk (map name (OS.children (w_fs w) disk)) ++
         [(INFO, "Nothing has been removed")])).
  { subst w'.
    unfold wipe_disk, bind, logging, OS.listdir, OS.list_directory, OS.input,
      OS.syscall, OS.syscall_with, bind, ret, OS.is_dir. simpl.
    destruct (w_fault w (Listdir disk)) as [e|] eqn:FL; simpl.
    { split; [reflexivity|]. split; [now left|]. intros; discriminate. }
    destruct (OS.lookup (w_fs w) disk) as [n|] eqn:LK; simpl.
    2:{ split; [reflexivity|]. split; [now left|]. intros; discriminate. }
    destruct (n_is_dir n) eqn:D; simpl.
    2:{ split; [reflexivity|]. split; [now left|]. intros; discriminate. }
    destruct (w_fault w (Input "Type 'yes' to continue: ")) as [e|] eqn:FI;
      simpl.
    { split; [reflexivity|]. split; [right; now rewrite <- app_assoc|].
      intros ? ? ? ? ? C. unfold wipe_prompt in C. congruence. }
    destruct (w_stdin w) as [|answer rest] eqn:In_; simpl.
    { split; [reflexivity|]. split; [right; now rewrite <- app_assoc|].
      intros; discriminate. }
    specialize (No answer rest eq_refl).
    destruct (String.eqb (Str.lower answer) "yes") eqn:Y.
    { apply String.eqb_eq in Y. contradiction. }
    simpl. split; [reflexivity|]. split; [right; now rewrite <- app_assoc|].
    intros a r [= <- <-] _ _ _. repeat split.
    unfold wipe_warnings. now rewrite <- !app_assoc. }
  destruct Core as (F & C & R).
  split; [exact F|]. split; [exact C|]. split; [|exact R].
  intros c Hc Del.
  destruct C as [C|C]; rewrite C in Hc; apply in_app_iff in Hc;
    destruct Hc as [Hc|Hc]; try assumption; simpl in Hc;
    repeat (destruct Hc as [<-|Hc]; [discriminate|]); contradiction.
Qed.

Lemma wipe_needs_yes_witness :
  wipe_disk Sample.floppy
    (Sample.world_of Sample.fs_fresh ["no"] Sample.no_fault)
  = (Return tt,
     set_stdin []
       (add_logs
          (wipe_warnings Sample.floppy
             ["FOO.JPG"; "bar.jpg"; "baz.jpg"; "notes.txt"] ++
           [(INFO, "Nothing has been removed")])
          (add_call (Input wipe_prompt)
             (add_call (Listdir Sample.floppy)
                (Sample.world_of Sample.fs_fresh ["no"]
                   Sample.no_fault))))) /\
  w_fs (snd (wipe_disk Sample.floppy
               (Sample.world_of Sample.fs_fresh ["no"] Sample.no_fault)))
  = Sample.fs_fresh.
Proof.
  destruct (wipe_needs_yes Sample.floppy
              (Sample.world_of Sample.fs_fresh ["no"] Sample.no_fault))
    as (F & _).
  - intros answer rest [= <- <-]. discriminate.
  - split; [reflexivity | exact F].
Defined.

(** With [YES] at the prompt the floppy is emptied; it was last modified
    when its last entry went, at the eleventh call. *)
Example wipe_confirmed_empties_the_floppy :
  exists w',
    wipe_disk Sample.floppy
      (Sample.world_of Sample.fs_fresh ["YES"] Sample.no_fault)
    = (Return tt, w') /\
    w_fs w' = [(Sample.pictures, Sample.directory);
               (Sample.floppy, OS.set_mtime 11 Sample.directory)].
Proof. eexists. split; cbv; reflexivity. Qed.

(** A whole run on the example floppy, wipe requested and confirmed. *)
Example main_copies_renames_and_wipes :
  exists w',
    main (mk_args Sample.floppy Sample.pictures true)
      (Sample.world_of Sample.fs_fresh ["yes"] Sample.no_fault)
    = (Return tt, w') /\
    fs_paths (w_fs w') =
      [ Sample.pictures; Sample.floppy;
        joinpath Sample.pictures "200101_120000.JPG";
        joinpath Sample.pictures "200101_120000.jpg";
        joinpath Sample.pictures "200101_120000_1.jpg" ].
Proof. eexists. split; cbv; reflexivity. Qed.

(** A candidate last modified in the year 10000 stops the Namer: the error
    is that of [fromtimestamp], and no mapping is returned. *)
Example namer_stops_at_the_year_10000 :
  exists w',
    create_target_filenames Sample.pictures [Sample.foo; Sample.bar]
      (Sample.world_of
         ((Sample.foo, mk_node false 253402300800 (0, 0) "JFIF")
          :: Sample.fs_fresh) [] Sample.no_fault)
    = (Raise (mk_exn ValueError None "year 10000 is out of range" []), w') /\
    w_calls w' = [Iterdir Sample.pictures; Stat Sample.foo].
Proof. eexists. split; vm_compute; reflexivity. Qed.

(** A source directory that may not be searched stops the script at its
    first test, with the error of the system. *)
Example main_stops_at_a_refused_test :
  exists w',
    main (mk_args Sample.floppy Sample.pictures false)
      (Sample.world_of Sample.fs_fresh []
         (fun c => match c with
                   | Exists _ =>
                       Some (mk_exn PermissionError (Some 13)
                               "[Errno 13] Permission denied: 'floppy'" [])
                   | _ => None
                   end))
    = (Raise (mk_exn PermissionError (Some 13)
                "[Errno 13] Permission denied: 'floppy'" []), w') /\
    w_calls w' = [Exists Sample.floppy].
Proof. eexists. split; vm_compute; reflexivity. Qed.

(** A copy that fails on a bad sector leaves the part it has read in the
    picture directory: the candidate is in the failure list, and the
    directory was modified. *)
Example failed_copy_leaves_a_file :
  exists w',
    copy_files [(Sample.bar, "200101_120000.jpg")] Sample.pictures
      (make_world Sample.fs_fresh 0 Sample.utc Z.of_nat []
         Sample.unreadable_data (fun _ => Some (7%Z, "JF")) (fun _ => [])
         [] [])
    = (Return ([], [Sample.bar]), w') /\
    OS.lookup (w_fs w') (joinpath Sample.pictures "200101_120000.jpg")
    = Some (mk_node false 7 (0, 0) "JF") /\
    OS.lookup (w_fs w') Sample.pictures
    = Some (OS.set_mtime 1 Sample.directory).
Proof. eexists. repeat split; vm_compute; reflexivity. Qed.

(** * Further properties of the script *)

(** ** What the Namer reads and what it returns *)

Lemma namer_loop_world tdf ps :
  forall d w r w',
    for_fold ps d (assign_name tdf) w = (r, w') ->
    exists k, k <= List.length ps /\
              w' = add_calls (map Stat (firstn k ps)) w /\
              (forall d', r = Return d' -> k = List.length ps).
Proof.
  induction ps as [|p ps IH]; intros d w r w'.
  - simpl. unfold ret. intros [= <- <-]. exists 0.
    split; [lia|]. split; [now rewrite add_calls_nil | reflexivity].
  - rewrite for_fold_cons. unfold bind.
    destruct (assign_name tdf d p w) as [[d1|e|] w1] eqn:E;
      apply assign_name_world in E; subst w1.
    + intros H. apply IH in H. destruct H as (k & Hk & -> & Hr).
      exists (S k). split; [simpl; lia|]. split.
      * change (add_call (Stat p) w) with (add_calls [Stat p] w).
        now rewrite add_calls_add_calls.
      * intros d' Hd. simpl. f_equal. now apply (Hr d').
    + intros [= <- <-]. exists 1. split; [simpl; lia|].
      split; [now destruct ps | discriminate].
    + intros [= <- <-]. exists 1. split; [simpl; lia|].
      split; [now destruct ps | discriminate].
Qed.

(** X1. The Namer only reads: whatever it returns or raises, it leaves the
    file system, the log and standard input as they are, and the calls it
    makes are the listing of the target directory followed by one [stat]
    per candidate, in the order of the list, up to the candidate at which
    it raised - all of them when it returns a mapping. *)
Theorem namer_only_lists_and_stats :
  forall target_dir_path pictures_paths w,
  exists k,
    let r := fst (create_target_filenames target_dir_path pictures_paths w) in
    let w' := snd (create_target_filenames target_dir_path pictures_paths w) in
    k <= List.length pictures_paths /\
    w_fs w' = w_fs w /\ w_log w' = w_log w /\ w_stdin w' = w_stdin w /\
    w_calls w' =
      w_calls w ++
      Iterdir target_dir_path :: map Stat (firstn k pictures_paths) /\
    (forall new_names, r = Return new_names ->
                       k = List.length pictures_paths).
Proof.
  intros tgt ps w. unfold create_target_filenames, bind.
  destruct (OS.iterdir tgt w) as [[entries|e|] w0] eqn:E;
    apply list_directory_world in E; subst w0.
  - destruct (for_fold ps [] (assign_name (map name entries))
                (add_call (Iterdir tgt) w)) as [r w'] eqn:F.
    apply namer_loop_world in F. destruct F as (k & Hk & -> & Hr).
    exists k. simpl. repeat split; try assumption.
    now rewrite <- app_assoc.
  - exists 0. simpl. repeat split; try lia. discriminate.
  - exists 0. simpl. repeat split; try lia. discriminate.
Qed.

Lemma for_fold_invariant_w {A S} (I : S -> world -> Prop)
    (body : S -> A -> M S) :
  (forall s x w s' w', I s w -> body s x w = (Return s', w') -> I s' w') ->
  forall xs s w s' w',
    I s w -> for_fold xs s body w = (Return s', w') -> I s' w'.
Proof.
  intros Hb xs. induction xs as [|x xs IH]; intros s w s' w' Hs; simpl.
  - unfold ret. now intros [= <- <-].
  - unfold bind. destruct (body s x w) as [[s1|e|] w1] eqn:E1;
      try discriminate.
    intros E. eapply IH; [|exact E]. eapply Hb; eassumption.
Qed.

Lemma iterdir_Return tgt w entries w0 :
  OS.iterdir tgt w = (Return entries, w0) ->
  entries = OS.children (w_fs w) tgt /\ OS.is_dir (w_fs w) tgt = true /\
  w_fault w (Iterdir tgt) = None.
Proof.
  unfold OS.iterdir, OS.list_directory, OS.syscall, OS.syscall_with, OS.is_dir. simpl.
  destruct (w_fault w (Iterdir tgt)); try discriminate.
  destruct (OS.lookup (w_fs w) tgt) as [n|]; try discriminate.
  destruct (n_is_dir n); try discriminate.
  now intros [= <- _].
Qed.

Lemma name_joinpath d n : name (joinpath d n) = n.
Proof. unfold name, joinpath. apply last_last. Qed.

Lemma parent_joinpath d n : parent (joinpath d n) = d.
Proof. unfold parent, joinpath. apply removelast_last. Qed.

Lemma joinpath_inj d a b : joinpath d a = joinpath d b -> a = b.
Proof.
  unfold joinpath. intros H. apply app_inv_head in H. now injection H.
Qed.

Lemma children_In fs d p :
  In p (OS.children fs d) <->
  In p (fs_paths fs) /\ p <> [] /\ parent p = d.
Proof.
  unfold OS.children, fs_paths. rewrite !in_map_iff. split.
  - intros ([q n] & <- & H). apply filter_In in H. destruct H as [H C].
    simpl in *. destruct q as [|x q]; [discriminate|].
    apply path_eqb_eq in C. repeat split.
    + now exists (x :: q, n).
    + discriminate.
    + exact C.
  - intros (([q n] & <- & H) & Ne & P). simpl in *.
    exists (q, n). split; [reflexivity|]. apply filter_In. split; [exact H|].
    simpl. destruct q as [|x q]; [congruence|]. now apply path_eqb_eq.
Qed.

Lemma joinpath_in_listing fs d n :
  In (joinpath d n) (fs_paths fs) -> In n (map name (OS.children fs d)).
Proof.
  intros H. apply in_map_iff. exists (joinpath d n).
  split; [apply name_joinpath|]. apply children_In.
  split; [exact H|]. split; [|apply parent_joinpath].
  unfold joinpath. now destruct d.
Qed.

Lemma NoDup_values_injective (d : dict) :
  NoDup (dict_values d) ->
  forall p q n, In (p, n) d -> In (q, n) d -> p = q.
Proof.
  intros V p q n Hp Hq.
  destruct (In_nth_error _ _ Hp) as (i & Hi).
  destruct (In_nth_error _ _ Hq) as (j & Hj).
  assert (i = j).
  { apply (proj1 (NoDup_nth_error _) V).
    - apply nth_error_Some. unfold dict_values.
      rewrite nth_error_map, Hi. discriminate.
    - unfold dict_values. now rewrite !nth_error_map, Hi, Hj. }
  subst j. congruence.
Qed.

Lemma namer_avoids_listing tgt ps w d w' :
  create_target_filenames tgt ps w = (Return d, w') ->
  NoDup (dict_values d) /\
  forall n, In n (dict_values d) ->
            ~ In n (map name (OS.children (w_fs w) tgt)).
Proof.
  intros Run.
  apply create_target_filenames_inv in Run.
  destruct Run as (entries & w0 & It & Run).
  apply iterdir_Return in It. destruct It as (-> & _).
  set (tdf := map name (OS.children (w_fs w) tgt)) in *.
  apply (for_fold_invariant
           (fun d => NoDup (dict_values d) /\
                     forall n, In n (dict_values d) -> ~ In n tdf)
           (assign_name tdf)) with (xs := ps) (s := []) (w := w0) (w' := w');
    [|split; [constructor | intros ? []]|exact Run].
  intros d1 p1 w1 d2 w2 [V T] A.
  apply assign_name_inv in A. destruct A as (ts & n & _ & W & ->).
  apply while_taken_least in W. destruct W as (i & _ & Free & _).
  unfold taken_names in Free. rewrite in_app_iff in Free. split.
  - apply dict_set_values_NoDup; tauto.
  - intros m Hm. apply dict_set_values_incl in Hm.
    destruct Hm as [->|Hm]; [tauto | now apply T].
Qed.

(** X2. Whatever the candidates, the names of a mapping the Namer returns
    are pairwise distinct, no name is given to two candidates, and no name
    is that of an entry the target directory had when the Namer was called:
    a copy under such a name cannot land on an existing file or on another
    copy of the run. *)
Theorem namer_names_are_distinct_and_new :
  forall target_dir_path pictures_paths w new_names w',
    create_target_filenames target_dir_path pictures_paths w
      = (Return new_names, w') ->
    NoDup (dict_values new_names) /\
    (forall p q n, In (p, n) new_names -> In (q, n) new_names -> p = q) /\
    (forall n, In n (dict_values new_names) ->
               ~ In (joinpath target_dir_path n) (fs_paths (w_fs w))).
Proof.
  intros tgt ps w d w' Run.
  destruct (namer_avoids_listing _ _ _ _ _ Run) as [V T].
  split; [exact V|]. split.
  - now apply NoDup_values_injective.
  - intros n Hn C. apply (T n Hn). now apply joinpath_in_listing.
Qed.

Lemma namer_names_are_distinct_and_new_witness :
  ~ In (joinpath Sample.pictures "200101_120000_1.jpg")
       (fs_paths Sample.fs_used).
Proof.
  refine (proj2 (proj2 (namer_names_are_distinct_and_new Sample.pictures
            [Sample.bar]
            (Sample.world_of Sample.fs_used [] Sample.no_fault)
            [(Sample.bar, "200101_120000_1.jpg")] _ _)) _ _).
  - cbv. reflexivity.
  - now left.
Defined.

Lemma dict_set_keys_In (d : dict) (k : Path) (v : string) (q : Path) :
  In q (dict_keys (dict_set d k v)) <-> q = k \/ In q (dict_keys d).
Proof.
  induction d as [|[k' v'] d IH]; simpl.
  - intuition congruence.
  - destruct (path_eqb k' k) eqn:E; simpl.
    + apply path_eqb_eq in E. subst k'. intuition congruence.
    + rewrite IH. intuition congruence.
Qed.

Lemma namer_loop_keys tdf ps :
  forall d w d' w',
    for_fold ps d (assign_name tdf) w = (Return d', w') ->
    (forall q, In q (dict_keys d') <-> In q (dict_keys d) \/ In q ps) /\
    (NoDup (dict_keys d ++ ps) -> dict_keys d' = dict_keys d ++ ps).
Proof.
  induction ps as [|p ps IH]; intros d w d' w'.
  - simpl. unfold ret. intros [= <- _]. split.
    + intros q. tauto.
    + now rewrite app_nil_r.
  - rewrite for_fold_cons. unfold bind.
    destruct (assign_name tdf d p w) as [[d1|e|] w1] eqn:E; try discriminate.
    apply assign_name_inv in E. destruct E as (ts & n & _ & _ & ->).
    intros H. apply IH in H. destruct H as [H1 H2]. split.
    + intros q. rewrite H1, dict_set_keys_In. simpl. intuition.
    + intros ND. assert (F : ~ In p (dict_keys d)).
      { apply NoDup_remove_2 in ND. intros C. apply ND.
        apply in_app_iff. now left. }
      rewrite (dict_set_fresh _ _ _ F) in H2.
      unfold dict_keys in *. rewrite map_app in H2. simpl in H2.
      rewrite <- app_assoc in H2. simpl in H2. now apply H2.
Qed.

(** X3. A mapping the Namer returns has exactly the candidates as keys, each
    once: no candidate is left without a name, and for candidates that are
    pairwise distinct the keys are the candidates in their order. *)
Theorem namer_names_every_candidate :
  forall target_dir_path pictures_paths w new_names w',
    create_target_filenames target_dir_path pictures_paths w
      = (Return new_names, w') ->
    (forall p, In p (dict_keys new_names) <-> In p pictures_paths) /\
    NoDup (dict_keys new_names) /\
    List.length new_names <= List.length pictures_paths /\
    (NoDup pictures_paths -> dict_keys new_names = pictures_paths).
Proof.
  intros tgt ps w d w' Run.
  apply create_target_filenames_inv in Run.
  destruct Run as (entries & w0 & _ & Run).
  pose proof (namer_loop_keys _ _ _ _ _ _ Run) as [K1 K2].
  assert (ND : NoDup (dict_keys d)).
  { eapply (namer_loop_invariant _ ps []); [constructor|constructor|exact Run]. }
  assert (K : forall p, In p (dict_keys d) <-> In p ps).
  { intros p. rewrite K1. simpl. tauto. }
  split; [exact K|]. split; [exact ND|]. split.
  - replace (List.length d) with (List.length (dict_keys d))
      by (unfold dict_keys; apply length_map).
    apply NoDup_incl_length; [exact ND|]. intros p. apply K.
  - intros N. now apply K2.
Qed.

Lemma namer_names_every_candidate_witness :
  List.length [(Sample.bar, "200101_120000_1.jpg")]
  <= List.length [Sample.bar; Sample.bar].
Proof.
  refine (proj1 (proj2 (proj2 (namer_names_every_candidate Sample.pictures
            [Sample.bar; Sample.bar]
            (Sample.world_of Sample.fs_fresh [] Sample.no_fault)
            [(Sample.bar, "200101_120000_1.jpg")] _ _)))).
  cbv. reflexivity.
Defined.

Lemma namer_names_stamped tgt ps w d w' :
  create_target_filenames tgt ps w = (Return d, w') ->
  forall p n, In (p, n) d ->
    exists ts i, has_timestamp w p ts /\ n = kth_name ts (suffix p) i.
Proof.
  intros Run.
  apply create_target_filenames_inv in Run.
  destruct Run as (entries & w0 & It & Run).
  apply list_directory_world in It.
  assert (Inv : same_env w w' /\
                forall p n, In (p, n) d ->
                  exists ts i, has_timestamp w p ts /\
                               n = kth_name ts (suffix p) i).
  { apply (for_fold_invariant_w
             (fun d wi => same_env w wi /\
                forall p n, In (p, n) d ->
                  exists ts i, has_timestamp w p ts /\
                               n = kth_name ts (suffix p) i)
             (assign_name (map name entries)))
      with (xs := ps) (s := []) (w := w0) (w' := w'); [| |exact Run].
    - intros d1 p1 w1 d2 w2 [Env I] A.
      pose proof (assign_name_world _ _ _ _ _ _ A) as ->.
      apply assign_name_inv in A. destruct A as (ts & m & E & W & ->).
      apply extract_timestamp_inv in E. split.
      + eapply same_env_trans; [exact Env | apply same_env_add_call].
      + intros q k Hq. apply dict_set_In in Hq.
        destruct Hq as [[-> ->]|Hq]; [|now apply I].
        apply while_taken_least in W. destruct W as (i & -> & _).
        exists ts, i. split; [|reflexivity].
        eapply has_timestamp_same_env; [apply same_env_sym; exact Env|exact E].
    - subst w0. split; [apply same_env_add_call | intros ? ? []]. }
  apply Inv.
Qed.

(** X4. Every name of a mapping the Namer returns is made of the candidate's
    own modification time, as [stat] reports it when the Namer is called and
    formatted [%y%m%d_%H%M%S] in local time, then possibly an underscore and
    a number, then the candidate's own suffix. *)
Theorem namer_names_come_from_mtime :
  forall target_dir_path pictures_paths w new_names w' filepath new_filename,
    create_target_filenames target_dir_path pictures_paths w
      = (Return new_names, w') ->
    In (filepath, new_filename) (dict_items new_names) ->
    exists timestamp i,
      has_timestamp w filepath timestamp /\
      new_filename = kth_name timestamp (suffix filepath) i.
Proof.
  intros tgt ps w d w' p n Run Hin.
  exact (namer_names_stamped _ _ _ _ _ Run p n Hin).
Qed.

Lemma namer_names_come_from_mtime_witness :
  exists timestamp i,
    has_timestamp (Sample.world_of Sample.fs_used [] Sample.no_fault)
      Sample.bar timestamp /\
    "200101_120000_1.jpg" = kth_name timestamp (suffix Sample.bar) i.
Proof.
  refine (namer_names_come_from_mtime Sample.pictures [Sample.bar]
            (Sample.world_of Sample.fs_used [] Sample.no_fault)
            [(Sample.bar, "200101_120000_1.jpg")] _
            Sample.bar "200101_120000_1.jpg" _ _).
  - cbv. reflexivity.
  - now left.
Defined.

Lemma namer_loop_plain tdf (stamp : Path -> string) rest :
  forall done w,
    (forall p, In p rest -> has_timestamp w p (stamp p)) ->
    NoDup (map (fun p => (stamp p ++ suffix p)%string) (done ++ rest)) ->
    (forall p, In p rest -> ~ In (stamp p ++ suffix p)%string tdf) ->
    exists w',
      for_fold rest (map (fun p => (p, (stamp p ++ suffix p)%string)) done)
        (assign_name tdf) w
      = (Return (map (fun p => (p, (stamp p ++ suffix p)%string))
                   (done ++ rest)), w').
Proof.
  induction rest as [|p rest IH]; intros done w Hts ND Hfree.
  - exists w. now rewrite app_nil_r.
  - set (plain := fun p => (stamp p ++ suffix p)%string) in *.
    set (d := map (fun p => (p, plain p)) done).
    pose proof (Hts p (or_introl eq_refl)) as Tp.
    destruct (assign_name_Return tdf d p w _ _ (extract_timestamp_has _ _ _ Tp))
      as (n & W & A).
    apply while_taken_least in W. destruct W as (i & Hn & _ & Hless).
    assert (Vals : dict_values d = map plain done).
    { unfold d, dict_values. rewrite map_map. reflexivity. }
    assert (Keys : dict_keys d = done).
    { unfold d, dict_keys. rewrite map_map. simpl. apply map_id. }
    assert (Fresh : ~ In (plain p) (map plain done)).
    { rewrite map_app in ND. simpl in ND. apply NoDup_remove_2 in ND.
      intros C. apply ND. apply in_app_iff. now left. }
    assert (Ei : i = 0).
    { destruct i as [|i]; [reflexivity | exfalso].
      specialize (Hless 0 (Nat.lt_0_succ _)). simpl in Hless.
      unfold taken_names in Hless. rewrite in_app_iff, Vals in Hless.
      destruct Hless as [C|C]; [now apply Fresh|].
      now apply (Hfree p (or_introl eq_refl)). }
    subst i. simpl in Hn. subst n.
    assert (Set_ : dict_set d p (plain p)
                   = map (fun p => (p, plain p)) (done ++ [p])).
    { rewrite dict_set_fresh.
      - unfold d. now rewrite map_app.
      - rewrite Keys. intros C. apply Fresh. now apply in_map. }
    destruct (IH (done ++ [p]) (add_call (Stat p) w)) as (w' & Run).
    + intros q Hq. eapply has_timestamp_same_env;
        [apply same_env_add_call | apply Hts; now right].
    + now rewrite <- app_assoc.
    + intros q Hq. apply Hfree. now right.
    + exists w'. rewrite for_fold_cons, (bind_Return _ _ _ _ _ A).
      rewrite <- app_assoc in Run. change ([p] ++ rest) with (p :: rest) in Run.
      rewrite <- Run.
      apply (f_equal (fun s => for_fold rest s (assign_name tdf)
                                 (add_call (Stat p) w))).
      exact Set_.
Qed.

(** X5. When the plain names of the candidates (timestamp plus suffix) are
    pairwise distinct and none of them is in the target directory - as for
    pictures taken in different seconds and copied to a fresh directory -
    every candidate gets its plain name, without a number. *)
Theorem namer_gives_plain_names_without_collisions :
  forall target_dir_path pictures_paths w entries w0 (stamp : Path -> string),
    OS.iterdir target_dir_path w = (Return entries, w0) ->
    (forall p, In p pictures_paths -> has_timestamp w p (stamp p)) ->
    NoDup (map (fun p => (stamp p ++ suffix p)%string) pictures_paths) ->
    (forall p, In p pictures_paths ->
               ~ In (stamp p ++ suffix p)%string (map name entries)) ->
    exists w',
      create_target_filenames target_dir_path pictures_paths w
      = (Return (map (fun p => (p, (stamp p ++ suffix p)%string))
                   pictures_paths), w').
Proof.
  intros tgt ps w entries w0 stamp It Hts ND Hfree.
  pose proof (list_directory_world _ _ _ _ _ It) as ->.
  destruct (namer_loop_plain (map name entries) stamp ps []
              (add_call (Iterdir tgt) w)) as (w' & Run).
  - intros p Hp. eapply has_timestamp_same_env;
      [apply same_env_add_call | now apply Hts].
  - exact ND.
  - exact Hfree.
  - exists w'. now rewrite (create_target_filenames_eq _ _ _ _ _ It).
Qed.

Lemma namer_gives_plain_names_without_collisions_witness :
  exists w',
    create_target_filenames Sample.pictures [Sample.foo; Sample.bar]
      (Sample.world_of Sample.fs_fresh [] Sample.no_fault)
    = (Return [(Sample.foo, "200101_120000.JPG");
               (Sample.bar, "200101_120000.jpg")], w').
Proof.
  edestruct (namer_gives_plain_names_without_collisions Sample.pictures
               [Sample.foo; Sample.bar]
               (Sample.world_of Sample.fs_fresh [] Sample.no_fault))
    with (stamp := fun _ : Path => "200101_120000") as (w' & Run).
  - reflexivity.
  - intros p [<-|[<-|[]]]; (split; [reflexivity|]);
      do 2 eexists; (split; [reflexivity|]);
      (split; [vm_compute; reflexivity | reflexivity]).
  - constructor; [simpl; intros [H|[]]; discriminate|].
    constructor; [simpl; tauto | constructor].
  - intros p _. cbv. tauto.
  - exists w'. exact Run.
Defined.

(** ** The Scanner *)

Lemma lower_append (a b : string) :
  Str.lower (a ++ b) = (Str.lower a ++ Str.lower b)%string.
Proof.
  induction a as [|c a IH]; simpl; [reflexivity | now rewrite IH].
Qed.

Lemma lower_length (s : string) : String.length (Str.lower s) = String.length s.
Proof.
  induction s as [|c s IH]; simpl; [reflexivity | now rewrite IH].
Qed.

Lemma substring_split (s : string) (i : nat) :
  i <= String.length s ->
  s = (substring 0 i s ++ substring i (String.length s - i) s)%string.
Proof.
  revert i. induction s as [|c s IH]; intros i L.
  - simpl in L. assert (i = 0) by lia. subst. reflexivity.
  - destruct i as [|i]; simpl.
    + now rewrite substring_all.
    + f_equal. apply IH. simpl in L. lia.
Qed.

Lemma endswith_split (s t : string) :
  Str.endswith s t = true -> exists a, s = (a ++ t)%string.
Proof.
  unfold Str.endswith, Str.drop. intros H.
  apply andb_true_iff in H. destruct H as [L E].
  apply Nat.leb_le in L. apply String.eqb_eq in E.
  exists (substring 0 (String.length s - String.length t) s).
  pose proof (substring_split s (String.length s - String.length t)) as S.
  rewrite E in S. apply S. lia.
Qed.

Lemma lower_split (s a b : string) :
  Str.lower s = (a ++ b)%string ->
  exists a' b', s = (a' ++ b')%string /\ Str.lower a' = a /\ Str.lower b' = b.
Proof.
  revert s. induction a as [|c a IH]; intros s H.
  - exists EmptyString, s. now repeat split.
  - destruct s as [|x s]; [discriminate|]. simpl in H.
    injection H as Hc H. apply IH in H. destruct H as (a' & b' & -> & <- & <-).
    exists (String x a'), b'. simpl. now rewrite Hc.
Qed.

Lemma lower_ascii_dot (c : ascii) :
  Str.lower_ascii c = "."%char -> c = "."%char.
Proof.
  destruct c as [[] [] [] [] [] [] [] []]; cbv; intros H;
    first [reflexivity | discriminate H].
Qed.

Lemma lower_ascii_letter (c x : ascii) :
  Str.lower_ascii c = x -> Ascii.eqb x "." = false -> Ascii.eqb c "." = false.
Proof.
  intros H N. destruct (Ascii.eqb c ".") eqn:E; [|reflexivity].
  apply Ascii.eqb_eq in E. subst c. cbv in H. subst x. discriminate.
Qed.

Lemma rfind_dot_append (a : string) (c1 c2 c3 : ascii) :
  Ascii.eqb c1 "." = false -> Ascii.eqb c2 "." = false ->
  Ascii.eqb c3 "." = false ->
  Str.rfind_dot
    (a ++ String "." (String c1 (String c2 (String c3 EmptyString))))
  = Some (String.length a).
Proof.
  intros N1 N2 N3. induction a as [|c a IH]; simpl.
  - now rewrite N1, N2, N3.
  - now rewrite IH.
Qed.

(** A name that the pattern [*.jpg] matches without regard to case has a
    [suffix] that reads [.jpg] in lower case - unless the name is all
    suffix, which [pathlib] takes for a name without a suffix. *)
Lemma jpg_suffix (p : Path) :
  fnmatch (name p) "*.jpg" false = true ->
  Str.lower (suffix p) = ".jpg" \/
  (Str.lower (name p) = ".jpg" /\ suffix p = EmptyString).
Proof.
  unfold fnmatch, suffix. simpl Str.lower at 2.
  set (nm := name p). intros H.
  apply endswith_split in H. destruct H as (a & H).
  apply lower_split in H. destruct H as (a' & b' & E & _ & Lb).
  destruct b' as [|c0 [|c1 [|c2 [|c3 [|? ?]]]]]; try discriminate.
  simpl in Lb. injection Lb as L0 L1 L2 L3.
  apply lower_ascii_dot in L0. subst c0.
  assert (N1 : Ascii.eqb c1 "." = false)
    by (eapply lower_ascii_letter; [exact L1 | reflexivity]).
  assert (N2 : Ascii.eqb c2 "." = false)
    by (eapply lower_ascii_letter; [exact L2 | reflexivity]).
  assert (N3 : Ascii.eqb c3 "." = false)
    by (eapply lower_ascii_letter; [exact L3 | reflexivity]).
  rewrite E, (rfind_dot_append a' c1 c2 c3 N1 N2 N3).
  rewrite append_length. simpl String.length.
  destruct a' as [|x a'].
  - right. simpl. now rewrite L1, L2, L3.
  - left. simpl String.length.
    replace ((0 <? S (String.length a')) &&
             (S (String.length a') <? S (String.length a') + 4 - 1))%nat
      with true
      by (symmetry; apply andb_true_iff; split; apply Nat.ltb_lt; lia).
    unfold Str.drop. rewrite append_length. simpl String.length.
    replace (S (String.length a') + 4 - S (String.length a')) with 4 by lia.
    change (S (String.length a')) with (String.length (String x a')).
    rewrite substring_skip. simpl. now rewrite L1, L2, L3.
Qed.

(** What [glob] gives: the matching entries of the directory, fewer when
    the directory cannot be tested or read, or the error of its test. *)
Lemma glob_spec d pattern cs w :
  exists r,
    OS.glob d pattern cs w = (r, add_call (Glob d pattern) w) /\
    match r with
    | Return ps =>
        (forall p, In p ps ->
                   In p (OS.children (w_fs w) d) /\
                   fnmatch (name p) pattern cs = true) /\
        (w_fault w (Glob d pattern) = None ->
         w_fault w (Scandir d) = None ->
         OS.is_dir (w_fs w) d = true ->
         ps = filter (fun p => fnmatch (name p) pattern cs)
                (OS.children (w_fs w) d))
    | Raise e =>
        (w_fault w (Glob d pattern) = Some e /\ ignored_error e = false) \/
        (w_fault w (Glob d pattern) = None /\
         OS.is_dir (w_fs w) d = true /\
         w_fault w (Scandir d) = Some e /\ is_OSError e = false)
    | Diverge => False
    end.
Proof.
  unfold OS.glob. simpl.
  destruct (w_fault w (Glob d pattern)) as [e|] eqn:G.
  { destruct (ignored_error e) eqn:I; eexists; (split; [reflexivity|]).
    - split; [intros p [] | discriminate].
    - left. now split. }
  destruct (OS.is_dir (w_fs w) d) eqn:D.
  2:{ eexists. split; [reflexivity|]. split; [intros p [] | discriminate]. }
  destruct (w_fault w (Scandir d)) as [e|] eqn:S.
  { destruct (is_OSError e) eqn:I; eexists; (split; [reflexivity|]).
    - split; [intros p [] | discriminate].
    - right. now repeat split. }
  eexists. split; [reflexivity|]. split; [|reflexivity].
  intros p H. now apply filter_In in H.
Qed.

Lemma find_pictures_eq d w :
  find_pictures d w =
  match OS.glob d "*.jpg" false w with
  | (Return ps, w1) =>
      (Return ps,
       add_logs [(INFO, (Str.of_nat (List.length ps) ++
                         " pictures found")%string)] w1)
  | (Raise e, w1) => (Raise e, w1)
  | (Diverge, w1) => (Diverge, w1)
  end.
Proof.
  unfold find_pictures, bind.
  destruct (OS.glob d "*.jpg" false w) as [[ps|e|] w1]; reflexivity.
Qed.

(** X6. The Scanner makes one call, the [glob] of the source directory,
    and changes nothing on disk. It raises only the error of that [glob]:
    a refusal that the directory test of [glob] does not ignore. Otherwise
    it logs how many paths it returns. Each of them lies directly in the
    source directory and has a name that ends in [.jpg] in some mix of
    upper and lower case, so that its [suffix], which the Namer appends, is
    [.jpg] in that mix - but for a file named [.jpg] alone, whose [suffix]
    is empty. When the directory can be tested and read, every such entry
    is returned. *)
Theorem scanner_lists_the_jpg_entries :
  forall source_dir_path w,
    let r := fst (find_pictures source_dir_path w) in
    let w' := snd (find_pictures source_dir_path w) in
    w_fs w' = w_fs w /\ w_stdin w' = w_stdin w /\
    w_calls w' = w_calls w ++ [Glob source_dir_path "*.jpg"] /\
    match r with
    | Return pictures_paths =>
        w_log w' =
          w_log w ++
          [(INFO, (Str.of_nat (List.length pictures_paths) ++
                   " pictures found")%string)] /\
        (forall p,
           In p pictures_paths ->
           In p (fs_paths (w_fs w)) /\ p <> [] /\
           parent p = source_dir_path /\
           Str.endswith (Str.lower (name p)) ".jpg" = true /\
           (Str.lower (suffix p) = ".jpg" \/
            Str.lower (name p) = ".jpg" /\ suffix p = EmptyString)) /\
        (w_fault w (Glob source_dir_path "*.jpg") = None ->
         w_fault w (Scandir source_dir_path) = None ->
         OS.is_dir (w_fs w) source_dir_path = true ->
         forall p,
           In p (fs_paths (w_fs w)) -> p <> [] ->
           parent p = source_dir_path ->
           Str.endswith (Str.lower (name p)) ".jpg" = true ->
           In p pictures_paths)
    | Raise e =>
        w_log w' = w_log w /\
        (w_fault w (Glob source_dir_path "*.jpg") = Some e /\
         ignored_error e = false \/
         w_fault w (Scandir source_dir_path) = Some e /\
         is_OSError e = false)
    | Diverge => False
    end.
Proof.
  intros d w. rewrite find_pictures_eq.
  destruct (glob_spec d "*.jpg" false w) as (r & -> & H).
  destruct r as [ps|e|]; simpl; repeat split; try reflexivity.
  - apply H in H0. destruct H0 as [H0 _]. now apply children_In in H0.
  - apply H in H0. destruct H0 as [H0 _]. now apply children_In in H0.
  - apply H in H0. destruct H0 as [H0 _]. now apply children_In in H0.
  - apply H in H0. now destruct H0 as [_ H0].
  - apply jpg_suffix. apply H in H0. now destruct H0 as [_ H0].
  - intros G S D p F N P E. destruct H as [_ H].
    rewrite (H G S D). apply filter_In. split; [now apply children_In|exact E].
  - destruct H as [[G I]|(_ & _ & S & I)]; [left | right]; now split.
  - exact H.
Qed.

(** ** Copies never land on what was there *)

Lemma agree_on_refl ps fs : agree_on ps fs fs.
Proof. now intros q _. Qed.

Lemma agree_on_trans ps a b c :
  agree_on ps a b -> agree_on ps b c -> agree_on ps a c.
Proof. intros H1 H2 q Hq. now rewrite (H2 q Hq), (H1 q Hq). Qed.

Lemma same_but_mtime_refl a : same_but_mtime a a.
Proof. destruct a; simpl; tauto. Qed.

Lemma same_but_mtime_trans a b c :
  same_but_mtime a b -> same_but_mtime b c -> same_but_mtime a c.
Proof.
  destruct a, b, c; simpl; try tauto.
  intros (?&?&?) (?&?&?). repeat split; congruence.
Qed.

Lemma same_but_mtime_touched t a :
  same_but_mtime a (option_map (OS.set_mtime t) a).
Proof. destruct a; simpl; tauto. Qed.

Lemma agree_but_refl d ps fs : agree_but d ps fs fs.
Proof. intros q _. split; [reflexivity | apply same_but_mtime_refl]. Qed.

Lemma agree_but_trans d ps a b c :
  agree_but d ps a b -> agree_but d ps b c -> agree_but d ps a c.
Proof.
  intros H1 H2 q Hq.
  destruct (H1 q Hq) as [E1 S1], (H2 q Hq) as [E2 S2]. split.
  - intros N. now rewrite (E2 N), (E1 N).
  - eapply same_but_mtime_trans; eassumption.
Qed.

Lemma agree_on_but d ps fs fs' : agree_on ps fs fs' -> agree_but d ps fs fs'.
Proof.
  intros H q Hq. rewrite (H q Hq).
  split; [reflexivity | apply same_but_mtime_refl].
Qed.

Lemma write_outside ps fs p n :
  ~ In p ps -> agree_on ps fs (OS.write fs p n).
Proof.
  intros N q Hq. rewrite lookup_write.
  destruct (path_eqb p q) eqn:E; [|reflexivity].
  apply path_eqb_eq in E. now subst.
Qed.

Lemma write_file_no_new_dir ps fs p n :
  n_is_dir n = false -> no_new_dir ps fs ->
  no_new_dir ps (OS.write fs p n).
Proof.
  intros F H q Hq. unfold OS.is_dir. rewrite lookup_write.
  destruct (path_eqb p q); [exact F | apply (H q Hq)].
Qed.

(** A file that is created changes nothing else, but for the modification
    time of its directory. *)
Lemma create_outside ps fs p n t :
  ~ In p ps -> agree_but (parent p) ps fs (OS.create fs p n t).
Proof.
  intros N q Hq. unfold OS.create.
  assert (W : OS.lookup (OS.write fs p n) q = OS.lookup fs q)
    by (now apply (write_outside ps)).
  destruct (OS.lookup fs p).
  - rewrite W. split; [reflexivity | apply same_but_mtime_refl].
  - rewrite lookup_touch, W. destruct (path_eqb q (parent p)) eqn:E.
    + apply path_eqb_eq in E. split; [contradiction|].
      apply same_but_mtime_touched.
    + split; [reflexivity | apply same_but_mtime_refl].
Qed.

Lemma create_file_no_new_dir ps fs p n t :
  n_is_dir n = false -> no_new_dir ps fs ->
  no_new_dir ps (OS.create fs p n t).
Proof.
  intros F H q Hq. unfold OS.create. destruct (OS.lookup fs p).
  - now apply (write_file_no_new_dir ps).
  - rewrite is_dir_touch. now apply (write_file_no_new_dir ps).
Qed.

Lemma copy2_outside ps src dst w r w' :
  OS.copy2 src dst w = (r, w') ->
  ~ In dst ps -> no_new_dir ps (w_fs w) ->
  agree_but (parent dst) ps (w_fs w) (w_fs w') /\ no_new_dir ps (w_fs w') /\
  forall d, r = Return d -> d = dst.
Proof.
  intros E N H. unfold OS.copy2, OS.syscall_with in E. simpl in E.
  assert (T : OS.copy2_target (w_fs w) src dst = dst)
    by (unfold OS.copy2_target; now rewrite (H dst N)).
  rewrite !T in E. revert E.
  assert (Same : forall e : exn,
            (@Raise Path e, add_call (Copy2 src dst) w) = (r, w') ->
            agree_but (parent dst) ps (w_fs w) (w_fs w') /\
            no_new_dir ps (w_fs w') /\
            forall d, r = Return d -> d = dst).
  { intros e [= <- <-].
    split; [apply agree_but_refl | split; [exact H | discriminate]]. }
  destruct (w_fault w (Copy2 src dst)).
  - destruct (OS.copy2_open (w_fs w) src dst); [apply Same|].
    destruct (w_torn w (Copy2 src dst)) as [[mt data]|]; [|apply Same].
    intros [= <- <-]. simpl. split; [|split].
    + now apply create_outside.
    + now apply create_file_no_new_dir.
    + discriminate.
  - destruct (OS.copy2_open (w_fs w) src dst); [apply Same|].
    intros [= <- <-]. simpl. split; [|split].
    + now apply create_outside.
    + now apply create_file_no_new_dir.
    + now intros d [= <-].
Qed.

Lemma chown_outside ps p uid gid w r w' :
  OS.chown p uid gid w = (r, w') ->
  ~ In p ps -> no_new_dir ps (w_fs w) ->
  agree_on ps (w_fs w) (w_fs w') /\ no_new_dir ps (w_fs w').
Proof.
  intros E N H. unfold OS.chown, OS.syscall, OS.syscall_with in E.
  simpl in E. revert E.
  destruct (w_fault w (Chown p uid gid));
    [intros [= <- <-]; split; [apply agree_on_refl | exact H]|].
  destruct (OS.lookup (w_fs w) p) as [n|] eqn:L;
    [|intros [= <- <-]; split; [apply agree_on_refl | exact H]].
  intros [= <- <-]. simpl. split.
  - now apply write_outside.
  - apply write_file_no_new_dir; [|exact H]. simpl.
    specialize (H p N). unfold OS.is_dir in H. now rewrite L in H.
Qed.

Lemma copy_pass_outside ps tgt items :
  forall s0 f0 w s f w',
    (forall c n, In (c, n) items -> ~ In (joinpath tgt n) ps) ->
    no_new_dir ps (w_fs w) ->
    (forall p, In p s0 -> ~ In p ps) ->
    for_fold items (s0, f0) (copy_one tgt) w = (Return (s, f), w') ->
    agree_but tgt ps (w_fs w) (w_fs w') /\ no_new_dir ps (w_fs w') /\
    (forall p, In p s -> ~ In p ps).
Proof.
  induction items as [|[c n] items IH]; intros s0 f0 w s f w' Hn Hd Hs.
  - simpl. unfold ret. intros [= <- <- <-].
    split; [apply agree_but_refl | split; assumption].
  - rewrite for_fold_cons.
    assert (Nc : ~ In (joinpath tgt n) ps) by (apply (Hn c n); now left).
    destruct (OS.copy2 c (joinpath tgt n) w) as [[dst|e|] w1] eqn:E;
      destruct (copy2_outside _ _ _ _ _ _ E Nc Hd) as (A & D & R);
      rewrite parent_joinpath in A.
    + rewrite (bind_Return _ _ _ _ _ (copy_one_copied _ _ _ _ _ _ _ _ E)).
      intros Run. apply IH in Run.
      * destruct Run as (A' & D' & S'). split; [|split; assumption].
        eapply agree_but_trans; eassumption.
      * intros c' n' H. apply (Hn c' n'). now right.
      * exact D.
      * intros p Hp. apply in_app_iff in Hp. destruct Hp as [Hp|[<-|[]]].
        -- now apply Hs.
        -- now rewrite (R dst eq_refl).
    + rewrite (bind_Return _ _ _ _ _ (copy_one_failed _ _ _ _ _ _ _ _ E)).
      intros Run. apply IH in Run.
      * destruct Run as (A' & D' & S'). split; [|split; assumption].
        eapply agree_but_trans; eassumption.
      * intros c' n' H. apply (Hn c' n'). now right.
      * exact D.
      * exact Hs.
    + apply copy2_inv in E. now destruct E as (_ & _ & _ & _ & []).
Qed.

Lemma chown_loop_outside ps s :
  forall w r w',
    (forall p, In p s -> ~ In p ps) ->
    no_new_dir ps (w_fs w) ->
    for_each s (fun path => OS.chown path 1000 1000) w = (r, w') ->
    agree_on ps (w_fs w) (w_fs w').
Proof.
  induction s as [|p s IH]; intros w r w' Hs Hd.
  - unfold for_each. simpl. unfold ret. intros [= _ <-]. apply agree_on_refl.
  - rewrite for_each_cons. unfold bind.
    destruct (OS.chown p 1000 1000 w) as [[[]|e|] w1] eqn:E;
      destruct (chown_outside ps _ _ _ _ _ _ E (Hs p (or_introl eq_refl)) Hd)
        as (A & D).
    + intros Run. eapply agree_on_trans; [exact A|].
      eapply IH; [|exact D|exact Run]. intros q Hq. apply Hs. now right.
    + now intros [= _ <-].
    + now intros [= _ <-].
Qed.

Lemma copy_files_outside ps m tgt w r w' :
  (forall n, In n (dict_values m) -> ~ In (joinpath tgt n) ps) ->
  no_new_dir ps (w_fs w) ->
  copy_files m tgt w = (r, w') ->
  agree_but tgt ps (w_fs w) (w_fs w').
Proof.
  intros Hn Hd Run.
  destruct (copy_pass_spec tgt (dict_items m) [] [] w)
    as (s & f & w1 & ls & Pass & _).
  simpl in Pass.
  destruct (copy_pass_outside ps tgt (dict_items m) [] [] w s f w1)
    as (A & D & S); try assumption.
  { intros c n H. apply Hn. unfold dict_values. apply in_map_iff.
    now exists (c, n). }
  { intros p []. }
  unfold copy_files in Run.
  rewrite (bind_Return _ _ _ _ _ Pass) in Run.
  rewrite (bind_Return _ _ _ _ _ (log_summary_eq m s f w1)) in Run.
  unfold bind, chown_all, try_except in Run.
  destruct (for_each s (fun path => OS.chown path 1000 1000)
              (add_logs (summary_log m s f) w1)) as [[[]|e|] w2] eqn:C;
    apply (chown_loop_outside ps) in C; try assumption;
    simpl in C; unfold ret, logging in Run; simpl in Run;
    injection Run as _ <-; simpl;
    (eapply agree_but_trans; [exact A | apply agree_on_but; exact C]).
Qed.

Lemma namer_keeps_fs tgt ps w m w1 :
  create_target_filenames tgt ps w = (Return m, w1) -> w_fs w1 = w_fs w.
Proof.
  intros Names. apply create_target_filenames_inv in Names.
  destruct Names as (entries & w0 & It & Run).
  apply list_directory_world in It. subst w0.
  apply namer_loop_world in Run. destruct Run as (k & _ & -> & _).
  reflexivity.
Qed.

Lemma namer_then_copier_agree tgt ps w m w1 r w2 :
  create_target_filenames tgt ps w = (Return m, w1) ->
  copy_files m tgt w1 = (r, w2) ->
  agree_but tgt (fs_paths (w_fs w)) (w_fs w) (w_fs w2).
Proof.
  intros Names Copy.
  destruct (namer_avoids_listing _ _ _ _ _ Names) as [_ New].
  pose proof (namer_keeps_fs _ _ _ _ _ Names) as F.
  rewrite <- F.
  apply (copy_files_outside (fs_paths (w_fs w1)) m tgt w1 r w2);
    [| |exact Copy].
  - intros n Hn C. rewrite F in C. apply (New n Hn).
    now apply joinpath_in_listing.
  - intros q Hq. unfold OS.is_dir.
    now rewrite (proj2 (lookup_None _ _) Hq).
Qed.

(** X7. The Namer and the Copier together keep every entry that exists
    when the Namer is called - source files, files already in the target
    directory, anything else: with the names the Namer chose, no copy
    overwrites an existing file, also a copy that fails half-way, and no
    [chown] touches one. Each entry is exactly as it was, but for the
    target directory, whose modification time changes when a file is
    created in it: it stays a directory of the same owner. *)
Theorem pipeline_keeps_existing_entries :
  forall target_dir_path pictures_paths w target_filenames w1 r w2,
    create_target_filenames target_dir_path pictures_paths w
      = (Return target_filenames, w1) ->
    copy_files target_filenames target_dir_path w1 = (r, w2) ->
    forall q, In q (fs_paths (w_fs w)) ->
      (q <> target_dir_path ->
       OS.lookup (w_fs w2) q = OS.lookup (w_fs w) q) /\
      same_but_mtime (OS.lookup (w_fs w) q) (OS.lookup (w_fs w2) q).
Proof.
  intros tgt ps w m w1 r w2 Names Copy q Hq.
  exact (namer_then_copier_agree _ _ _ _ _ _ _ Names Copy q Hq).
Qed.

Lemma pipeline_keeps_existing_entries_witness :
  OS.lookup
    (w_fs (snd (copy_files [(Sample.bar, "200101_120000_1.jpg")]
                  Sample.pictures
                  (snd (create_target_filenames Sample.pictures [Sample.bar]
                          (Sample.world_of Sample.fs_used []
                             Sample.no_fault))))))
    (joinpath Sample.pictures "200101_120000.jpg")
  = Some Sample.picture /\
  same_but_mtime (Some Sample.directory)
    (OS.lookup
       (w_fs (snd (copy_files [(Sample.bar, "200101_120000_1.jpg")]
                     Sample.pictures
                     (snd (create_target_filenames Sample.pictures
                             [Sample.bar]
                             (Sample.world_of Sample.fs_used []
                                Sample.no_fault))))))
       Sample.pictures).
Proof.
  pose proof (pipeline_keeps_existing_entries Sample.pictures [Sample.bar]
                (Sample.world_of Sample.fs_used [] Sample.no_fault)
                [(Sample.bar, "200101_120000_1.jpg")] _ _ _
                ltac:(cbv; reflexivity)
                (surjective_pairing _)) as H.
  split.
  - destruct (H (joinpath Sample.pictures "200101_120000.jpg")) as [E _].
    + simpl. tauto.
    + etransitivity; [apply E; discriminate | reflexivity].
  - destruct (H Sample.pictures) as [_ S].
    + simpl. tauto.
    + exact S.
Defined.

(** ** The checks before any work *)

Lemma path_test_eq c f w :
  OS.path_test c f w =
  (match w_fault w c with
   | Some e => if ignored_error e then Return false else Raise e
   | None => Return (f (w_fs w))
   end, add_call c w).
Proof.
  unfold OS.path_test. simpl.
  destruct (w_fault w c) as [e|]; [destruct (ignored_error e)|]; reflexivity.
Qed.

(** What [correct_path] does: it returns the path when both tests say
    [True], and otherwise raises the error of a test that is refused, or
    its own [FileNotFoundError]. *)
Lemma correct_path_spec p w :
  exists r calls,
    correct_path p w = (r, add_calls calls w) /\
    (calls = [Exists p] \/ calls = [Exists p; IsDir p]) /\
    match r with
    | Return p' =>
        p' = p /\ calls = [Exists p; IsDir p] /\ accessible w p /\
        OS.is_dir (w_fs w) p = true
    | Raise e =>
        ((exists c, In c calls /\ w_fault w c = Some e /\
                    ignored_error e = false) \/
         (exists b, e = bad_directory p b)) /\
        ((forall c, In c calls -> w_fault w c = None) ->
         OS.is_dir (w_fs w) p = false /\ exists b, e = bad_directory p b)
    | Diverge => False
    end.
Proof.
  unfold correct_path, bind, OS.path_exists, OS.path_is_dir.
  rewrite path_test_eq.
  assert (Missing :
    forall r, r = Raise (bad_directory p false) ->
      (w_fault w (Exists p) = None -> OS.lookup (w_fs w) p = None) ->
      exists r0 calls,
        (r, add_call (Exists p) w) = (r0, add_calls calls w) /\
        (calls = [Exists p] \/ calls = [Exists p; IsDir p]) /\
        match r0 with
        | Return p' =>
            p' = p /\ calls = [Exists p; IsDir p] /\ accessible w p /\
            OS.is_dir (w_fs w) p = true
        | Raise e =>
            ((exists c, In c calls /\ w_fault w c = Some e /\
                        ignored_error e = false) \/
             (exists b, e = bad_directory p b)) /\
            ((forall c, In c calls -> w_fault w c = None) ->
             OS.is_dir (w_fs w) p = false /\
             exists b, e = bad_directory p b)
        | Diverge => False
        end).
  { intros r -> L. exists (Raise (bad_directory p false)), [Exists p].
    split; [reflexivity|]. split; [now left|]. split.
    - right. now exists false.
    - intros N. split; [|now exists false].
      unfold OS.is_dir. rewrite L; [reflexivity|]. apply N. now left. }
  destruct (w_fault w (Exists p)) as [e|] eqn:X.
  { destruct (ignored_error e) eqn:I; simpl.
    - apply Missing; [reflexivity | discriminate].
    - exists (Raise e), [Exists p]. split; [reflexivity|].
      split; [now left|]. split.
      + left. exists (Exists p). split; [now left | now split].
      + intros N. rewrite (N (Exists p)) in X; [discriminate | now left]. }
  destruct (OS.lookup (w_fs w) p) as [n|] eqn:L; simpl.
  2:{ apply Missing; [reflexivity | reflexivity]. }
  rewrite path_test_eq. simpl.
  assert (Calls : add_call (IsDir p) (add_call (Exists p) w)
                  = add_calls [Exists p; IsDir p] w).
  { unfold add_calls, add_call. simpl. now rewrite <- app_assoc. }
  rewrite Calls.
  assert (NotDir :
    (w_fault w (IsDir p) = None -> OS.is_dir (w_fs w) p = false) ->
    exists r0 calls,
      (@Raise Path (bad_directory p true), add_calls [Exists p; IsDir p] w)
      = (r0, add_calls calls w) /\
      (calls = [Exists p] \/ calls = [Exists p; IsDir p]) /\
      match r0 with
      | Return p' =>
          p' = p /\ calls = [Exists p; IsDir p] /\ accessible w p /\
          OS.is_dir (w_fs w) p = true
      | Raise e =>
          ((exists c, In c calls /\ w_fault w c = Some e /\
                      ignored_error e = false) \/
           (exists b, e = bad_directory p b)) /\
          ((forall c, In c calls -> w_fault w c = None) ->
           OS.is_dir (w_fs w) p = false /\
           exists b, e = bad_directory p b)
      | Diverge => False
      end).
  { intros D. exists (Raise (bad_directory p true)), [Exists p; IsDir p].
    split; [reflexivity|]. split; [now right|]. split.
    - right. now exists true.
    - intros N. split; [|now exists true].
      apply D. apply N. right. now left. }
  destruct (w_fault w (IsDir p)) as [e|] eqn:Y.
  { destruct (ignored_error e) eqn:I; simpl.
    - apply NotDir. discriminate.
    - exists (Raise e), [Exists p; IsDir p]. split; [reflexivity|].
      split; [now right|]. split.
      + left. exists (IsDir p). split; [right; now left | now split].
      + intros N. rewrite (N (IsDir p)) in Y; [discriminate|].
        right. now left. }
  destruct (OS.is_dir (w_fs w) p) eqn:D; simpl.
  - exists (Return p), [Exists p; IsDir p]. split; [reflexivity|].
    split; [now right|]. repeat split; assumption.
  - apply NotDir. reflexivity.
Qed.

Lemma correct_path_ok p w :
  accessible w p -> OS.is_dir (w_fs w) p = true ->
  correct_path p w = (Return p, add_calls [Exists p; IsDir p] w).
Proof.
  intros [X Y] D.
  destruct (correct_path_spec p w) as (r & calls & -> & C & H).
  destruct r as [p'|e|]; [| |contradiction].
  - destruct H as (-> & -> & _). reflexivity.
  - exfalso. destruct H as [_ H].
    destruct H as [H _]; [|congruence].
    intros c Hc. destruct C as [->| ->]; simpl in Hc;
      repeat destruct Hc as [<-|Hc]; try assumption; contradiction.
Qed.

Lemma bind_Return_inv {A B} (m : M A) (k : A -> M B) w b w' :
  bind m k w = (Return b, w') ->
  exists a w1, m w = (Return a, w1) /\ k a w1 = (Return b, w').
Proof.
  unfold bind. destruct (m w) as [[a|e|] w1]; try discriminate.
  intros H. now exists a, w1.
Qed.

Lemma correct_path_Return p w p' w' :
  correct_path p w = (Return p', w') ->
  p' = p /\ w' = add_calls [Exists p; IsDir p] w /\
  OS.is_dir (w_fs w) p = true /\ accessible w p.
Proof.
  destruct (correct_path_spec p w) as (r & calls & -> & C & H).
  intros [= -> <-]. destruct H as (-> & -> & A & D).
  split; [reflexivity|]. split; [reflexivity|]. split; assumption.
Qed.

Lemma parse_args_Return argv w a w' :
  parse_args argv w = (Return a, w') ->
  a = mk_args (source argv) (target argv) (wipe argv) /\
  w' = add_calls [Exists (source argv); IsDir (source argv);
                  Exists (target argv); IsDir (target argv)] w /\
  OS.is_dir (w_fs w) (source argv) = true /\
  OS.is_dir (w_fs w) (target argv) = true.
Proof.
  unfold parse_args. intros H.
  apply bind_Return_inv in H. destruct H as (s & w1 & Hs & H).
  apply bind_Return_inv in H. destruct H as (t & w2 & Ht & H).
  apply correct_path_Return in Hs. destruct Hs as (-> & -> & Ds & _).
  apply correct_path_Return in Ht. destruct Ht as (-> & -> & Dt & _).
  unfold ret in H. injection H as <- <-.
  rewrite add_calls_add_calls. now repeat split.
Qed.

Lemma parse_args_eq argv w :
  accessible w (source argv) -> accessible w (target argv) ->
  OS.is_dir (w_fs w) (source argv) = true ->
  OS.is_dir (w_fs w) (target argv) = true ->
  parse_args argv w =
  (Return (mk_args (source argv) (target argv) (wipe argv)),
   add_calls [Exists (source argv); IsDir (source argv);
              Exists (target argv); IsDir (target argv)] w).
Proof.
  unfold parse_args. intros As At Ds Dt.
  rewrite (bind_Return _ _ _ _ _ (correct_path_ok _ w As Ds)).
  rewrite (bind_Return _ _ _ _ _
             (correct_path_ok (target argv) (add_calls _ w) At Dt)).
  unfold ret. now rewrite add_calls_add_calls.
Qed.

Lemma forallb_path_tests p calls :
  calls = [Exists p] \/ calls = [Exists p; IsDir p] ->
  forallb is_path_test calls = true.
Proof. now intros [->| ->]. Qed.

(** X8. When the source or the target argument is not a directory, the
    script stops with an exception before any work: by then it has only
    tested paths, and nothing is scanned, copied, logged, read or removed.
    The exception is the error of a test that the system refuses, if that
    error is not one the test ignores, or else the [FileNotFoundError] of
    the script, which names the source or the target and says that it does
    not exist or is not a directory. When no test made is refused it is
    that [FileNotFoundError]; it names a path that is no directory, and the
    source is checked first. *)
Theorem main_rejects_a_bad_directory :
  forall argv w,
    OS.is_dir (w_fs w) (source argv) = false \/
    OS.is_dir (w_fs w) (target argv) = false ->
    exists e w' calls bad,
      main argv w = (Raise e, w') /\
      w_fs w' = w_fs w /\ w_log w' = w_log w /\ w_stdin w' = w_stdin w /\
      w_calls w' = w_calls w ++ calls /\
      forallb is_path_test calls = true /\
      (bad = source argv \/ bad = target argv) /\
      ((exists c, In c calls /\ w_fault w c = Some e /\
                  ignored_error e = false) \/
       e_class e = FileNotFoundError /\
       (e_msg e = (path_str bad ++ " does not exist")%string \/
        e_msg e = (path_str bad ++ " is not a directory")%string)) /\
      ((forall c, In c calls -> w_fault w c = None) ->
       e_class e = FileNotFoundError /\
       (e_msg e = (path_str bad ++ " does not exist")%string \/
        e_msg e = (path_str bad ++ " is not a directory")%string) /\
       OS.is_dir (w_fs w) bad = false /\
       (bad = source argv \/
        OS.is_dir (w_fs w) (source argv) = true /\ bad = target argv)).
Proof.
  intros argv w Bad. unfold main, parse_args.
  rewrite !bind_assoc. unfold bind at 1.
  assert (Msg : forall p b,
            e_class (bad_directory p b) = FileNotFoundError /\
            (e_msg (bad_directory p b) = (path_str p ++ " does not exist")%string \/
             e_msg (bad_directory p b)
             = (path_str p ++ " is not a directory")%string)).
  { intros p b. split; [reflexivity|]. destruct b; [now right | now left]. }
  destruct (correct_path_spec (source argv) w) as (r & cs & -> & Cs & Hs).
  destruct r as [s|e|]; [| |contradiction].
  2:{ exists e, (add_calls cs w), cs, (source argv).
      split; [reflexivity|]. repeat split.
      - now apply (forallb_path_tests (source argv)).
      - now left.
      - destruct Hs as [[R|(b & ->)] _]; [now left | right; apply Msg].
      - destruct Hs as [_ Hs]. destruct (Hs H) as (_ & b & ->). apply Msg.
      - destruct Hs as [_ Hs]. destruct (Hs H) as (_ & b & ->). apply Msg.
      - destruct Hs as [_ Hs]. now destruct (Hs H).
      - now left. }
  destruct Hs as (-> & -> & As & Ds).
  destruct Bad as [Bad|Bad]; [congruence|].
  rewrite bind_assoc. unfold bind at 1.
  destruct (correct_path_spec (target argv)
              (add_calls [Exists (source argv); IsDir (source argv)] w))
    as (r & ct & -> & Ct & Ht).
  rewrite add_calls_add_calls.
  destruct r as [t|e|]; [| |contradiction].
  { destruct Ht as (_ & _ & _ & Dt). simpl in Dt. congruence. }
  exists e, (add_calls ([Exists (source argv); IsDir (source argv)] ++ ct) w),
    ([Exists (source argv); IsDir (source argv)] ++ ct), (target argv).
  split; [reflexivity|]. simpl w_fault in Ht. simpl w_fs in Ht.
  repeat split.
  - simpl. now apply (forallb_path_tests (target argv)).
  - now right.
  - destruct Ht as [[(c & Hc & R)|(b & ->)] _]; [left | right; apply Msg].
    exists c. split; [|exact R]. apply in_app_iff. now right.
  - destruct Ht as [_ Ht]. destruct Ht as (_ & b & ->); [|apply Msg].
    intros c Hc. apply H. apply in_app_iff. now right.
  - destruct Ht as [_ Ht]. destruct Ht as (_ & b & ->); [|apply Msg].
    intros c Hc. apply H. apply in_app_iff. now right.
  - exact Bad.
  - right. now split.
Qed.

Lemma main_rejects_a_bad_directory_witness :
  exists w',
    main (mk_args Sample.floppy Sample.foo false)
      (Sample.world_of Sample.fs_fresh [] Sample.no_fault)
    = (Raise (mk_exn FileNotFoundError None
                "floppy/FOO.JPG is not a directory" []),
       w').
Proof.
  destruct (main_rejects_a_bad_directory
              (mk_args Sample.floppy Sample.foo false)
              (Sample.world_of Sample.fs_fresh [] Sample.no_fault))
    as (e & w' & _).
  - right. reflexivity.
  - eexists. cbv. reflexivity.
Defined.

(** What [parse_args] does: it tests paths and nothing else, and returns
    the arguments when all four tests say [True]. *)
Lemma parse_args_spec argv w :
  exists r calls,
    parse_args argv w = (r, add_calls calls w) /\
    forallb is_path_test calls = true /\
    match r with
    | Return a =>
        a = mk_args (source argv) (target argv) (wipe argv) /\
        calls = [Exists (source argv); IsDir (source argv);
                 Exists (target argv); IsDir (target argv)]
    | Raise e => True
    | Diverge => False
    end.
Proof.
  unfold parse_args. unfold bind at 1.
  destruct (correct_path_spec (source argv) w) as (r & cs & -> & Cs & Hs).
  destruct r as [s|e|]; [| |contradiction].
  2:{ exists (Raise e), cs. split; [reflexivity|].
      split; [now apply (forallb_path_tests (source argv)) | exact I]. }
  destruct Hs as (-> & -> & _). unfold bind at 1.
  destruct (correct_path_spec (target argv)
              (add_calls [Exists (source argv); IsDir (source argv)] w))
    as (r & ct & -> & Ct & Ht).
  rewrite add_calls_add_calls.
  destruct r as [t|e|]; [| |contradiction].
  - destruct Ht as (-> & -> & _). eexists. eexists.
    split; [reflexivity|]. split; [reflexivity|]. now split.
  - eexists. eexists. split; [reflexivity|]. split; [|exact I].
    simpl. now apply (forallb_path_tests (target argv)).
Qed.

(** X9. With the wipe flag set and a user other than root, the script
    always stops with an exception before any work: by then it has tested
    paths and at most asked for the user id - no scan, no copy, no log
    record, no removal. When the system answers the tests on the two
    directories, the exception is the [PermissionError] of the script, and
    it is raised as soon as both directories have been checked and the user
    id is known. *)
Theorem main_needs_root_to_wipe :
  forall argv w,
    OS.is_dir (w_fs w) (source argv) = true ->
    OS.is_dir (w_fs w) (target argv) = true ->
    wipe argv = true ->
    w_uid w <> 0 ->
    exists e w',
      main argv w = (Raise e, w') /\
      w_fs w' = w_fs w /\ w_log w' = w_log w /\ w_stdin w' = w_stdin w /\
      (exists calls,
         w_calls w' = w_calls w ++ calls /\
         forall c, In c calls -> is_path_test c = true \/ c = Getuid) /\
      (accessible w (source argv) -> accessible w (target argv) ->
       w' = add_calls [Exists (source argv); IsDir (source argv);
                       Exists (target argv); IsDir (target argv); Getuid] w /\
       e_class e = PermissionError).
Proof.
  intros argv w Ds Dt W U. unfold main. unfold bind at 1.
  destruct (parse_args_spec argv w) as (r & calls & P & T & H).
  destruct r as [a|e|]; [| |contradiction].
  - destruct H as (-> & ->). rewrite P. cbn [source target wipe].
    rewrite W. unfold bind, OS.getuid, OS.query, raise. simpl.
    destruct (w_uid w =? 0)%nat eqn:E;
      [apply Nat.eqb_eq in E; contradiction|].
    simpl. do 2 eexists. split; [reflexivity|]. simpl.
    repeat split.
    + eexists. split; [now rewrite <- app_assoc|].
      intros c Hc. simpl in Hc.
      repeat (destruct Hc as [<-|Hc]; [first [now left | now right]|]).
      contradiction.
    + unfold add_calls, add_call. simpl. now rewrite <- app_assoc.
  - rewrite P. exists e, (add_calls calls w).
    split; [reflexivity|]. simpl. repeat split.
    + exists calls. split; [reflexivity|]. intros c Hc. left.
      rewrite forallb_forall in T. now apply T.
    + rewrite (parse_args_eq argv w H0 H1 Ds Dt) in P.
      discriminate P.
    + rewrite (parse_args_eq argv w H0 H1 Ds Dt) in P.
      discriminate P.
Qed.

Lemma main_needs_root_to_wipe_witness :
  exists e,
    main (mk_args Sample.floppy Sample.pictures true)
      (mk_world Sample.fs_fresh 1000 Sample.utc ["yes"] Sample.no_fault [] [])
    = (Raise e,
       mk_world Sample.fs_fresh 1000 Sample.utc ["yes"] Sample.no_fault []
         [Exists Sample.floppy; IsDir Sample.floppy;
          Exists Sample.pictures; IsDir Sample.pictures; Getuid]) /\
    e_class e = PermissionError.
Proof.
  destruct (main_needs_root_to_wipe
              (mk_args Sample.floppy Sample.pictures true)
              (mk_world Sample.fs_fresh 1000 Sample.utc ["yes"]
                 Sample.no_fault [] []))
    as (e & w' & Run & _ & _ & _ & _ & H).
  - reflexivity.
  - reflexivity.
  - reflexivity.
  - simpl. lia.
  - destruct H as [-> C]; [split; reflexivity | split; reflexivity|].
    exists e. split; [exact Run | exact C].
Defined.

Lemma copy_phase_Return argv w a r w2 :
  copy_phase argv w = (Return (a, r), w2) ->
  a = mk_args (source argv) (target argv) (wipe argv) /\
  (wipe argv = true -> w_uid w = 0) /\
  OS.is_dir (w_fs w) (source argv) = true /\
  OS.is_dir (w_fs w) (target argv) = true.
Proof.
  unfold copy_phase. intros H.
  apply bind_Return_inv in H. destruct H as (a0 & w1 & Ha & H).
  apply parse_args_Return in Ha. destruct Ha as (-> & -> & Ds & Dt).
  apply bind_Return_inv in H. destruct H as ([] & w3 & Hg & H).
  apply bind_Return_inv in H. destruct H as (pics & w4 & _ & H).
  apply bind_Return_inv in H. destruct H as (names & w5 & _ & H).
  apply bind_Return_inv in H. destruct H as (r' & w6 & _ & H).
  unfold ret in H. injection H as <- _ _.
  split; [reflexivity|]. split; [|split; assumption].
  intros W. simpl in Hg. rewrite W in Hg.
  unfold bind, OS.getuid, OS.query, raise, ret in Hg. simpl in Hg.
  destruct (w_uid w =? 0)%nat eqn:E; [now apply Nat.eqb_eq in E|].
  discriminate.
Qed.

(** Without a [yes] at the prompt [wipe_disk] makes no call that deletes. *)
Lemma wipe_disk_unconfirmed disk w :
  (forall answer rest,
     w_stdin w = answer :: rest -> Str.lower answer <> "yes") ->
  exists cs,
    w_calls (snd (wipe_disk disk w)) = w_calls w ++ cs /\
    forallb (fun c => negb (is_deletion c)) cs = true.
Proof.
  intros No.
  unfold wipe_disk, bind, logging, OS.listdir, OS.list_directory, OS.input,
    OS.syscall, OS.syscall_with, bind, ret, OS.is_dir. simpl.
  destruct (w_fault w (Listdir disk)); simpl;
    [now exists [Listdir disk]|].
  destruct (OS.lookup (w_fs w) disk) as [n|]; simpl;
    [|now exists [Listdir disk]].
  destruct (n_is_dir n); simpl; [|now exists [Listdir disk]].
  destruct (w_fault w (Input "Type 'yes' to continue: ")); simpl.
  { exists [Listdir disk; Input wipe_prompt]. now rewrite <- app_assoc. }
  destruct (w_stdin w) as [|answer rest]; simpl.
  { exists [Listdir disk; Input wipe_prompt]. now rewrite <- app_assoc. }
  specialize (No answer rest eq_refl).
  destruct (String.eqb (Str.lower answer) "yes") eqn:Y.
  { apply String.eqb_eq in Y. contradiction. }
  simpl. exists [Listdir disk; Input wipe_prompt]. now rewrite <- app_assoc.
Qed.

Lemma starts_with_yes_dec (l : list string) :
  (exists answer rest, l = answer :: rest /\ Str.lower answer = "yes") \/
  (forall answer rest, l = answer :: rest -> Str.lower answer <> "yes").
Proof.
  destruct l as [|a l]; [right; discriminate|].
  destruct (string_dec (Str.lower a) "yes") as [Y|N].
  - left. now exists a, l.
  - right. now intros ? ? [= <- _].
Qed.

(** X10. In a run of the script, a call that deletes something ([remove] or
    [rmtree]) is made only if the wipe flag is set, the user is root, the
    copy phase has returned an empty failure list, and the line waiting at
    the prompt is [yes] in some mix of cases. *)
Theorem main_deletes_only_when_all_gates_pass :
  forall argv w calls c,
    w_calls (snd (main argv w)) = w_calls w ++ calls ->
    In c calls ->
    is_deletion c = true ->
    wipe argv = true /\
    w_uid w = 0 /\
    (exists answer rest,
       w_stdin w = answer :: rest /\ Str.lower answer = "yes") /\
    (exists a success_paths w2,
       copy_phase argv w = (Return (a, (success_paths, [])), w2)).
Proof.
  intros argv w calls c Calls Hc Del.
  pose proof (quiet_copy_phase argv w) as Q.
  rewrite main_eq in Calls. unfold bind in Calls.
  destruct (copy_phase argv w) as [[[a [s f]]|e|] w2] eqn:P; simpl in *;
    destruct Q as ((cs & C & N) & _ & _ & St).
  2,3: rewrite C in Calls; apply app_inv_head in Calls; subst cs;
       rewrite forallb_forall in N; specialize (N c Hc);
       now destruct c.
  assert (Quiet : forall x, In x cs -> is_deletion x = false).
  { intros x Hx. rewrite forallb_forall in N. specialize (N x Hx).
    now destruct x. }
  destruct (copy_phase_Return _ _ _ _ _ P) as (Ea & U & _).
  assert (Stop : calls = cs -> False).
  { intros ->. rewrite (Quiet c Hc) in Del. discriminate. }
  destruct (wipe a) eqn:W.
  2:{ exfalso. apply Stop. simpl in Calls. rewrite C in Calls.
      now apply app_inv_head in Calls. }
  destruct f as [|p f].
  2:{ exfalso. apply Stop. simpl in Calls. rewrite C in Calls.
      now apply app_inv_head in Calls. }
  assert (Wa : wipe argv = true) by (rewrite Ea in W; exact W).
  split; [exact Wa|]. split; [now apply U|]. split; [|now exists a, s, w2].
  rewrite <- St.
  destruct (starts_with_yes_dec (w_stdin w2)) as [Y|No]; [exact Y|exfalso].
  destruct (wipe_disk_unconfirmed (source a) w2 No) as (ws & Cw & Nw).
  rewrite Cw, C, <- app_assoc in Calls. apply app_inv_head in Calls.
  subst calls. apply in_app_iff in Hc. destruct Hc as [Hc|Hc].
  - rewrite (Quiet c Hc) in Del. discriminate.
  - rewrite forallb_forall in Nw. specialize (Nw c Hc).
    rewrite Del in Nw. discriminate.
Qed.

Lemma main_deletes_only_when_all_gates_pass_witness :
  wipe (mk_args Sample.floppy Sample.pictures true) = true /\
  w_uid (Sample.world_of Sample.fs_fresh ["Yes"] Sample.no_fault) = 0 /\
  (exists answer rest,
     w_stdin (Sample.world_of Sample.fs_fresh ["Yes"] Sample.no_fault)
     = answer :: rest /\ Str.lower answer = "yes") /\
  (exists a success_paths w2,
     copy_phase (mk_args Sample.floppy Sample.pictures true)
       (Sample.world_of Sample.fs_fresh ["Yes"] Sample.no_fault)
     = (Return (a, (success_paths, [])), w2)).
Proof.
  apply (main_deletes_only_when_all_gates_pass
           (mk_args Sample.floppy Sample.pictures true)
           (Sample.world_of Sample.fs_fresh ["Yes"] Sample.no_fault)
           (w_calls
              (snd (main (mk_args Sample.floppy Sample.pictures true)
                      (Sample.world_of Sample.fs_fresh ["Yes"]
                         Sample.no_fault))))
           (Remove Sample.foo)).
  - reflexivity.
  - vm_compute.
    repeat match goal with
           | |- _ \/ _ => first [left; reflexivity | right]
           end.
  - reflexivity.
Defined.

(** ** A confirmed wipe *)

Lemma child_length fs d p :
  In p (OS.children fs d) -> p = joinpath d (name p) /\
  List.length p = S (List.length d).
Proof.
  intros H. apply children_In in H. destruct H as (_ & N & P).
  assert (E : p = joinpath d (name p)).
  { unfold joinpath, name. rewrite <- P. unfold parent.
    now apply app_removelast_last. }
  split; [exact E|]. rewrite E at 1. unfold joinpath.
  rewrite length_app. simpl. lia.
Qed.

Lemma substring_none (s : string) :
  substring (String.length s) 0 s = EmptyString.
Proof. induction s as [|c s IH]; simpl; [reflexivity | exact IH]. Qed.

Lemma fnmatch_star nm : fnmatch nm "*" true = true.
Proof.
  unfold fnmatch, Str.endswith, Str.drop. simpl.
  rewrite Nat.sub_0_r, Nat.sub_diag. now rewrite substring_none.
Qed.

Lemma glob_star disk w :
  w_fault w (Glob disk "*") = None ->
  w_fault w (Scandir disk) = None ->
  OS.is_dir (w_fs w) disk = true ->
  OS.glob disk "*" true w
  = (Return (OS.children (w_fs w) disk), add_call (Glob disk "*") w).
Proof.
  intros G S D.
  destruct (glob_spec disk "*" true w) as (r & -> & H).
  destruct r as [ps|e|]; [| |contradiction].
  - destruct H as [_ H]. rewrite (H G S D).
    assert (E : forall l : list Path,
              filter (fun p => fnmatch (name p) "*" true) l = l).
    { induction l as [|p l IH]; [reflexivity|].
      cbn [filter]. rewrite fnmatch_star. now rewrite IH. }
    now rewrite E.
  - destruct H as [[H _]|(_ & _ & H & _)]; congruence.
Qed.

Lemma listdir_eq d w :
  w_fault w (Listdir d) = None ->
  OS.is_dir (w_fs w) d = true ->
  OS.listdir d w
  = (Return (map name (OS.children (w_fs w) d)), add_call (Listdir d) w).
Proof.
  unfold OS.is_dir, OS.listdir, OS.list_directory, OS.syscall,
    OS.syscall_with, bind, ret.
  simpl. intros -> D.
  destruct (OS.lookup (w_fs w) d) as [n|]; [|discriminate]. now rewrite D.
Qed.

Lemma input_eq prompt w answer rest :
  w_fault w (Input prompt) = None ->
  w_stdin w = answer :: rest ->
  OS.input prompt w
  = (Return answer, set_stdin rest (add_call (Input prompt) w)).
Proof.
  unfold OS.input, OS.syscall, OS.syscall_with. simpl. now intros -> ->.
Qed.

(** What [wipe_disk] does up to its loop, when the answer is [yes]. *)
Lemma wipe_disk_yes disk w answer rest :
  w_stdin w = answer :: rest ->
  Str.lower answer = "yes" ->
  w_fault w (Listdir disk) = None ->
  w_fault w (Input wipe_prompt) = None ->
  w_fault w (Glob disk "*") = None ->
  w_fault w (Scandir disk) = None ->
  OS.is_dir (w_fs w) disk = true ->
  exists w0,
    wipe_disk disk w =
      for_each (OS.children (w_fs w) disk)
        (fun path =>
           d <- OS.path_is_dir path ;;
           (if d then OS.rmtree path else OS.remove path) ;;
           logging INFO (path_str path ++ " removed")) w0 /\
    w_fs w0 = w_fs w /\ w_fault w0 = w_fault w /\ w_gone w0 = w_gone w /\
    w_stdin w0 = rest /\
    w_calls w0 = w_calls w ++ [Listdir disk; Input wipe_prompt; Glob disk "*"] /\
    w_log w0 =
      w_log w ++
      wipe_warnings disk (map name (OS.children (w_fs w) disk)).
Proof.
  intros In_ Y Fl Fi Fg Fs Dir.
  eexists. split.
  - unfold wipe_disk.
    rewrite (bind_Return (logging _ _) _ _ tt _ eq_refl).
    rewrite (bind_Return (logging _ _) _ _ tt _ eq_refl).
    match goal with
    | |- bind (OS.listdir _) _ ?w1 = _ =>
        rewrite (bind_Return _ _ w1 _ _ (listdir_eq disk w1 Fl Dir))
    end.
    rewrite (bind_Return (logging _ _) _ _ tt _ eq_refl).
    match goal with
    | |- bind (OS.input ?pr) _ ?w1 = _ =>
        rewrite (bind_Return _ _ w1 _ _ (input_eq pr w1 answer rest Fi In_))
    end.
    rewrite Y, String.eqb_refl.
    match goal with
    | |- bind (OS.glob _ _ _) _ ?w1 = _ =>
        rewrite (bind_Return _ _ w1 _ _ (glob_star disk w1 Fg Fs Dir))
    end.
    reflexivity.
  - simpl. repeat split.
    + now rewrite <- !app_assoc.
    + unfold wipe_warnings. now rewrite <- !app_assoc.
Qed.

Lemma removed_gone fs c n t : OS.lookup (removed fs c n t) c = None.
Proof.
  unfold removed, OS.unlink, OS.unlink_tree.
  destruct (n_is_dir n); rewrite lookup_touch.
  - rewrite lookup_delete_tree, is_prefix_refl.
    now destruct (path_eqb c (parent c)).
  - rewrite lookup_delete, path_eqb_refl.
    now destruct (path_eqb c (parent c)).
Qed.

(** Outside the entry removed all is as it was, but for the modification
    time of its directory. *)
Lemma removed_keep fs c n t q :
  OS.is_prefix c q = false ->
  (q <> parent c -> OS.lookup (removed fs c n t) q = OS.lookup fs q) /\
  same_but_mtime (OS.lookup fs q) (OS.lookup (removed fs c n t) q).
Proof.
  intros P.
  assert (K : OS.lookup (if n_is_dir n then OS.delete_tree fs c
                         else OS.delete fs c) q = OS.lookup fs q).
  { destruct (n_is_dir n).
    - now rewrite lookup_delete_tree, P.
    - rewrite lookup_delete. destruct (path_eqb c q) eqn:E; [|reflexivity].
      apply path_eqb_eq in E. subst q. now rewrite is_prefix_refl in P. }
  assert (E : OS.lookup (removed fs c n t) q
              = if path_eqb q (parent c)
                then option_map (OS.set_mtime t) (OS.lookup fs q)
                else OS.lookup fs q).
  { unfold removed, OS.unlink, OS.unlink_tree.
    destruct (n_is_dir n); rewrite lookup_touch, K; reflexivity. }
  rewrite E. destruct (path_eqb q (parent c)) eqn:Q.
  - apply path_eqb_eq in Q. split; [contradiction|].
    apply same_but_mtime_touched.
  - split; [reflexivity | apply same_but_mtime_refl].
Qed.

Lemma removed_paths fs c n t :
  incl (fs_paths (removed fs c n t)) (fs_paths fs).
Proof.
  unfold removed, OS.unlink, OS.unlink_tree.
  destruct (n_is_dir n); rewrite fs_paths_touch; apply filter_paths_incl.
Qed.

(** One round of the loop of [wipe_disk] for an entry that is there, when
    the system refuses nothing. *)
Lemma wipe_round c w n :
  OS.lookup (w_fs w) c = Some n ->
  w_fault w (IsDir c) = None ->
  w_fault w (Rmtree c) = None -> w_fault w (Remove c) = None ->
  exists t,
    (d <- OS.path_is_dir c ;;
     (if d then OS.rmtree c else OS.remove c) ;;
     logging INFO (path_str c ++ " removed")) w
    = (Return tt,
       add_logs [(INFO, (path_str c ++ " removed")%string)]
         (set_fs (removed (w_fs w) c n t)
            (add_calls [IsDir c; if n_is_dir n then Rmtree c else Remove c]
               w))).
Proof.
  intros L Fd F1 F2.
  unfold bind, OS.path_is_dir. rewrite path_test_eq, Fd.
  unfold OS.is_dir, removed. rewrite L.
  destruct (n_is_dir n) eqn:D.
  - unfold OS.rmtree, OS.syscall_with, logging. simpl. rewrite F1, L, D.
    eexists. unfold add_logs, add_log, set_fs, add_calls, add_call. simpl.
    rewrite <- app_assoc. reflexivity.
  - unfold OS.remove, OS.syscall, OS.syscall_with, logging. simpl.
    rewrite F2, L, D.
    eexists. unfold add_logs, add_log, set_fs, add_calls, add_call. simpl.
    rewrite <- app_assoc. reflexivity.
Qed.

(** The loop of [wipe_disk] over entries [cs] of the directory [dir] that
    all exist and can be removed. *)
Lemma wipe_loop_spec (dir : Path) cs :
  forall w,
    (forall c, In c cs ->
               w_fault w (IsDir c) = None /\
               w_fault w (Rmtree c) = None /\ w_fault w (Remove c) = None) ->
    NoDup cs ->
    (forall c, In c cs -> OS.lookup (w_fs w) c <> None) ->
    (forall c, In c cs -> c = joinpath dir (name c)) ->
    exists w',
      for_each cs
        (fun path =>
           d <- OS.path_is_dir path ;;
           (if d then OS.rmtree path else OS.remove path) ;;
           logging INFO (path_str path ++ " removed")) w
      = (Return tt, w') /\
      (forall c, In c cs -> OS.lookup (w_fs w') c = None) /\
      (forall q, (forall c, In c cs -> OS.is_prefix c q = false) ->
                 (q <> dir -> OS.lookup (w_fs w') q = OS.lookup (w_fs w) q) /\
                 same_but_mtime (OS.lookup (w_fs w) q)
                   (OS.lookup (w_fs w') q)) /\
      incl (fs_paths (w_fs w')) (fs_paths (w_fs w)) /\
      w_log w' =
        w_log w ++
        map (fun c => (INFO, (path_str c ++ " removed")%string)) cs /\
      w_stdin w' = w_stdin w /\
      w_fault w' = w_fault w /\ w_gone w' = w_gone w.
Proof.
  induction cs as [|c cs IH]; intros w Hf ND Hex Hdir.
  - exists w. unfold for_each. simpl. rewrite app_nil_r.
    repeat split; try tauto; try apply incl_refl.
    apply same_but_mtime_refl.
  - destruct (OS.lookup (w_fs w) c) as [n|] eqn:L;
      [|now elim (Hex c (or_introl eq_refl))].
    inversion ND as [|? ? Nc ND']; subst.
    destruct (Hf c (or_introl eq_refl)) as (Fd & F1 & F2).
    destruct (wipe_round c w n L Fd F1 F2) as (t & Step).
    set (fs1 := removed (w_fs w) c n t) in *.
    set (w1 := add_logs _ _) in Step.
    assert (Pc : parent c = dir).
    { rewrite (Hdir c (or_introl eq_refl)). apply parent_joinpath. }
    assert (Other : forall c', In c' cs -> OS.is_prefix c c' = false).
    { intros c' Hc'. destruct (OS.is_prefix c c') eqn:P; [|reflexivity].
      exfalso. apply Nc. apply is_prefix_same_length in P.
      - now subst c'.
      - rewrite (Hdir c (or_introl eq_refl)), (Hdir c' (or_intror Hc')).
        unfold joinpath. rewrite !length_app. reflexivity. }
    assert (NotDir : forall c', In c' cs -> c' <> dir).
    { intros c' Hc' E. pose proof (Hdir c' (or_intror Hc')) as J.
      apply (f_equal (@List.length string)) in J.
      unfold joinpath in J. rewrite length_app, E in J. simpl in J. lia. }
    destruct (IH w1) as (w' & Run & G & K & S & Lg & St & Fx & Gx).
    + intros c' Hc'. apply Hf. now right.
    + exact ND'.
    + intros c' Hc'. simpl.
      destruct (removed_keep (w_fs w) c n t c' (Other c' Hc')) as [E _].
      fold fs1 in E. rewrite E.
      * apply Hex. now right.
      * rewrite Pc. now apply NotDir.
    + intros c' Hc'. apply Hdir. now right.
    + exists w'.
      split; [|split; [|split; [|split; [|split; [|split; [|split]]]]]].
      * rewrite for_each_cons. now rewrite (bind_Return _ _ _ _ _ Step).
      * intros c' [<-|Hc']; [|now apply G].
        apply lookup_None. intros C. apply S in C. simpl in C.
        apply (proj1 (lookup_None _ _) (removed_gone (w_fs w) c n t)).
        exact C.
      * intros q Hq.
        destruct (K q) as [K1 K2]; [intros c' Hc'; apply Hq; now right|].
        destruct (removed_keep (w_fs w) c n t q (Hq c (or_introl eq_refl)))
          as [R1 R2].
        rewrite Pc in R1. split.
        -- intros N. rewrite (K1 N). simpl. now apply R1.
        -- eapply same_but_mtime_trans; [exact R2 | exact K2].
      * eapply incl_tran; [exact S | apply removed_paths].
      * rewrite Lg. simpl. now rewrite <- app_assoc.
      * exact St.
      * exact Fx.
      * exact Gx.
Qed.

Lemma wipe_disk_confirmed :
  forall disk_path w answer rest,
    w_stdin w = answer :: rest ->
    Str.lower answer = "yes" ->
    (forall c, is_wipe_step c = true -> w_fault w c = None) ->
    OS.is_dir (w_fs w) disk_path = true ->
    NoDup (OS.children (w_fs w) disk_path) ->
    exists w',
      wipe_disk disk_path w = (Return tt, w') /\
      OS.children (w_fs w') disk_path = [] /\
      (forall c, In c (OS.children (w_fs w) disk_path) ->
                 OS.lookup (w_fs w') c = None /\
                 In (INFO, (path_str c ++ " removed")%string) (w_log w')) /\
      (forall q, OS.is_prefix disk_path q = false ->
                 OS.lookup (w_fs w') q = OS.lookup (w_fs w) q) /\
      same_but_mtime (OS.lookup (w_fs w) disk_path)
        (OS.lookup (w_fs w') disk_path) /\
      w_stdin w' = rest.
Proof.
  intros disk w answer rest In_ Y Hf Dir ND.
  set (cs := OS.children (w_fs w) disk) in *.
  destruct (wipe_disk_yes disk w answer rest In_ Y
              (Hf (Listdir disk) eq_refl) (Hf (Input wipe_prompt) eq_refl)
              (Hf (Glob disk "*") eq_refl) (Hf (Scandir disk) eq_refl) Dir)
    as (w0 & Pre & F0 & X0 & _ & S0 & _ & L0).
  fold cs in Pre, L0.
  destruct (wipe_loop_spec disk cs w0)
    as (w' & Run & Gone & Keep & Sub & Lg & St & _).
  { intros p _. rewrite X0. repeat split; now apply Hf. }
  { exact ND. }
  { intros c Hc. rewrite F0. intros C. apply lookup_None in C. apply C.
    apply children_In in Hc. tauto. }
  { intros c Hc. now apply child_length in Hc. }
  assert (Out : forall q, OS.is_prefix disk q = false ->
                          forall c, In c cs -> OS.is_prefix c q = false).
  { intros q Hq c Hc. destruct (OS.is_prefix c q) eqn:P; [|reflexivity].
    apply child_length in Hc. destruct Hc as [E _]. rewrite E in P.
    unfold joinpath in P. apply is_prefix_app in P. congruence. }
  exists w'. split; [now rewrite Pre|]. split; [|split; [|split; [|split]]].
  - destruct (OS.children (w_fs w') disk) as [|p l] eqn:C; [reflexivity|].
    exfalso. assert (Hp : In p (OS.children (w_fs w') disk))
      by (rewrite C; now left).
    apply children_In in Hp. destruct Hp as (Hp & N & P).
    assert (In p cs).
    { apply children_In. split; [|tauto]. rewrite <- F0. now apply Sub. }
    apply (proj1 (lookup_None _ _) (Gone p H)). exact Hp.
  - intros c Hc. split; [now apply Gone|].
    rewrite Lg. apply in_app_iff. right.
    apply in_map_iff. now exists c.
  - intros q Hq. rewrite <- F0. apply Keep; [now apply Out|].
    intros ->. now rewrite is_prefix_refl in Hq.
  - rewrite <- F0. apply Keep. intros c Hc.
    destruct (OS.is_prefix c disk) eqn:P; [|reflexivity].
    apply is_prefix_length in P. apply child_length in Hc. lia.
  - now rewrite St.
Qed.

(** X11. When the line read at the prompt is [yes] in some mix of cases and
    the system refuses none of the calls of the wipe, [wipe_disk] returns
    having removed every entry that lay directly in the directory - files
    and whole subdirectories - with one log record per entry. Everything
    outside the directory stays as it is; the directory itself stays, a
    directory of the same owner, and only its modification time changes
    with the removals. *)
Theorem wipe_confirmed_empties_the_directory :
  forall disk_path w answer rest,
    w_stdin w = answer :: rest ->
    Str.lower answer = "yes" ->
    (forall c, is_wipe_step c = true -> w_fault w c = None) ->
    OS.is_dir (w_fs w) disk_path = true ->
    NoDup (OS.children (w_fs w) disk_path) ->
    exists w',
      wipe_disk disk_path w = (Return tt, w') /\
      OS.children (w_fs w') disk_path = [] /\
      (forall c, In c (OS.children (w_fs w) disk_path) ->
                 OS.lookup (w_fs w') c = None /\
                 In (INFO, (path_str c ++ " removed")%string) (w_log w')) /\
      (forall q, OS.is_prefix disk_path q = false ->
                 OS.lookup (w_fs w') q = OS.lookup (w_fs w) q) /\
      same_but_mtime (OS.lookup (w_fs w) disk_path)
        (OS.lookup (w_fs w') disk_path) /\
      w_stdin w' = rest.
Proof. exact wipe_disk_confirmed. Qed.

Lemma wipe_confirmed_empties_the_directory_witness :
  exists w',
    wipe_disk Sample.floppy
      (Sample.world_of Sample.fs_fresh ["YES"] Sample.no_fault)
    = (Return tt, w') /\
    OS.children (w_fs w') Sample.floppy = [] /\
    OS.lookup (w_fs w') Sample.pictures = Some Sample.directory /\
    OS.is_dir (w_fs w') Sample.floppy = true.
Proof.
  destruct (wipe_confirmed_empties_the_directory Sample.floppy
              (Sample.world_of Sample.fs_fresh ["YES"] Sample.no_fault)
              "YES" [])
    as (w' & Run & Empty & _ & Out & Self & _).
  - reflexivity.
  - reflexivity.
  - reflexivity.
  - reflexivity.
  - cbv. repeat constructor; simpl; intuition discriminate.
  - exists w'. split; [exact Run|]. split; [exact Empty|].
    split; [now rewrite (Out Sample.pictures eq_refl)|].
    unfold OS.is_dir. simpl in Self.
    destruct (OS.lookup (w_fs w') Sample.floppy) as [n|]; [|contradiction].
    now destruct Self as (D & _).
Defined.

(** ** A source directory without pictures *)

(** With no entry that matches, the Scanner finds nothing, unless the
    [glob] raises. *)
Lemma find_pictures_none d w :
  (forall p, In p (OS.children (w_fs w) d) ->
             fnmatch (name p) "*.jpg" false = false) ->
  find_pictures d w
  = (Return [],
     add_logs [(INFO, "0 pictures found")] (add_call (Glob d "*.jpg") w)) \/
  exists e,
    find_pictures d w = (Raise e, add_call (Glob d "*.jpg") w) /\
    (w_fault w (Glob d "*.jpg") = Some e /\ ignored_error e = false \/
     w_fault w (Scandir d) = Some e /\ is_OSError e = false).
Proof.
  intros H. rewrite find_pictures_eq.
  destruct (glob_spec d "*.jpg" false w) as (r & -> & R).
  destruct r as [ps|e|]; [| |contradiction].
  - left. destruct ps as [|p ps]; [reflexivity|]. exfalso.
    destruct R as [R _]. destruct (R p (or_introl eq_refl)) as [C M].
    rewrite (H p C) in M. discriminate.
  - right. exists e. split; [reflexivity|].
    destruct R as [[G I]|(_ & _ & S & I)]; [left | right]; now split.
Qed.

Lemma iterdir_eq d w :
  w_fault w (Iterdir d) = None ->
  OS.is_dir (w_fs w) d = true ->
  OS.iterdir d w = (Return (OS.children (w_fs w) d), add_call (Iterdir d) w).
Proof.
  unfold OS.is_dir, OS.iterdir, OS.list_directory, OS.syscall,
    OS.syscall_with.
  simpl. intros -> D.
  destruct (OS.lookup (w_fs w) d) as [n|]; [|discriminate]. now rewrite D.
Qed.

(** X12. With nothing in the source directory that matches [*.jpg], a run
    without the wipe flag copies nothing: whether it returns or a test
    raises, the file system is as before and nothing is read from standard
    input. When the system answers the path tests and the scan does not
    raise, the run returns; the only calls are the path tests, the scan and
    the listing of the target, and the log says that 0 pictures were found
    and 0 of 0 files copied. *)
Theorem main_with_no_pictures_copies_nothing :
  forall argv w,
    OS.is_dir (w_fs w) (source argv) = true ->
    OS.is_dir (w_fs w) (target argv) = true ->
    wipe argv = false ->
    w_fault w (Iterdir (target argv)) = None ->
    (forall p, In p (OS.children (w_fs w) (source argv)) ->
               fnmatch (name p) "*.jpg" false = false) ->
    w_fs (snd (main argv w)) = w_fs w /\
    w_stdin (snd (main argv w)) = w_stdin w /\
    (accessible w (source argv) -> accessible w (target argv) ->
     (forall e, w_fault w (Glob (source argv) "*.jpg") = Some e ->
                ignored_error e = true) ->
     (forall e, w_fault w (Scandir (source argv)) = Some e ->
                is_OSError e = true) ->
     exists w',
       main argv w = (Return tt, w') /\
       w_fs w' = w_fs w /\ w_stdin w' = w_stdin w /\
       w_calls w' =
         w_calls w ++
         [Exists (source argv); IsDir (source argv);
          Exists (target argv); IsDir (target argv);
          Glob (source argv) "*.jpg"; Iterdir (target argv)] /\
       w_log w' =
         w_log w ++
         [(INFO, "0 pictures found");
          (INFO, "Successfully copied 0/0 files:")]).
Proof.
  intros argv w Ds Dt W Fi None_.
  assert (Names : forall w1,
            w_fault w1 (Iterdir (target argv)) = None ->
            OS.is_dir (w_fs w1) (target argv) = true ->
            create_target_filenames (target argv) [] w1
            = (Return [], add_call (Iterdir (target argv)) w1)).
  { intros w1 F1 D1. unfold create_target_filenames.
    now rewrite (bind_Return _ _ w1 _ _ (iterdir_eq _ w1 F1 D1)). }
  assert (Rest : forall w1,
            w_fs w1 = w_fs w -> w_fault w1 = w_fault w ->
            find_pictures (source argv) w1
            = (Return [],
               add_logs [(INFO, "0 pictures found")]
                 (add_call (Glob (source argv) "*.jpg") w1)) ->
            bind (find_pictures (source argv))
              (fun pictures_paths =>
                 target_filenames <-
                   create_target_filenames (target argv) pictures_paths ;;
                 r <- copy_files target_filenames (target argv) ;;
                 let '(_, fail_paths) := r in
                 if false then
                   match fail_paths with
                   | _ :: _ =>
                       logging WARNING
                         "Aborting wiping the disk - some files were not copied"
                   | [] => wipe_disk (source argv)
                   end
                 else ret tt) w1
            = (Return tt,
               add_logs [(INFO, "0 pictures found");
                         (INFO, "Successfully copied 0/0 files:")]
                 (add_calls [Glob (source argv) "*.jpg";
                             Iterdir (target argv)] w1))).
  { intros w1 F1 X1 Found.
    rewrite (bind_Return _ _ _ _ _ Found).
    match goal with
    | |- bind (create_target_filenames _ _) _ ?w2 = _ =>
        rewrite (bind_Return _ _ w2 _ _ (Names w2
                   ltac:(simpl; rewrite X1; exact Fi)
                   ltac:(simpl; rewrite F1; exact Dt)))
    end.
    unfold bind, copy_files, ret. simpl.
    unfold add_logs, add_log, add_calls, add_call. simpl.
    now rewrite <- !app_assoc. }
  assert (Cases :
    (exists e w',
       main argv w = (Raise e, w') /\
       w_fs w' = w_fs w /\ w_stdin w' = w_stdin w /\
       (accessible w (source argv) -> accessible w (target argv) ->
        (forall e, w_fault w (Glob (source argv) "*.jpg") = Some e ->
                   ignored_error e = true) ->
        (forall e, w_fault w (Scandir (source argv)) = Some e ->
                   is_OSError e = true) -> False)) \/
    main argv w
    = (Return tt,
       add_logs [(INFO, "0 pictures found");
                 (INFO, "Successfully copied 0/0 files:")]
         (add_calls [Exists (source argv); IsDir (source argv);
                     Exists (target argv); IsDir (target argv);
                     Glob (source argv) "*.jpg"; Iterdir (target argv)] w))).
  { destruct (parse_args_spec argv w) as (r & calls & P & T & H).
    destruct r as [a|e|]; [| |contradiction].
    2:{ left. exists e, (add_calls calls w).
        split; [unfold main; now apply bind_Raise|].
        split; [reflexivity|]. split; [reflexivity|].
        intros As At _ _.
        rewrite (parse_args_eq argv w As At Ds Dt) in P. discriminate P. }
    destruct H as (-> & ->).
    set (w1 := add_calls [Exists (source argv); IsDir (source argv);
                          Exists (target argv); IsDir (target argv)] w)
      in *.
    destruct (find_pictures_none (source argv) w1 None_)
      as [Found|(e & Found & Why)].
    - right. unfold main. rewrite (bind_Return _ _ _ _ _ P).
      cbn [source target wipe]. rewrite W.
      rewrite (bind_Return (ret tt) _ _ tt _ eq_refl).
      rewrite (Rest w1 eq_refl eq_refl Found).
      unfold w1. now rewrite add_calls_add_calls.
    - left. exists e, (add_call (Glob (source argv) "*.jpg") w1).
      split; [|split; [reflexivity|split; [reflexivity|]]].
      + unfold main. rewrite (bind_Return _ _ _ _ _ P).
        cbn [source target wipe]. rewrite W.
        rewrite (bind_Return (ret tt) _ _ tt _ eq_refl).
        now apply bind_Raise.
      + intros _ _ Hg Hs. destruct Why as [[G I]|[S I]].
        * rewrite (Hg e G) in I. discriminate.
        * rewrite (Hs e S) in I. discriminate. }
  destruct Cases as [(e & w' & Run & F & St & No)|Run]; rewrite Run.
  - split; [exact F|]. split; [exact St|].
    intros As At Hg Hs. now elim (No As At Hg Hs).
  - split; [reflexivity|]. split; [reflexivity|]. intros _ _ _ _.
    eexists. split; [reflexivity|]. now repeat split.
Qed.

Lemma main_with_no_pictures_copies_nothing_witness :
  exists w',
    main (mk_args Sample.pictures Sample.floppy false)
      (Sample.world_of Sample.fs_fresh [] Sample.no_fault)
    = (Return tt, w') /\
    w_fs w' = Sample.fs_fresh.
Proof.
  destruct (main_with_no_pictures_copies_nothing
              (mk_args Sample.pictures Sample.floppy false)
              (Sample.world_of Sample.fs_fresh [] Sample.no_fault))
    as (_ & _ & H).
  - reflexivity.
  - reflexivity.
  - reflexivity.
  - reflexivity.
  - cbv. tauto.
  - destruct H as (w' & Run & F & _).
    + split; reflexivity.
    + split; reflexivity.
    + intros e C. discriminate C.
    + intros e C. discriminate C.
    + exists w'. now split.
Defined.

(** ** The shape of a timestamp *)

Lemma two_digits (n : nat) :
  n < 100 ->
  exists a b,
    (if (n <? 10)%nat then ("0" ++ Str.of_nat n)%string else Str.of_nat n)
    = String a (String b EmptyString) /\
    is_digit a = true /\ is_digit b = true.
Proof.
  intros H.
  do 100 (destruct n as [|n];
          [do 2 eexists; split; [reflexivity | split; reflexivity]|]).
  lia.
Qed.

Lemma pad2_two_digits (z : Z) :
  exists a b,
    pad2 z = String a (String b EmptyString) /\
    is_digit a = true /\ is_digit b = true.
Proof.
  unfold pad2. apply two_digits.
  pose proof (Z.mod_pos_bound z 100 ltac:(lia)). lia.
Qed.

(** X13. A timestamp that [extract_timestamp] returns always has the shape
    [YYMMDD_HHMMSS]: thirteen characters, an underscore in the middle and a
    decimal digit everywhere else, whatever the modification time. *)
Theorem timestamp_has_thirteen_characters :
  forall path w timestamp w',
    extract_timestamp path w = (Return timestamp, w') ->
    String.length timestamp = 13 /\
    String.get 6 timestamp = Some "_"%char /\
    forall i, i < 13 -> i <> 6 ->
      exists c, String.get i timestamp = Some c /\ is_digit c = true.
Proof.
  intros p w ts w' E. apply extract_timestamp_inv in E.
  destruct E as (_ & n & d & _ & _ & <-). unfold strftime.
  destruct (pad2_two_digits (year d)) as (a1 & b1 & -> & A1 & B1).
  destruct (pad2_two_digits (month d)) as (a2 & b2 & -> & A2 & B2).
  destruct (pad2_two_digits (day d)) as (a3 & b3 & -> & A3 & B3).
  destruct (pad2_two_digits (hour d)) as (a4 & b4 & -> & A4 & B4).
  destruct (pad2_two_digits (minute d)) as (a5 & b5 & -> & A5 & B5).
  destruct (pad2_two_digits (second d)) as (a6 & b6 & -> & A6 & B6).
  simpl. split; [reflexivity|]. split; [reflexivity|].
  intros i Hi Ni.
  do 13 (destruct i as [|i];
         [first [ now elim Ni
                | eexists; split; [reflexivity | assumption] ]|]).
  lia.
Qed.

Lemma timestamp_has_thirteen_characters_witness :
  String.length "200101_120000" = 13.
Proof.
  refine (proj1 (timestamp_has_thirteen_characters Sample.bar
                   (Sample.world_of Sample.fs_fresh [] Sample.no_fault)
                   "200101_120000" _ _)).
  cbv. reflexivity.
Defined.

(** ** What a copy holds *)

(** When both files of a copy can be opened, the source is a file and the
    destination is in a directory and is none itself. *)
Lemma copy2_open_inr fs src dst n :
  OS.copy2_open fs src dst = inr n ->
  OS.lookup fs src = Some n /\ n_is_dir n = false /\
  OS.is_dir fs (OS.copy2_target fs src dst) = false /\
  OS.is_dir fs (parent (OS.copy2_target fs src dst)) = true.
Proof.
  unfold OS.copy2_open.
  destruct (OS.lookup fs src) as [m|]; [|discriminate].
  destruct (path_eqb src _); [discriminate|].
  destruct (n_is_dir m) eqn:Dm; [discriminate|].
  destruct (OS.is_dir fs (OS.copy2_target fs src dst)) eqn:Dd;
    [discriminate|].
  unfold OS.is_dir at 1.
  destruct (OS.lookup fs (parent _)) as [d|]; [|discriminate].
  destruct (n_is_dir d); [|discriminate].
  intros [= <-]. now repeat split.
Qed.

Lemma not_its_parent fs p :
  OS.is_dir fs p = false -> OS.is_dir fs (parent p) = true -> p <> parent p.
Proof. intros D P E. rewrite <- E in P. congruence. Qed.

Lemma copy2_Return_content src dst w d w' :
  OS.copy2 src dst w = (Return d, w') ->
  OS.is_dir (w_fs w) dst = false ->
  copied_as (w_fs w) (w_fs w') src dst /\
  OS.is_dir (w_fs w) src = false /\ OS.is_dir (w_fs w) (parent dst) = true.
Proof.
  intros E D. unfold OS.copy2, OS.syscall_with in E. simpl in E.
  assert (T : OS.copy2_target (w_fs w) src dst = dst)
    by (unfold OS.copy2_target; now rewrite D).
  revert E.
  destruct (w_fault w (Copy2 src dst)); [discriminate|].
  destruct (OS.copy2_open (w_fs w) src dst) as [e|n] eqn:O; [discriminate|].
  apply copy2_open_inr in O. rewrite T in *.
  destruct O as (L & Dn & _ & P).
  intros [= _ <-]. simpl. split; [|split; [|exact P]].
  - exists n. eexists. split; [exact L|]. split.
    + rewrite lookup_create, path_eqb_refl; [reflexivity|].
      now apply (not_its_parent (w_fs w)).
    + now repeat split.
  - unfold OS.is_dir. now rewrite L.
Qed.

Lemma copy_pass_agree ps tgt items :
  forall acc w r w',
    (forall c n, In (c, n) items -> ~ In (joinpath tgt n) ps) ->
    no_new_dir ps (w_fs w) ->
    for_fold items acc (copy_one tgt) w = (r, w') ->
    agree_but tgt ps (w_fs w) (w_fs w').
Proof.
  induction items as [|[c n] items IH]; intros [s0 f0] w r w' Hn Hd.
  - simpl. unfold ret. intros [= _ <-]. apply agree_but_refl.
  - rewrite for_fold_cons.
    assert (Nc : ~ In (joinpath tgt n) ps) by (apply (Hn c n); now left).
    destruct (OS.copy2 c (joinpath tgt n) w) as [[dst|e|] w1] eqn:E;
      destruct (copy2_outside _ _ _ _ _ _ E Nc Hd) as (A & D & R);
      rewrite parent_joinpath in A.
    + rewrite (bind_Return _ _ _ _ _ (copy_one_copied _ _ _ _ _ _ _ _ E)).
      intros Run. eapply agree_but_trans; [exact A|].
      eapply IH; [|exact D|exact Run].
      intros c' n' H. apply (Hn c' n'). now right.
    + rewrite (bind_Return _ _ _ _ _ (copy_one_failed _ _ _ _ _ _ _ _ E)).
      intros Run. eapply agree_but_trans; [exact A|].
      eapply (IH _ (add_logs [(ERROR, e_msg e)] w1)); [|exact D|exact Run].
      intros c' n' H. apply (Hn c' n'). now right.
    + apply copy2_inv in E. now destruct E as (_ & _ & _ & _ & []).
Qed.

Lemma no_new_dir_more ps q fs :
  no_new_dir ps fs -> no_new_dir (q :: ps) fs.
Proof. intros H x Hx. apply H. intros C. apply Hx. now right. Qed.

Lemma copy_pass_faithful ps fs0 tgt items :
  forall s0 f0 w s f w',
    NoDup (map snd items) ->
    (forall c n, In (c, n) items -> ~ In (joinpath tgt n) ps) ->
    no_new_dir ps (w_fs w) ->
    agree_but tgt ps fs0 (w_fs w) ->
    for_fold items (s0, f0) (copy_one tgt) w = (Return (s, f), w') ->
    forall c n, In (c, n) items -> In c ps ->
                In c f \/ copied_as fs0 (w_fs w') c (joinpath tgt n).
Proof.
  induction items as [|[c0 n0] items IH];
    intros s0 f0 w s f w' ND Hn Hd Ha Run c n Hin Hc; [contradiction|].
  simpl in ND. inversion ND as [|? ? N0 ND']; subst.
  assert (Nc : ~ In (joinpath tgt n0) ps) by (apply (Hn c0 n0); now left).
  assert (Hn' : forall c n, In (c, n) items -> ~ In (joinpath tgt n) ps).
  { intros c' n' H. apply (Hn c' n'). now right. }
  rewrite for_fold_cons in Run.
  destruct (OS.copy2 c0 (joinpath tgt n0) w) as [[dst|e|] w1] eqn:E;
    destruct (copy2_outside _ _ _ _ _ _ E Nc Hd) as (A & D & R);
    rewrite parent_joinpath in A.
  - rewrite (bind_Return _ _ _ _ _ (copy_one_copied _ _ _ _ _ _ _ _ E)) in Run.
    destruct Hin as [[= -> ->]|Hin].
    + right.
      destruct (copy2_Return_content _ _ _ _ _ E (Hd _ Nc))
        as ((src & copy & Ls & Lc & Cd & Cdata & Ctime) & Fc & Dt).
      rewrite parent_joinpath in Dt.
      assert (Ct : c <> tgt) by (intros ->; congruence).
      exists src, copy. split; [now rewrite <- (proj1 (Ha c Hc) Ct)|].
      split; [|now repeat split].
      rewrite <- Lc.
      assert (Nt : joinpath tgt n <> tgt).
      { intros J. apply (f_equal (@List.length string)) in J.
        unfold joinpath in J. rewrite length_app in J. simpl in J. lia. }
      refine (proj1 (copy_pass_agree (joinpath tgt n :: ps) tgt items _ _ _ _
                       _ _ Run (joinpath tgt n) (or_introl eq_refl)) Nt).
      * intros c' n' H [C|C]; [|now apply (Hn' c' n' H)].
        apply joinpath_inj in C. subst n'. apply N0.
        apply in_map_iff. now exists (c', n).
      * now apply no_new_dir_more.
    + exact (IH (s0 ++ [dst]) f0 w1 s f w' ND' Hn' D
               (agree_but_trans _ _ _ _ _ Ha A) Run c n Hin Hc).
  - rewrite (bind_Return _ _ _ _ _ (copy_one_failed _ _ _ _ _ _ _ _ E)) in Run.
    destruct Hin as [[= -> ->]|Hin].
    + left.
      destruct (copy_pass_spec tgt items s0 (f0 ++ [c])
                  (add_logs [(ERROR, e_msg e)] w1))
        as (s' & f' & w'' & ls & Run' & _).
      rewrite Run' in Run. injection Run as _ <- _.
      apply in_app_iff. left. apply in_app_iff. right. now left.
    + exact (IH s0 (f0 ++ [c0]) (add_logs [(ERROR, e_msg e)] w1) s f w'
               ND' Hn' D (agree_but_trans _ _ _ _ _ Ha A) Run c n Hin Hc).
  - apply copy2_inv in E. now destruct E as (_ & _ & _ & _ & []).
Qed.

Lemma chown_loop_content s :
  forall w r w' q n,
    for_each s (fun path => OS.chown path 1000 1000) w = (r, w') ->
    OS.lookup (w_fs w) q = Some n ->
    exists n', OS.lookup (w_fs w') q = Some n' /\
               n_is_dir n' = n_is_dir n /\ n_data n' = n_data n /\
               n_mtime n' = n_mtime n.
Proof.
  induction s as [|p s IH]; intros w r w' q n.
  - unfold for_each. simpl. unfold ret. intros [= _ <-] L. now exists n.
  - rewrite for_each_cons. unfold bind.
    destruct (OS.chown p 1000 1000 w) as [[[]|e|] w1] eqn:E; intros Run L.
    + assert (L1 : exists n1, OS.lookup (w_fs w1) q = Some n1 /\
                     n_is_dir n1 = n_is_dir n /\ n_data n1 = n_data n /\
                     n_mtime n1 = n_mtime n).
      { unfold OS.chown, OS.syscall, OS.syscall_with in E. simpl in E. revert E.
        destruct (w_fault w (Chown p 1000 1000)); [discriminate|].
        destruct (OS.lookup (w_fs w) p) as [m|] eqn:Lp; [|discriminate].
        intros [= <-]. simpl. rewrite lookup_write.
        destruct (path_eqb p q) eqn:Q.
        - apply path_eqb_eq in Q. subst q. rewrite L in Lp.
          injection Lp as <-. eexists. split; [reflexivity|]. now repeat split.
        - now exists n. }
      destruct L1 as (n1 & L1 & d1 & a1 & t1).
      destruct (IH _ _ _ _ _ Run L1) as (n' & L' & d' & a' & t').
      exists n'. repeat split; congruence.
    + injection Run as _ <-.
      pose proof (chown_inv _ _ _ _ _ _ E) as _.
      unfold OS.chown, OS.syscall, OS.syscall_with in E. simpl in E. revert E.
      destruct (w_fault w (Chown p 1000 1000));
        [intros [= _ <-]; now exists n|].
      destruct (OS.lookup (w_fs w) p); [discriminate|].
      intros [= _ <-]. now exists n.
    + apply chown_inv in E. now destruct E as (_ & _ & _ & _ & []).
Qed.

(** X14. After the Namer and the Copier, every candidate of the mapping is
    either in the failure list or has its copy in the target directory under
    the name the Namer gave it: a regular file with the data and the
    modification time that the candidate had when the Namer was called. *)
Theorem pipeline_copies_data_and_mtime :
  forall target_dir_path pictures_paths w target_filenames w1
         success_paths fail_paths w2 filepath new_name,
    create_target_filenames target_dir_path pictures_paths w
      = (Return target_filenames, w1) ->
    copy_files target_filenames target_dir_path w1
      = (Return (success_paths, fail_paths), w2) ->
    In (filepath, new_name) (dict_items target_filenames) ->
    In filepath fail_paths \/
    copied_as (w_fs w) (w_fs w2) filepath
      (joinpath target_dir_path new_name).
Proof.
  intros tgt ps w m w1 s f w2 c n Names Copy Hin.
  destruct (namer_avoids_listing _ _ _ _ _ Names) as [V New].
  destruct (namer_names_stamped _ _ _ _ _ Names c n Hin)
    as (ts & i & (_ & src & dt & Ls & _) & _).
  pose proof (namer_keeps_fs _ _ _ _ _ Names) as F.
  assert (Hc : In c (fs_paths (w_fs w))).
  { destruct (in_dec (list_eq_dec string_dec) c (fs_paths (w_fs w)))
      as [I|I]; [exact I|].
    apply lookup_None in I. congruence. }
  destruct (copy_pass_spec tgt (dict_items m) [] [] w1)
    as (s' & f' & w3 & ls & Pass & _).
  simpl in Pass.
  assert (Split_ : In c f' \/
                   copied_as (w_fs w) (w_fs w3) c (joinpath tgt n)).
  { apply (copy_pass_faithful (fs_paths (w_fs w)) (w_fs w) tgt
             (dict_items m) [] [] w1 s' f' w3); try assumption.
    - intros c' n' H C. apply (New n').
      + unfold dict_values. apply in_map_iff. now exists (c', n').
      + now apply joinpath_in_listing.
    - rewrite F. intros q Hq. unfold OS.is_dir.
      now rewrite (proj2 (lookup_None _ _) Hq).
    - rewrite F. apply agree_but_refl. }
  unfold copy_files in Copy.
  rewrite (bind_Return _ _ _ _ _ Pass) in Copy.
  rewrite (bind_Return _ _ _ _ _ (log_summary_eq m s' f' w3)) in Copy.
  unfold bind, chown_all, try_except in Copy.
  destruct (for_each s' (fun path => OS.chown path 1000 1000)
              (add_logs (summary_log m s' f') w3)) as [[[]|e|] w4] eqn:C;
    unfold ret, logging in Copy; try discriminate;
    injection Copy as <- <- <-;
    (destruct Split_ as [Fl|(o & cp & Lo & Lc & Cd & Ca & Ct)];
     [now left | right]);
    destruct (chown_loop_content _ _ _ _ _ cp C Lc) as (n' & L' & d' & a' & t');
    exists o, n'; simpl; repeat split; congruence.
Qed.

Lemma pipeline_copies_data_and_mtime_witness :
  copied_as Sample.fs_used
    (w_fs (snd (copy_files [(Sample.bar, "200101_120000_1.jpg")]
                  Sample.pictures
                  (snd (create_target_filenames Sample.pictures [Sample.bar]
                          (Sample.world_of Sample.fs_used []
                             Sample.no_fault))))))
    Sample.bar (joinpath Sample.pictures "200101_120000_1.jpg").
Proof.
  destruct (pipeline_copies_data_and_mtime Sample.pictures [Sample.bar]
              (Sample.world_of Sample.fs_used [] Sample.no_fault)
              [(Sample.bar, "200101_120000_1.jpg")]
              (snd (create_target_filenames Sample.pictures [Sample.bar]
                      (Sample.world_of Sample.fs_used [] Sample.no_fault)))
              [joinpath Sample.pictures "200101_120000_1.jpg"] []
              (snd (copy_files [(Sample.bar, "200101_120000_1.jpg")]
                      Sample.pictures
                      (snd (create_target_filenames Sample.pictures
                              [Sample.bar]
                              (Sample.world_of Sample.fs_used []
                                 Sample.no_fault)))))
              Sample.bar "200101_120000_1.jpg") as [[]|H].
  - cbv. reflexivity.
  - cbv. reflexivity.
  - now left.
  - exact H.
Defined.

(** ** From the copies to the wipe *)

Lemma copy_phase_keeps argv w a r w2 :
  copy_phase argv w = (Return (a, r), w2) ->
  agree_but (target argv) (fs_paths (w_fs w)) (w_fs w) (w_fs w2).
Proof.
  unfold copy_phase. intros H.
  apply bind_Return_inv in H. destruct H as (a0 & w1 & Ha & H).
  apply parse_args_Return in Ha. destruct Ha as (-> & -> & _ & _).
  apply bind_Return_inv in H. destruct H as ([] & w3 & Hg & H).
  apply bind_Return_inv in H. destruct H as (pics & w4 & Hp & H).
  apply bind_Return_inv in H. destruct H as (names & w5 & Hn & H).
  apply bind_Return_inv in H. destruct H as (r' & w6 & Hc & H).
  unfold ret in H. injection H as _ _ <-.
  assert (F3 : w_fs w3 = w_fs w).
  { simpl in Hg. destruct (wipe argv).
    - unfold bind, OS.getuid, OS.query, raise, ret in Hg. simpl in Hg.
      destruct (negb (w_uid w =? 0)%nat); [discriminate|].
      now injection Hg as <-.
    - unfold ret in Hg. now injection Hg as <-. }
  assert (F4 : w_fs w4 = w_fs w3).
  { rewrite find_pictures_eq in Hp.
    destruct (OS.glob _ _ _ w3) as [[ps|e|] w'] eqn:G; try discriminate.
    apply glob_world in G. subst w'. now injection Hp as _ <-. }
  pose proof (namer_then_copier_agree _ _ _ _ _ _ _ Hn Hc) as A.
  rewrite F4, F3 in A. exact A.
Qed.

(** X15. When the copy phase returns an empty failure list, the wipe flag
    is set, the answer waiting at the prompt is [yes] and the system refuses
    none of the Wiper's calls, the run ends with the source directory
    emptied. The source directory itself stays, a directory of the owner it
    had at the start: only its modification time changes. Everything
    outside it - the copies too, when the target does not lie inside the
    source - is as the copy phase left it. *)
Theorem main_wipes_the_source_after_a_full_copy :
  forall argv w a success_paths w2 answer rest,
    copy_phase argv w = (Return (a, (success_paths, [])), w2) ->
    wipe argv = true ->
    w_stdin w = answer :: rest ->
    Str.lower answer = "yes" ->
    (forall c, is_wipe_step c = true -> w_fault w2 c = None) ->
    NoDup (OS.children (w_fs w2) (source argv)) ->
    exists w3,
      main argv w = (Return tt, w3) /\
      OS.children (w_fs w3) (source argv) = [] /\
      (forall q, OS.is_prefix (source argv) q = false ->
                 OS.lookup (w_fs w3) q = OS.lookup (w_fs w2) q) /\
      OS.is_dir (w_fs w3) (source argv) = true /\
      same_but_mtime (OS.lookup (w_fs w) (source argv))
        (OS.lookup (w_fs w3) (source argv)).
Proof.
  intros argv w a s w2 answer rest Phase W In_ Y Hf ND.
  destruct (copy_phase_Return _ _ _ _ _ Phase) as (-> & _ & Ds & _).
  pose proof (copy_phase_keeps _ _ _ _ _ Phase) as Keep.
  pose proof (quiet_copy_phase argv w) as Q. rewrite Phase in Q.
  destruct Q as (_ & _ & _ & St). simpl in St.
  assert (Src : same_but_mtime (OS.lookup (w_fs w) (source argv))
                  (OS.lookup (w_fs w2) (source argv))).
  { apply Keep.
    destruct (in_dec (list_eq_dec string_dec) (source argv)
                (fs_paths (w_fs w))) as [I|I]; [exact I|].
    apply lookup_None in I. unfold OS.is_dir in Ds. rewrite I in Ds.
    discriminate. }
  assert (Dir : forall a b x, same_but_mtime (OS.lookup a x) (OS.lookup b x) ->
                  OS.is_dir a x = true -> OS.is_dir b x = true).
  { intros fa fb x. unfold OS.is_dir.
    destruct (OS.lookup fa x), (OS.lookup fb x); simpl; try tauto;
      try discriminate.
    intros (E & _). congruence. }
  destruct (wipe_disk_confirmed (source argv) w2 answer rest)
    as (w3 & Run & Empty & _ & Out & Self & _); try assumption.
  { now rewrite St. }
  { exact (Dir _ _ _ Src Ds). }
  exists w3. split; [|split; [exact Empty|split; [exact Out|split]]].
  - rewrite main_eq, (bind_Return _ _ _ _ _ Phase). simpl. now rewrite W.
  - apply (Dir (w_fs w)); [|exact Ds].
    eapply same_but_mtime_trans; eassumption.
  - eapply same_but_mtime_trans; eassumption.
Qed.

Lemma main_wipes_the_source_after_a_full_copy_witness :
  exists w3,
    main (mk_args Sample.floppy Sample.pictures true)
      (Sample.world_of Sample.fs_fresh ["yes"] Sample.no_fault)
    = (Return tt, w3) /\
    OS.children (w_fs w3) Sample.floppy = [] /\
    OS.is_dir (w_fs w3) Sample.floppy = true.
Proof.
  edestruct (main_wipes_the_source_after_a_full_copy
               (mk_args Sample.floppy Sample.pictures true)
               (Sample.world_of Sample.fs_fresh ["yes"] Sample.no_fault))
    as (w3 & Run & Empty & _ & Dir & _).
  - cbv. reflexivity.
  - reflexivity.
  - reflexivity.
  - reflexivity.
  - reflexivity.
  - cbv. repeat constructor; simpl; intuition discriminate.
  - exists w3. now repeat split.
Defined.

(** ** A wipe that is cut short *)

Lemma for_each_app {A} (xs ys : list A) (body : A -> M unit) w :
  for_each (xs ++ ys) body w
  = bind (for_each xs body) (fun _ => for_each ys body) w.
Proof.
  unfold for_each. rewrite for_fold_app. apply bind_ext. now intros [] w'.
Qed.

Lemma is_prefix_trans a b c :
  OS.is_prefix a b = true -> OS.is_prefix b c = true ->
  OS.is_prefix a c = true.
Proof.
  revert b c. induction a as [|x a IH]; intros b c; [reflexivity|].
  destruct b as [|y b]; [discriminate|].
  destruct c as [|z c]; [simpl; intros _ H; discriminate H|].
  simpl. intros H1 H2.
  apply andb_true_iff in H1, H2. destruct H1 as [E1 H1], H2 as [E2 H2].
  apply String.eqb_eq in E1, E2. subst. rewrite String.eqb_refl. simpl.
  eapply IH; eassumption.
Qed.

Lemma is_prefix_removelast p q :
  OS.is_prefix p q = true -> p <> q -> OS.is_prefix p (removelast q) = true.
Proof.
  revert q. induction p as [|x p IH]; intros q; [reflexivity|].
  destruct q as [|y q]; [discriminate|].
  simpl OS.is_prefix at 1. intros H N.
  apply andb_true_iff in H. destruct H as [E H].
  apply String.eqb_eq in E. subst y.
  destruct q as [|z q].
  - destruct p; [now elim N | discriminate].
  - change (removelast (x :: z :: q)) with (x :: removelast (z :: q)).
    cbn [OS.is_prefix]. rewrite String.eqb_refl. cbn [andb].
    apply IH; [exact H|]. intros ->. now apply N.
Qed.

(** The parent of an entry below [p] is [p] or lies below [p]. *)
Lemma is_below_parent p g :
  OS.is_below p g = true -> OS.is_prefix p (parent g) = true.
Proof.
  unfold OS.is_below, parent. intros H.
  apply andb_true_iff in H. destruct H as [P N].
  apply is_prefix_removelast; [exact P|].
  intros ->. now rewrite path_eqb_refl in N.
Qed.

Lemma lookup_unlink_tree fs g t q :
  OS.lookup (OS.unlink_tree fs g t) q
  = (if path_eqb q (parent g) then option_map (OS.set_mtime t)
     else fun o => o)
      (if OS.is_prefix g q then None else OS.lookup fs q).
Proof.
  unfold OS.unlink_tree. rewrite lookup_touch, lookup_delete_tree.
  now destruct (path_eqb q (parent g)).
Qed.

(** A removal of the tree [p] that fails leaves all that is not [p] or
    below it as it was. *)
Lemma prune_keep p gone t q :
  OS.is_prefix p q = false ->
  forall fs, OS.lookup (OS.prune fs p gone t) q = OS.lookup fs q.
Proof.
  intros Q. unfold OS.prune.
  induction gone as [|g gone IH]; intros fs; [reflexivity|].
  simpl. rewrite IH. destruct (OS.is_below p g) eqn:B; [|reflexivity].
  rewrite lookup_unlink_tree.
  assert (Pg : OS.is_prefix p g = true).
  { unfold OS.is_below in B. now apply andb_true_iff in B. }
  destruct (OS.is_prefix g q) eqn:G.
  { rewrite (is_prefix_trans _ _ _ Pg G) in Q. discriminate. }
  destruct (path_eqb q (parent g)) eqn:E; [|reflexivity].
  apply path_eqb_eq in E. subst q.
  rewrite (is_below_parent _ _ B) in Q. discriminate.
Qed.

Lemma left_of_refl a : left_of a a.
Proof. right. apply same_but_mtime_refl. Qed.

Lemma left_of_trans a b c : left_of a b -> left_of b c -> left_of a c.
Proof.
  intros [->|H1] [->|H2]; try (now left).
  - left. now destruct c.
  - right. eapply same_but_mtime_trans; eassumption.
Qed.

(** Of every entry it leaves what was there, or nothing. *)
Lemma prune_left_of p gone t q :
  forall fs, left_of (OS.lookup fs q) (OS.lookup (OS.prune fs p gone t) q).
Proof.
  unfold OS.prune.
  induction gone as [|g gone IH]; intros fs; [apply left_of_refl|].
  simpl. eapply left_of_trans; [|apply IH].
  destruct (OS.is_below p g); [|apply left_of_refl].
  rewrite lookup_unlink_tree.
  destruct (OS.is_prefix g q); [left; now destruct (path_eqb q (parent g))|].
  destruct (path_eqb q (parent g)); [|apply left_of_refl].
  right. apply same_but_mtime_touched.
Qed.

(** The tree [p] itself stays. *)
Lemma prune_self p gone t :
  forall fs, same_but_mtime (OS.lookup fs p)
               (OS.lookup (OS.prune fs p gone t) p).
Proof.
  unfold OS.prune.
  induction gone as [|g gone IH]; intros fs; [apply same_but_mtime_refl|].
  simpl. eapply same_but_mtime_trans; [|apply IH].
  destruct (OS.is_below p g) eqn:B; [|apply same_but_mtime_refl].
  rewrite lookup_unlink_tree.
  assert (G : OS.is_prefix g p = false).
  { destruct (OS.is_prefix g p) eqn:G; [|reflexivity]. exfalso.
    unfold OS.is_below in B. apply andb_true_iff in B. destruct B as [P N].
    assert (p = g).
    { apply is_prefix_same_length; [exact P|].
      apply is_prefix_length in P, G. lia. }
    subst g. now rewrite path_eqb_refl in N. }
  rewrite G. destruct (path_eqb p (parent g)).
  - apply same_but_mtime_touched.
  - apply same_but_mtime_refl.
Qed.

(** X16. A confirmed wipe has no [try] around its removals: when the system
    refuses the test or the removal of an entry, with an error that the
    test does not ignore, [wipe_disk] raises that error at once. The
    entries listed before it are gone by then and those listed after it
    are left as they were. The refused entry is still there: as it was when
    its test or its [os.remove] is refused; when it is a directory whose
    [shutil.rmtree] is refused, it is still a directory of the same owner,
    and of each entry below it there is left what was there, or nothing. *)
Theorem wipe_stops_at_the_first_refusal :
  forall disk_path w answer rest before c after n e,
    w_stdin w = answer :: rest ->
    Str.lower answer = "yes" ->
    w_fault w (Listdir disk_path) = None ->
    w_fault w (Input wipe_prompt) = None ->
    w_fault w (Glob disk_path "*") = None ->
    w_fault w (Scandir disk_path) = None ->
    OS.is_dir (w_fs w) disk_path = true ->
    OS.children (w_fs w) disk_path = before ++ c :: after ->
    NoDup (before ++ c :: after) ->
    (forall p, In p before ->
               w_fault w (IsDir p) = None /\
               w_fault w (Rmtree p) = None /\ w_fault w (Remove p) = None) ->
    OS.lookup (w_fs w) c = Some n ->
    (w_fault w (IsDir c) = Some e /\ ignored_error e = false \/
     w_fault w (IsDir c) = None /\
     w_fault w (if n_is_dir n then Rmtree c else Remove c) = Some e) ->
    exists w',
      wipe_disk disk_path w = (Raise e, w') /\
      (forall p, In p before -> OS.lookup (w_fs w') p = None) /\
      (forall q, In q after ->
                 OS.lookup (w_fs w') q = OS.lookup (w_fs w) q) /\
      same_but_mtime (Some n) (OS.lookup (w_fs w') c) /\
      (w_fault w (IsDir c) <> None \/ n_is_dir n = false ->
       OS.lookup (w_fs w') c = Some n /\
       forall q, OS.is_prefix c q = true ->
                 OS.lookup (w_fs w') q = OS.lookup (w_fs w) q) /\
      (forall q, OS.is_prefix c q = true ->
                 left_of (OS.lookup (w_fs w) q) (OS.lookup (w_fs w') q)).
Proof.
  intros disk w answer rest before c after n e In_ Y Fl Fi Fg Fs Dir Ch ND
         Hf L Re.
  destruct (wipe_disk_yes disk w answer rest In_ Y Fl Fi Fg Fs Dir)
    as (w0 & Pre & F0 & X0 & G0 & _).
  assert (Kid : forall p, In p (before ++ c :: after) ->
                          p = joinpath disk (name p)).
  { intros p Hp. rewrite <- Ch in Hp. now apply child_length in Hp. }
  assert (Len : forall p, In p (before ++ c :: after) ->
                          List.length p = S (List.length disk)).
  { intros p Hp. rewrite <- Ch in Hp. now apply child_length in Hp. }
  destruct (wipe_loop_spec disk before w0)
    as (w1 & Run & Gone & Keep & _ & _ & _ & X1 & G1).
  { intros p Hp. rewrite X0. now apply Hf. }
  { now apply NoDup_app_remove_r in ND. }
  { intros p Hp. rewrite F0. intros C. apply lookup_None in C. apply C.
    assert (In p (OS.children (w_fs w) disk))
      by (rewrite Ch; apply in_app_iff; now left).
    apply children_In in H. tauto. }
  { intros p Hp. apply Kid. apply in_app_iff. now left. }
  rewrite X0 in X1. rewrite G0 in G1.
  assert (Apart : forall k q, In k (c :: after) -> OS.is_prefix k q = true ->
                    forall p, In p before -> OS.is_prefix p q = false).
  { intros k q Hk Kq p Hp. destruct (OS.is_prefix p q) eqn:P; [|reflexivity].
    exfalso.
    assert (Lp : List.length p = List.length k).
    { rewrite (Len p), (Len k); [reflexivity| |];
        apply in_app_iff; [now right | now left]. }
    assert (p = k).
    { clear - Kq P Lp. revert k q Kq P Lp.
      induction p as [|x p IH]; intros [|y k] [|z q]; simpl;
        try discriminate; try reflexivity.
      intros Kq P Lp.
      apply andb_true_iff in Kq, P.
      destruct Kq as [E1 Kq], P as [E2 P].
      apply String.eqb_eq in E1, E2. subst. f_equal.
      apply (IH k q); [assumption | assumption | lia]. }
    subst k. clear - ND Hp Hk. induction before as [|x l IH].
    - contradiction.
    - simpl in ND. inversion ND as [|? ? Nx ND']; subst.
      destruct Hp as [->|Hp]; [|now apply IH].
      apply Nx. apply in_app_iff. now right. }
  assert (NotDisk : forall k q, In k (c :: after) ->
                      OS.is_prefix k q = true -> q <> disk).
  { intros k q Hk Kq ->. apply is_prefix_length in Kq.
    rewrite (Len k) in Kq; [lia|]. apply in_app_iff. now right. }
  assert (Same : forall k q, In k (c :: after) -> OS.is_prefix k q = true ->
                   OS.lookup (w_fs w1) q = OS.lookup (w_fs w) q).
  { intros k q Hk Kq. rewrite <- F0.
    apply Keep; [now apply (Apart k) | now apply (NotDisk k)]. }
  assert (Lc : OS.lookup (w_fs w1) c = Some n).
  { rewrite (Same c c (or_introl eq_refl) (is_prefix_refl c)). exact L. }
  assert (After : forall q, In q after -> OS.is_prefix c q = false).
  { intros q Hq. destruct (OS.is_prefix c q) eqn:P; [|reflexivity].
    exfalso. apply is_prefix_same_length in P.
    - subst q. apply NoDup_remove_2 in ND. apply ND.
      apply in_app_iff. now right.
    - rewrite (Len c), (Len q); [reflexivity| |];
        apply in_app_iff; right; [now right | now left]. }
  assert (Untouched :
    forall w', w_fs w' = w_fs w1 ->
      (forall p, In p before -> OS.lookup (w_fs w') p = None) /\
      (forall q, In q after ->
                 OS.lookup (w_fs w') q = OS.lookup (w_fs w) q) /\
      same_but_mtime (Some n) (OS.lookup (w_fs w') c) /\
      (w_fault w (IsDir c) <> None \/ n_is_dir n = false ->
       OS.lookup (w_fs w') c = Some n /\
       forall q, OS.is_prefix c q = true ->
                 OS.lookup (w_fs w') q = OS.lookup (w_fs w) q) /\
      (forall q, OS.is_prefix c q = true ->
                 left_of (OS.lookup (w_fs w) q) (OS.lookup (w_fs w') q))).
  { intros w' ->. split; [exact Gone|]. split; [|split; [|split]].
    - intros q Hq.
      apply (Same q q (or_intror Hq) (is_prefix_refl q)).
    - rewrite Lc. apply (same_but_mtime_refl (Some n)).
    - intros _. split; [exact Lc|].
      intros q Hq. apply (Same c q (or_introl eq_refl) Hq).
    - intros q Hq. rewrite (Same c q (or_introl eq_refl) Hq).
      apply left_of_refl. }
  assert (Start : forall r w',
            (d <- OS.path_is_dir c ;;
             (if d then OS.rmtree c else OS.remove c) ;;
             logging INFO (path_str c ++ " removed")) w1 = (Raise r, w') ->
            wipe_disk disk w = (Raise r, w')).
  { intros r w' Step.
    rewrite Pre, Ch, for_each_app, (bind_Return _ _ _ _ _ Run).
    rewrite for_each_cons. now apply bind_Raise. }
  destruct Re as [[Rd Ig]|[Rd Re]].
  { eexists. split.
    - apply Start. unfold bind, OS.path_is_dir.
      rewrite path_test_eq, X1, Rd, Ig. reflexivity.
    - apply Untouched. reflexivity. }
  destruct (n_is_dir n) eqn:D.
  - assert (Step : exists t gone,
      (d <- OS.path_is_dir c ;;
       (if d then OS.rmtree c else OS.remove c) ;;
       logging INFO (path_str c ++ " removed")) w1
      = (Raise e,
         set_fs (OS.prune (w_fs w1) c gone t)
           (add_calls [IsDir c; Rmtree c] w1))).
    { do 2 eexists. unfold bind, OS.path_is_dir.
      rewrite path_test_eq, X1, Rd. unfold OS.is_dir at 1. rewrite Lc, D.
      unfold OS.rmtree, OS.syscall_with. simpl. rewrite X1, Re.
      unfold OS.is_dir. rewrite Lc, D.
      unfold set_fs, add_calls, add_call. simpl.
      rewrite <- app_assoc. reflexivity. }
    destruct Step as (t & gone & Step).
    eexists. split; [apply Start; exact Step|]. unfold set_fs. cbn [w_fs].
    split; [|split; [|split; [|split]]].
    + intros p Hp.
      destruct (prune_left_of c gone t p (w_fs w1)) as [E|E]; [exact E|].
      rewrite (Gone p Hp) in E.
      now destruct (OS.lookup (OS.prune (w_fs w1) c gone t) p).
    + intros q Hq. rewrite (prune_keep c gone t q (After q Hq)).
      apply (Same q q (or_intror Hq) (is_prefix_refl q)).
    + rewrite <- Lc. apply prune_self.
    + intros [H|H]; congruence.
    + intros q Hq. rewrite <- (Same c q (or_introl eq_refl) Hq).
      apply prune_left_of.
  - eexists. split.
    + apply Start. unfold bind, OS.path_is_dir.
      rewrite path_test_eq, X1, Rd. unfold OS.is_dir at 1. rewrite Lc, D.
      unfold OS.remove, OS.syscall, OS.syscall_with. simpl. rewrite X1, Re.
      reflexivity.
    + apply Untouched. reflexivity.
Qed.

Lemma wipe_stops_at_the_first_refusal_witness :
  exists w',
    wipe_disk Sample.floppy Sample.album_stuck = (Raise Sample.io_error, w') /\
    OS.is_dir (w_fs w') Sample.album = true /\
    OS.lookup (w_fs w') (joinpath Sample.floppy "notes.txt")
    = OS.lookup Sample.fs_album (joinpath Sample.floppy "notes.txt") /\
    OS.lookup (w_fs w') (joinpath Sample.album "a.jpg") = None /\
    OS.lookup (w_fs w') (joinpath Sample.album "b.jpg") = Some Sample.picture.
Proof.
  edestruct (wipe_stops_at_the_first_refusal Sample.floppy
               Sample.album_stuck "yes" [] [] Sample.album
               [joinpath Sample.floppy "notes.txt"])
    as (w' & Run & _ & Kept & Self & _ & Left).
  - reflexivity.
  - reflexivity.
  - reflexivity.
  - reflexivity.
  - reflexivity.
  - reflexivity.
  - reflexivity.
  - reflexivity.
  - cbv. repeat constructor; simpl; intuition discriminate.
  - intros p [].
  - reflexivity.
  - right. split; reflexivity.
  - exists w'. split; [exact Run|]. split; [|split].
    + unfold OS.is_dir.
      destruct (OS.lookup (w_fs w') Sample.album) as [m|];
        [|contradiction].
      now destruct Self as (D & _).
    + apply Kept. now left.
    + revert Run. cbv. intros [= <-]. split; reflexivity.
Defined.

(** ** Who owns the copies *)

Lemma copy2_after src dst w r w' :
  OS.copy2 src dst w = (r, w') ->
  w_fault w' = w_fault w /\
  forall d, r = Return d -> OS.lookup (w_fs w') d <> None.
Proof.
  unfold OS.copy2, OS.syscall_with. simpl.
  destruct (w_fault w (Copy2 src dst)).
  { destruct (OS.copy2_open (w_fs w) src dst);
      [|destruct (w_torn w (Copy2 src dst)) as [[mt data]|]];
      intros [= <- <-]; split; try reflexivity; discriminate. }
  destruct (OS.copy2_open (w_fs w) src dst) as [e|n] eqn:O;
    [intros [= <- <-]; split; [reflexivity | discriminate]|].
  apply copy2_open_inr in O. destruct O as (_ & _ & D & P).
  intros [= <- <-]. split; [reflexivity|].
  intros d [= <-]. simpl.
  rewrite lookup_create, path_eqb_refl; [discriminate|].
  now apply (not_its_parent (w_fs w)).
Qed.

Lemma lookup_stays fs fs' p :
  incl (fs_paths fs) (fs_paths fs') ->
  OS.lookup fs p <> None -> OS.lookup fs' p <> None.
Proof.
  intros I H C. apply lookup_None in C. apply H. apply lookup_None.
  intros D. apply C. now apply I.
Qed.

Lemma copy_pass_copies_exist tgt items :
  forall s0 f0 w s f w',
    (forall p, In p s0 -> OS.lookup (w_fs w) p <> None) ->
    for_fold items (s0, f0) (copy_one tgt) w = (Return (s, f), w') ->
    (forall p, In p s -> OS.lookup (w_fs w') p <> None) /\
    w_fault w' = w_fault w.
Proof.
  induction items as [|[c n] items IH]; intros s0 f0 w s f w' Hs.
  - simpl. unfold ret. intros [= <- <- <-]. now split.
  - rewrite for_fold_cons.
    destruct (OS.copy2 c (joinpath tgt n) w) as [[dst|e|] w1] eqn:E;
      pose proof (copy2_inv _ _ _ _ _ E) as (_ & _ & _ & I & R);
      destruct (copy2_after _ _ _ _ _ E) as (X & Ex).
    + rewrite (bind_Return _ _ _ _ _ (copy_one_copied _ _ _ _ _ _ _ _ E)).
      intros Run. apply IH in Run.
      * destruct Run as [Run Xr]. split; [exact Run | congruence].
      * intros p Hp. apply in_app_iff in Hp. destruct Hp as [Hp|[<-|[]]].
        -- eapply lookup_stays; [exact I | now apply Hs].
        -- now apply Ex.
    + rewrite (bind_Return _ _ _ _ _ (copy_one_failed _ _ _ _ _ _ _ _ E)).
      intros Run. apply IH in Run.
      * destruct Run as [Run Xr]. split; [exact Run|].
        rewrite Xr. simpl. exact X.
      * intros p Hp. simpl. eapply lookup_stays; [exact I | now apply Hs].
    + contradiction.
Qed.

Lemma copy_pass_log tgt items :
  forall acc w r w',
    for_fold items acc (copy_one tgt) w = (r, w') ->
    exists ls, w_log w' = w_log w ++ ls /\
               forall rec, In rec ls -> fst rec = ERROR.
Proof.
  induction items as [|[c n] items IH]; intros [s0 f0] w r w'.
  - simpl. unfold ret. intros [= _ <-]. exists [].
    rewrite app_nil_r. split; [reflexivity | intros ? []].
  - rewrite for_fold_cons.
    destruct (OS.copy2 c (joinpath tgt n) w) as [[dst|e|] w1] eqn:E;
      pose proof (copy2_inv _ _ _ _ _ E) as (_ & Lw & _ & _ & R).
    + rewrite (bind_Return _ _ _ _ _ (copy_one_copied _ _ _ _ _ _ _ _ E)).
      intros Run. apply IH in Run. destruct Run as (ls & L & Err).
      exists ls. split; [congruence | exact Err].
    + rewrite (bind_Return _ _ _ _ _ (copy_one_failed _ _ _ _ _ _ _ _ E)).
      intros Run. apply IH in Run. destruct Run as (ls & L & Err).
      exists ((ERROR, e_msg e) :: ls). split.
      * rewrite L. simpl. rewrite Lw. now rewrite <- app_assoc.
      * intros rec [<-|H]; [reflexivity | now apply Err].
    + contradiction.
Qed.

Lemma chown_Return p w :
  w_fault w (chown_call p) = None ->
  OS.lookup (w_fs w) p <> None ->
  exists n w',
    OS.chown p 1000 1000 w = (Return tt, w') /\
    OS.lookup (w_fs w) p = Some n /\
    w_fs w' = OS.write (w_fs w) p
                (mk_node (n_is_dir n) (n_mtime n) (1000, 1000) (n_data n)) /\
    w_fault w' = w_fault w.
Proof.
  unfold chown_call. intros F L.
  destruct (OS.lookup (w_fs w) p) as [n|] eqn:E; [|now elim L].
  exists n. eexists. split.
  - unfold OS.chown, OS.syscall, OS.syscall_with. simpl. rewrite F, E. reflexivity.
  - now repeat split.
Qed.

Lemma chown_loop_owner s :
  forall w,
    (forall p, In p s -> w_fault w (chown_call p) = None) ->
    (forall p, In p s -> OS.lookup (w_fs w) p <> None) ->
    exists w',
      for_each s (fun path => OS.chown path 1000 1000) w = (Return tt, w') /\
      (forall p, In p s ->
                 exists n, OS.lookup (w_fs w') p = Some n /\
                           n_owner n = (1000, 1000)) /\
      (forall q n, OS.lookup (w_fs w) q = Some n ->
                   n_owner n = (1000, 1000) ->
                   exists n', OS.lookup (w_fs w') q = Some n' /\
                              n_owner n' = (1000, 1000)) /\
      w_log w' = w_log w.
Proof.
  induction s as [|p s IH]; intros w Hf Hex.
  - exists w. unfold for_each. simpl. repeat split; try contradiction.
    intros q n L O. now exists n.
  - destruct (chown_Return p w (Hf p (or_introl eq_refl))
                (Hex p (or_introl eq_refl)))
      as (n & w1 & E & L & F1 & X1).
    pose proof (chown_inv _ _ _ _ _ _ E) as (_ & Lg1 & _ & I1 & _).
    destruct (IH w1) as (w' & Run & Own & Keep & Lg).
    + intros q Hq. rewrite X1. apply Hf. now right.
    + intros q Hq. eapply lookup_stays; [exact I1 | apply Hex; now right].
    + assert (Step : forall q m, OS.lookup (w_fs w) q = Some m ->
                       n_owner m = (1000, 1000) ->
                       exists m', OS.lookup (w_fs w1) q = Some m' /\
                                  n_owner m' = (1000, 1000)).
      { intros q m Lq Oq. rewrite F1, lookup_write.
        destruct (path_eqb p q); [eexists; split; reflexivity|].
        now exists m. }
      exists w'. split; [|split; [|split]].
      * rewrite for_each_cons. now rewrite (bind_Return _ _ _ _ _ E).
      * intros q [<-|Hq]; [|now apply Own].
        apply (Keep p (mk_node (n_is_dir n) (n_mtime n) (1000, 1000)
                         (n_data n))); [|reflexivity].
        now rewrite F1, lookup_write, path_eqb_refl.
      * intros q m Lq Oq.
        destruct (Step q m Lq Oq) as (m' & L' & O').
        now apply (Keep q m').
      * congruence.
Qed.

(** X17. When the system refuses no [chown], every copy in the success list
    that [copy_files] returns is, at the end, an entry owned by user 1000
    and group 1000, and no warning is logged. *)
Theorem copies_end_up_owned_by_1000 :
  forall target_filenames target_dir_path w success_paths fail_paths w',
    copy_files target_filenames target_dir_path w
      = (Return (success_paths, fail_paths), w') ->
    (forall p, w_fault w (chown_call p) = None) ->
    (forall p, In p success_paths ->
               exists n, OS.lookup (w_fs w') p = Some n /\
                         n_owner n = (1000, 1000)) /\
    (forall msg, In (WARNING, msg) (w_log w') -> In (WARNING, msg) (w_log w)).
Proof.
  intros m tgt w s f w' Copy Hf.
  destruct (copy_pass_spec tgt (dict_items m) [] [] w)
    as (s' & f' & w1 & ls & Pass & _ & _ & Lg1 & _).
  simpl in Pass.
  destruct (copy_pass_copies_exist tgt (dict_items m) [] [] w s' f' w1)
    as (Ex & X1); [intros ? [] | exact Pass |].
  destruct (chown_loop_owner s' (add_logs (summary_log m s' f') w1))
    as (w2 & Run & Own & _ & Lg2).
  { intros p _. simpl. rewrite X1. apply Hf. }
  { intros p Hp. simpl. now apply Ex. }
  assert (Only_errors : forall msg, ~ In (WARNING, msg) ls).
  { destruct (copy_pass_log tgt (dict_items m) _ _ _ _ Pass)
      as (ls' & L' & Err).
    rewrite Lg1 in L'. apply app_inv_head in L'. subst ls'.
    intros msg C. apply Err in C. discriminate. }
  assert (E : copy_files m tgt w = (Return (s', f'), w2)).
  { eapply copy_files_eq; [exact Pass|].
    unfold chown_all, try_except. now rewrite Run. }
  rewrite E in Copy. injection Copy as <- <- <-.
  split; [exact Own|].
  intros msg Hm. rewrite Lg2 in Hm. simpl in Hm. rewrite Lg1 in Hm.
  apply in_app_iff in Hm. destruct Hm as [Hm|Hm].
  - apply in_app_iff in Hm. destruct Hm as [Hm|Hm]; [exact Hm|].
    now elim (Only_errors msg).
  - exfalso. unfold summary_log in Hm. simpl in Hm.
    destruct Hm as [Hm|Hm]; [discriminate|].
    apply in_app_iff in Hm. destruct Hm as [Hm|Hm].
    + apply in_map_iff in Hm. destruct Hm as (? & ? & _). discriminate.
    + destruct f' as [|x f']; [contradiction|].
      destruct Hm as [Hm|Hm]; [discriminate|].
      apply in_map_iff in Hm. destruct Hm as (? & ? & _). discriminate.
Qed.

Lemma copies_end_up_owned_by_1000_witness :
  exists n,
    OS.lookup
      (w_fs (snd (copy_files Sample.names Sample.pictures
                    (Sample.world_of Sample.fs_fresh [] Sample.no_fault))))
      (joinpath Sample.pictures "200101_120000.jpg") = Some n /\
    n_owner n = (1000, 1000).
Proof.
  refine (proj1 (copies_end_up_owned_by_1000 Sample.names Sample.pictures
                   (Sample.world_of Sample.fs_fresh [] Sample.no_fault)
                   [joinpath Sample.pictures "200101_120000.JPG";
                    joinpath Sample.pictures "200101_120000.jpg";
                    joinpath Sample.pictures "200101_120000_1.jpg"] []
                   _ _ _) _ _).
  - cbv. reflexivity.
  - reflexivity.
  - right. now left.
Defined.
